(** * Agentic social responders: the respond relay and the dashboard state

    A shallow embedding of the two pieces of the repository that carry
    logic: the route handler [POST] of [/api/respond] and the state
    transitions of the dashboard page [Home] (automation rules, reply
    composer, activity log, local-storage persistence).

    JavaScript values are modelled as they exist at run time: strings are
    sequences of UTF-16 code units, a parsed JSON document is a tree of
    [jsval], and a property read on [null] throws. *)

From Stdlib Require Import List NArith ZArith Bool Ascii String DecimalString Lia.
From Stdlib Require Import Permutation.
From Stdlib Require QArith Qround.
Import ListNotations.

(** ** JavaScript values *)

Module JS.

(** A string is a list of UTF-16 code units. *)
Definition code_unit := N.
Definition jsstring := list code_unit.

(** An ASCII literal of the source, as code units. *)
Definition js (s : string) : jsstring :=
  map N_of_ascii (list_ascii_of_string s).

Fixpoint str_eqb (a b : jsstring) : bool :=
  match a, b with
  | [], [] => true
  | x :: a', y :: b' => N.eqb x y && str_eqb a' b'
  | _, _ => false
  end.

(** A number as it is written in a JSON text: [mantissa * 10 ^ exponent].
    The engine rounds it to the nearest double; whether that double is zero
    or infinite is computed from the literal, its printing is left to the
    engine (see [Engine]). *)
Record number := mkNumber { mantissa : Z; exponent : Z }.

(** The nearest double is [+0] or [-0]: the literal is zero, or its
    magnitude is at most half the smallest subnormal, [2 ^ -1075] (the tie
    goes to the even significand, which is zero). *)
Definition rounds_to_zero (n : number) : bool :=
  (mantissa n =? 0)%Z
  || ((exponent n <? 0)%Z
      && (Z.abs (mantissa n) * 2 ^ 1075 <=? 10 ^ (- exponent n))%Z).

(** The nearest double is an infinity: the magnitude reaches the midpoint
    between the largest double and [2 ^ 1024]. *)
Definition overflows (n : number) : bool :=
  let bound := (2 ^ 1024 - 2 ^ 970)%Z in
  if (exponent n <? 0)%Z
  then (bound * 10 ^ (- exponent n) <=? Z.abs (mantissa n))%Z
  else (bound <=? Z.abs (mantissa n) * 10 ^ exponent n)%Z.

(** Built-ins of the engine that are taken as given: [Number::toString] of
    the double a literal denotes, and [String.prototype.toLowerCase]. *)
Class Engine := {
  Number_toString : number -> jsstring;
  toLowerCase : jsstring -> jsstring
}.

#[local] Unset Elimination Schemes.
Inductive jsval :=
| JUndefined
| JNull
| JBool (b : bool)
| JNum (n : number)
| JStr (s : jsstring)
| JArr (items : list jsval)
| JObj (props : list (jsstring * jsval)).
#[local] Set Elimination Schemes.

(** What a [throw] carries: an instance of [Error] with its message, or any
    other value. *)
Inductive thrown :=
| ErrorObject (message : jsstring)
| Thrown (v : jsval).

Inductive result (A : Type) :=
| Return (a : A)
| Throw (e : thrown).
Arguments Return {A} a.
Arguments Throw {A} e.

Definition rbind {A B} (r : result A) (k : A -> result B) : result B :=
  match r with
  | Return a => k a
  | Throw e => Throw e
  end.

Definition is_empty (s : jsstring) : bool :=
  match s with [] => true | _ :: _ => false end.

(** [ToBoolean] of ECMA-262: the falsy values are [undefined], [null],
    [false], zero and the empty string. *)
Definition ToBoolean (v : jsval) : bool :=
  match v with
  | JUndefined | JNull => false
  | JBool b => b
  | JNum n => negb (rounds_to_zero n)
  | JStr s => negb (is_empty s)
  | JArr _ | JObj _ => true
  end.

(** Own properties of an object, one binding per key, in the order the
    engine lists them ([OrdinaryOwnPropertyKeys]): the keys that are array
    indices first, by ascending value, then the other keys in the order they
    were added. *)
Fixpoint lookup (key : jsstring) (props : list (jsstring * jsval)) : option jsval :=
  match props with
  | [] => None
  | (k, v) :: rest => if str_eqb key k then Some v else lookup key rest
  end.

Fixpoint digits_value (acc : N) (s : jsstring) : option N :=
  match s with
  | [] => Some acc
  | c :: rest =>
      if (48 <=? c)%N && (c <=? 57)%N
      then digits_value (10 * acc + (c - 48))%N rest
      else None
  end.

(** The array index a key denotes, if any: the canonical decimal text of an
    integer from [0] to [2 ^ 32 - 2]. *)
Definition array_index (key : jsstring) : option N :=
  match key with
  | [] => None
  | c :: rest =>
      if (c =? 48)%N && negb (match rest with [] => true | _ :: _ => false end)
      then None
      else
        match digits_value 0 key with
        | Some n => if (n <? 4294967295)%N then Some n else None
        | None => None
        end
  end.

(** A new key [key] is listed before the key [k] that is already there: it
    is an array index, and [k] is a larger one or none. *)
Definition goes_before (key k : jsstring) : bool :=
  match array_index key, array_index k with
  | Some n, Some m => (n <? m)%N
  | Some _, None => true
  | None, _ => false
  end.

(** The key [a] may stand before the key [b] in the list of an object. *)
Definition in_order (a b : jsstring) : bool :=
  match array_index a, array_index b with
  | Some n, Some m => (n <? m)%N
  | Some _, None => true
  | None, Some _ => false
  | None, None => true
  end.

Fixpoint ordered (keys : list jsstring) : bool :=
  match keys with
  | [] => true
  | k :: rest => forallb (in_order k) rest && ordered rest
  end.

Fixpoint overwrite (key : jsstring) (v : jsval) (props : list (jsstring * jsval))
  : list (jsstring * jsval) :=
  match props with
  | [] => []
  | (k, w) :: rest =>
      if str_eqb key k then (k, v) :: rest else (k, w) :: overwrite key v rest
  end.

Fixpoint insert_prop (key : jsstring) (v : jsval) (props : list (jsstring * jsval))
  : list (jsstring * jsval) :=
  match props with
  | [] => [(key, v)]
  | (k, w) :: rest =>
      if goes_before key k then (key, v) :: (k, w) :: rest
      else (k, w) :: insert_prop key v rest
  end.

(** [CreateDataProperty]: overwrite the binding of [key] where it stands,
    or add it, an array index at its place among the indices and any other
    key at the end. *)
Definition set_prop (key : jsstring) (v : jsval) (props : list (jsstring * jsval))
  : list (jsstring * jsval) :=
  if existsb (str_eqb key) (map fst props)
  then overwrite key v props
  else insert_prop key v props.

(** The message V8 gives the [TypeError] of a property read on [null] or
    [undefined]. *)
Definition nullish_read_message (base key : jsstring) : jsstring :=
  js "Cannot read properties of " ++ base ++ js " (reading '" ++ key ++ js "')".

(** [base.key], for the property names the sources read ([platform],
    [targetId], [message], [channel], [dryRun], [accessToken],
    [instagramBusinessAccountId], [replyToId], [ok], [error], [result], and
    [id], [name], [status], [trigger], [response] of a rule): none of them is
    defined on the prototype of a JSON value, so the read finds an own
    property of an object or yields [undefined]. *)
Definition read (base : jsval) (key : jsstring) : jsval :=
  match base with
  | JObj props => match lookup key props with Some v => v | None => JUndefined end
  | _ => JUndefined
  end.

(** On [null] and [undefined] the read throws a [TypeError]. *)
Definition Get (base : jsval) (key : jsstring) : result jsval :=
  match base with
  | JUndefined => Throw (ErrorObject (nullish_read_message (js "undefined") key))
  | JNull => Throw (ErrorObject (nullish_read_message (js "null") key))
  | _ => Return (read base key)
  end.

Definition nullish (v : jsval) : bool :=
  match v with JUndefined | JNull => true | _ => false end.

(** The object without its property [key]. *)
Definition remove_prop (key : jsstring) (props : list (jsstring * jsval))
  : list (jsstring * jsval) :=
  filter (fun kv => negb (str_eqb key (fst kv))) props.

Fixpoint starts_with (p s : jsstring) : bool :=
  match p, s with
  | [], _ => true
  | x :: p', y :: s' => N.eqb x y && starts_with p' s'
  | _ :: _, [] => false
  end.

(** [String.prototype.includes]. *)
Fixpoint includes (s search : jsstring) : bool :=
  starts_with search s
  || match s with
     | [] => false
     | _ :: rest => includes rest search
     end.

(** The decimal text of an integer, as a template literal prints the value
    of [Date.now()]. *)
Definition decimal (z : Z) : jsstring := js (NilZero.string_of_int (Z.to_int z)).

(** [v === s] for a string [s]. *)
Definition strict_equals_string (v : jsval) (s : jsstring) : bool :=
  match v with
  | JStr t => str_eqb t s
  | _ => false
  end.

End JS.

(** ** The respond relay: [POST /api/respond] *)

Module Route.
Import JS.

(** Modelled from the spec: the type [MetaChannel] is declared in [lib/meta],
    which is not among the sources; section 4.1 gives its two values, the
    ones the handler compares [channel] with. *)
Inductive MetaChannel := comment | message.

Definition MetaChannel_text (c : MetaChannel) : jsstring :=
  match c with comment => js "comment" | message => js "message" end.

Module RespondRequest.
(** Modelled from the spec: the type [RespondRequest] is declared in
    [lib/meta], which is not among the sources. The record has the eight
    properties of the object the handler builds for [postMetaResponse]; they
    are copied from the parsed body as they are, only [channel] has been
    checked. *)
Record t := mk {
  platform : jsval;
  targetId : jsval;
  message : jsval;
  channel : MetaChannel;
  dryRun : jsval;
  accessToken : jsval;
  instagramBusinessAccountId : jsval;
  replyToId : jsval
}.
End RespondRequest.

(** What a run of the handler does besides answering. *)
Inductive event :=
| PostMetaResponseCalled (args : RespondRequest.t)
| OutboundRequest (url : jsstring)
| ConsoleError (label : jsstring) (e : thrown).

(** A computation that logs events and returns or throws. *)
Definition M (A : Type) : Type := list event * result A.

Definition ret {A} (a : A) : M A := ([], Return a).
Definition throw {A} (e : thrown) : M A := ([], Throw e).
Definition lift {A} (r : result A) : M A := ([], r).
Definition emit (ev : event) : M unit := ([ev], Return tt).

Definition bind {A B} (c : M A) (k : A -> M B) : M B :=
  match c with
  | (tr, Return a) => let '(tr', r) := k a in (tr ++ tr', r)
  | (tr, Throw e) => (tr, Throw e)
  end.

Notation "x <- c ;; k" := (bind c (fun x => k))
  (at level 61, c at next level, right associativity).
Notation "c ;;; k" := (bind c (fun _ => k))
  (at level 61, right associativity).

Definition outcome {A} (c : M A) : result A := snd c.

(** [NextRequest]: the handler only awaits [request.json()], which yields the
    parsed body or throws (a body that is not JSON). *)
Record NextRequest := { json : result jsval }.

(** [NextResponse.json(body, { status })]. *)
Record NextResponse := { status : N; body : jsval }.

Definition failure_body (error : jsstring) : jsval :=
  JObj [(js "ok", JBool false); (js "error", JStr error)].

Definition success_body (r : jsval) : jsval :=
  JObj [(js "ok", JBool true); (js "result", r)].

Definition required_message : jsstring :=
  js "platform, targetId, message, and channel are required properties.".

Definition channel_message : jsstring :=
  js "channel must be comment or message".

Definition unexpected_message : jsstring :=
  js "Unexpected error while sending response".

(** [body.channel as MetaChannel] followed by the comparison with the two
    literals: the value is one of them or the request is refused. *)
Definition as_MetaChannel (v : jsval) : option MetaChannel :=
  if strict_equals_string v (js "comment") then Some comment
  else if strict_equals_string v (js "message") then Some message
  else None.

(** [!body.platform || !body.targetId || !body.message || !body.channel],
    evaluated left to right. *)
Definition required_missing (b : jsval) : M bool :=
  p <- lift (Get b (js "platform")) ;;
  if negb (ToBoolean p) then ret true else
  t <- lift (Get b (js "targetId")) ;;
  if negb (ToBoolean t) then ret true else
  m <- lift (Get b (js "message")) ;;
  if negb (ToBoolean m) then ret true else
  c <- lift (Get b (js "channel")) ;;
  ret (negb (ToBoolean c)).

(** The four properties the handler requires. *)
Definition required_fields : list jsstring :=
  [js "platform"; js "targetId"; js "message"; js "channel"].

(** The object literal handed to [postMetaResponse]. *)
Definition request_args (b : jsval) (ch : MetaChannel) : RespondRequest.t :=
  {| RespondRequest.platform := read b (js "platform");
     RespondRequest.targetId := read b (js "targetId");
     RespondRequest.message := read b (js "message");
     RespondRequest.channel := ch;
     RespondRequest.dryRun := read b (js "dryRun");
     RespondRequest.accessToken := read b (js "accessToken");
     RespondRequest.instagramBusinessAccountId :=
       read b (js "instagramBusinessAccountId");
     RespondRequest.replyToId := read b (js "replyToId") |}.

Section Handler.

(** [postMetaResponse] of [lib/meta]: its own events and its outcome. *)
Variable postMetaResponse : RespondRequest.t -> M jsval.

(** The [try] block of [POST]. *)
Definition respond (request : NextRequest) : M NextResponse :=
  b <- lift (json request) ;;
  missing <- required_missing b ;;
  if missing then
    ret {| status := 400; body := failure_body required_message |}
  else
    c <- lift (Get b (js "channel")) ;;
    match as_MetaChannel c with
    | None => ret {| status := 400; body := failure_body channel_message |}
    | Some ch =>
        p <- lift (Get b (js "platform")) ;;
        t <- lift (Get b (js "targetId")) ;;
        m <- lift (Get b (js "message")) ;;
        d <- lift (Get b (js "dryRun")) ;;
        a <- lift (Get b (js "accessToken")) ;;
        i <- lift (Get b (js "instagramBusinessAccountId")) ;;
        r <- lift (Get b (js "replyToId")) ;;
        let args :=
          {| RespondRequest.platform := p;
             RespondRequest.targetId := t;
             RespondRequest.message := m;
             RespondRequest.channel := ch;
             RespondRequest.dryRun := d;
             RespondRequest.accessToken := a;
             RespondRequest.instagramBusinessAccountId := i;
             RespondRequest.replyToId := r |} in
        emit (PostMetaResponseCalled args) ;;;
        result <- postMetaResponse args ;;
        ret {| status := 200; body := success_body result |}
    end.

(** [error instanceof Error ? error.message : "Unexpected error ..."]. *)
Definition error_text (e : thrown) : jsstring :=
  match e with
  | ErrorObject msg => msg
  | Thrown _ => unexpected_message
  end.

(** The [catch] block. *)
Definition on_error (e : thrown) : list event * NextResponse :=
  ([ConsoleError (js "Failed to send Meta response:") e],
   {| status := 500; body := failure_body (error_text e) |}).

Definition POST (request : NextRequest) : list event * NextResponse :=
  match respond request with
  | (tr, Return response) => (tr, response)
  | (tr, Throw e) => let '(tr', response) := on_error e in (tr ++ tr', response)
  end.

End Handler.

End Route.

(** ** The Graph API helper *)

Module Meta.
Import JS Route.

Section Helper.

(** The environment variable [META_ACCESS_TOKEN], when it is set. *)
Variable META_ACCESS_TOKEN : option jsstring.

(** The fields, besides [dryRun], of the object that describes the call a
    dry run would have made; the spec leaves them open. *)
Variable describe_call : RespondRequest.t -> list (jsstring * jsval).

(** Endpoint selection from platform and channel; it fails where a business
    account ID is required and absent. *)
Variable endpoint : RespondRequest.t -> result jsstring.

(** The Graph API behind the network: the JSON body it answers with, or the
    failure of the call. *)
Variable graph_api : jsstring -> RespondRequest.t -> result jsval.

(** Modelled from the spec: section 6, [META_ACCESS_TOKEN] is the "fallback
    token when a request omits [accessToken]". *)
Definition token (args : RespondRequest.t) : jsval :=
  match RespondRequest.accessToken args with
  | JUndefined =>
      match META_ACCESS_TOKEN with Some t => JStr t | None => JUndefined end
  | t => t
  end.

(** Modelled from the spec: section 8, the result of a dry run is
    [{dryRun:true, ...}]. *)
Definition dry_run_result (args : RespondRequest.t) : jsval :=
  JObj ((js "dryRun", JBool true) :: describe_call args).

(** Modelled from the spec: [postMetaResponse] of [lib/meta] is not among the
    sources. Section 4.1: in dry-run mode, "when requested (or when no token
    is supplied), the relay returns a simulated success object describing the
    call it would have made, without any outbound network request. Otherwise
    it performs exactly one outbound call and relays the remote JSON body";
    a failure of the endpoint selection or of the call is thrown. *)
Definition postMetaResponse (args : RespondRequest.t) : M jsval :=
  if ToBoolean (RespondRequest.dryRun args) || negb (ToBoolean (token args)) then
    ret (dry_run_result args)
  else
    url <- lift (endpoint args) ;;
    emit (OutboundRequest url) ;;;
    lift (graph_api url args).

End Helper.

End Meta.

(** ** [JSON.stringify] and [JSON.parse] *)

Module JSON.
Import JS.
Local Open Scope N_scope.

(** *** Serialization *)

Definition hex_digit (d : N) : code_unit :=
  if d <? 10 then 48 + d else 87 + d.

Definition hex4 (c : code_unit) : jsstring :=
  [hex_digit (c / 4096 mod 16); hex_digit (c / 256 mod 16);
   hex_digit (c / 16 mod 16); hex_digit (c mod 16)].

(** [UnicodeEscape]: a backslash, [u] and four lowercase hexadecimal digits. *)
Definition unicode_escape (c : code_unit) : jsstring := 92 :: 117 :: hex4 c.

Definition is_high_surrogate (c : code_unit) : bool := (55296 <=? c) && (c <=? 56319).
Definition is_low_surrogate (c : code_unit) : bool := (56320 <=? c) && (c <=? 57343).

(** The two-character escapes of [QuoteJSONString]: backspace, tab, line
    feed, form feed, carriage return, the quotation mark and the backslash. *)
Definition short_escape (c : code_unit) : option code_unit :=
  if c =? 8 then Some 98
  else if c =? 9 then Some 116
  else if c =? 10 then Some 110
  else if c =? 12 then Some 102
  else if c =? 13 then Some 114
  else if c =? 34 then Some 34
  else if c =? 92 then Some 92
  else None.

(** The body of [QuoteJSONString]: control characters and lone surrogates
    are escaped, a surrogate pair is copied. *)
Fixpoint quote_chars (s : jsstring) : jsstring :=
  match s with
  | [] => []
  | c :: rest =>
      match short_escape c with
      | Some e => 92 :: e :: quote_chars rest
      | None =>
          if c <? 32 then unicode_escape c ++ quote_chars rest
          else if is_high_surrogate c then
            match rest with
            | d :: rest' =>
                if is_low_surrogate d then c :: d :: quote_chars rest'
                else unicode_escape c ++ quote_chars rest
            | [] => unicode_escape c
            end
          else if is_low_surrogate c then unicode_escape c ++ quote_chars rest
          else c :: quote_chars rest
      end
  end.

Definition QuoteJSONString (s : jsstring) : jsstring :=
  34 :: quote_chars s ++ [34].

Fixpoint join (sep : jsstring) (parts : list jsstring) : jsstring :=
  match parts with
  | [] => []
  | [p] => p
  | p :: rest => p ++ sep ++ join sep rest
  end.

Section Stringify.
Context {engine : Engine}.

(** [SerializeJSONProperty] without indentation; [None] stands for
    [undefined]: such a property is left out of an object and written
    [null] in an array. *)
Fixpoint stringify (v : jsval) : option jsstring :=
  match v with
  | JUndefined => None
  | JNull => Some (js "null")
  | JBool true => Some (js "true")
  | JBool false => Some (js "false")
  | JNum n => Some (if overflows n then js "null" else Number_toString n)
  | JStr s => Some (QuoteJSONString s)
  | JArr items =>
      Some (91 :: join [44]
                    (map (fun item =>
                            match stringify item with
                            | Some t => t
                            | None => js "null"
                            end) items)
               ++ [93])
  | JObj props =>
      Some (123 :: join [44]
                     (flat_map (fun kv =>
                                  match stringify (snd kv) with
                                  | Some t => [QuoteJSONString (fst kv) ++ 58 :: t]
                                  | None => []
                                  end) props)
                ++ [125])
  end.

End Stringify.

(** *** Parsing *)

Definition is_ws (c : code_unit) : bool :=
  (c =? 32) || (c =? 9) || (c =? 10) || (c =? 13).

Fixpoint skip_ws (s : jsstring) : jsstring :=
  match s with
  | c :: rest => if is_ws c then skip_ws rest else s
  | [] => []
  end.

Definition is_digit (c : code_unit) : bool := (48 <=? c) && (c <=? 57).

Definition hex_value (c : code_unit) : option N :=
  if is_digit c then Some (c - 48)
  else if (97 <=? c) && (c <=? 102) then Some (c - 87)
  else if (65 <=? c) && (c <=? 70) then Some (c - 55)
  else None.

(** The character an escape letter stands for. *)
Definition unescape (e : code_unit) : option code_unit :=
  if e =? 34 then Some 34
  else if e =? 92 then Some 92
  else if e =? 47 then Some 47
  else if e =? 98 then Some 8
  else if e =? 102 then Some 12
  else if e =? 110 then Some 10
  else if e =? 114 then Some 13
  else if e =? 116 then Some 9
  else None.

(** The characters of a string up to its closing quotation mark. *)
Fixpoint parse_chars (s : jsstring) : option (jsstring * jsstring) :=
  match s with
  | [] => None
  | c :: r =>
      if c =? 34 then Some ([], r)
      else if c =? 92 then
        match r with
        | [] => None
        | e :: r1 =>
            if e =? 117 then
              match r1 with
              | h1 :: h2 :: h3 :: h4 :: r2 =>
                  match hex_value h1, hex_value h2, hex_value h3, hex_value h4 with
                  | Some a, Some b, Some c', Some d =>
                      match parse_chars r2 with
                      | Some (t, rest) =>
                          Some ((a * 4096 + b * 256 + c' * 16 + d) :: t, rest)
                      | None => None
                      end
                  | _, _, _, _ => None
                  end
              | _ => None
              end
            else
              match unescape e with
              | Some u =>
                  match parse_chars r1 with
                  | Some (t, rest) => Some (u :: t, rest)
                  | None => None
                  end
              | None => None
              end
        end
      else if c <? 32 then None
      else
        match parse_chars r with
        | Some (t, rest) => Some (c :: t, rest)
        | None => None
        end
  end.

(** The longest run of decimal digits, as digit values. *)
Fixpoint span_digits (s : jsstring) : list N * jsstring :=
  match s with
  | c :: r =>
      if is_digit c then let '(ds, rest) := span_digits r in ((c - 48) :: ds, rest)
      else ([], s)
  | [] => ([], [])
  end.

Definition digits_value (ds : list N) : Z :=
  fold_left (fun acc d => (acc * 10 + Z.of_N d)%Z) ds 0%Z.

(** [-? int frac? exp?]: the integer part is [0] or starts with a nonzero
    digit, a fraction and an exponent need at least one digit. *)
Definition parse_int_part (s : jsstring) : option (list N * jsstring) :=
  match s with
  | c :: r =>
      if c =? 48 then Some ([0], r)
      else if is_digit c then Some (span_digits s)
      else None
  | [] => None
  end.

Definition parse_frac_part (s : jsstring) : option (list N * jsstring) :=
  match s with
  | c :: r =>
      if c =? 46 then
        match span_digits r with
        | ([], _) => None
        | (ds, rest) => Some (ds, rest)
        end
      else Some ([], s)
  | [] => Some ([], [])
  end.

Definition parse_exp_digits (negative : bool) (s : jsstring) : option (Z * jsstring) :=
  match span_digits s with
  | ([], _) => None
  | (ds, rest) =>
      Some (if negative then (- digits_value ds)%Z else digits_value ds, rest)
  end.

Definition parse_exp_part (s : jsstring) : option (Z * jsstring) :=
  match s with
  | c :: r =>
      if (c =? 101) || (c =? 69) then
        match r with
        | sg :: r' =>
            if sg =? 43 then parse_exp_digits false r'
            else if sg =? 45 then parse_exp_digits true r'
            else parse_exp_digits false r
        | [] => None
        end
      else Some (0%Z, s)
  | [] => Some (0%Z, [])
  end.

Definition parse_number (s : jsstring) : option (number * jsstring) :=
  let '(negative, s1) :=
    match s with
    | c :: r => if c =? 45 then (true, r) else (false, s)
    | [] => (false, [])
    end in
  match parse_int_part s1 with
  | None => None
  | Some (int_digits, s2) =>
      match parse_frac_part s2 with
      | None => None
      | Some (frac_digits, s3) =>
          match parse_exp_part s3 with
          | None => None
          | Some (e, rest) =>
              let m := digits_value (int_digits ++ frac_digits) in
              Some ({| mantissa := if negative then (- m)%Z else m;
                       exponent := (e - Z.of_nat (List.length frac_digits))%Z |},
                    rest)
          end
      end
  end.

Fixpoint strip_prefix (p s : jsstring) : option jsstring :=
  match p, s with
  | [], _ => Some s
  | x :: p', y :: s' => if x =? y then strip_prefix p' s' else None
  | _ :: _, [] => None
  end.

(** [JSON.parse] builds an object with [CreateDataProperty], member after
    member: a repeated key keeps its place and takes the later value, and
    the keys that are array indices come first. *)
Definition build_object (members : list (jsstring * jsval)) : list (jsstring * jsval) :=
  fold_left (fun props kv => set_prop (fst kv) (snd kv) props) members [].

Definition parser (A : Type) : Type := jsstring -> option (A * jsstring).

(** A value, given the parsers of what follows an opening bracket and an
    opening brace. *)
Definition value_step (elements : parser (list jsval))
  (members : parser (list (jsstring * jsval))) : parser jsval :=
  fun s =>
    match skip_ws s with
    | [] => None
    | c :: r =>
        if c =? 123 then
          match skip_ws r with
          | c' :: r' =>
              if c' =? 125 then Some (JObj [], r')
              else
                match members r with
                | Some (ms, rest) => Some (JObj (build_object ms), rest)
                | None => None
                end
          | [] => None
          end
        else if c =? 91 then
          match skip_ws r with
          | c' :: r' =>
              if c' =? 93 then Some (JArr [], r')
              else
                match elements r with
                | Some (items, rest) => Some (JArr items, rest)
                | None => None
                end
          | [] => None
          end
        else if c =? 34 then
          match parse_chars r with
          | Some (t, rest) => Some (JStr t, rest)
          | None => None
          end
        else if (c =? 45) || is_digit c then
          match parse_number (c :: r) with
          | Some (n, rest) => Some (JNum n, rest)
          | None => None
          end
        else
          match strip_prefix (js "true") (c :: r) with
          | Some rest => Some (JBool true, rest)
          | None =>
              match strip_prefix (js "false") (c :: r) with
              | Some rest => Some (JBool false, rest)
              | None =>
                  match strip_prefix (js "null") (c :: r) with
                  | Some rest => Some (JNull, rest)
                  | None => None
                  end
              end
          end
    end.

(** The elements of an array up to its closing bracket: a value, then a
    comma and more elements, or the bracket. *)
Definition elements_step (value : parser jsval) (elements : parser (list jsval))
  : parser (list jsval) :=
  fun s =>
    match value s with
    | None => None
    | Some (v, r) =>
        match skip_ws r with
        | c :: r' =>
            if c =? 44 then
              match elements r' with
              | Some (items, rest) => Some (v :: items, rest)
              | None => None
              end
            else if c =? 93 then Some ([v], r')
            else None
        | [] => None
        end
    end.

(** The members of an object up to its closing brace: a string, a colon and
    a value, then a comma and more members, or the brace. *)
Definition members_step (value : parser jsval)
  (members : parser (list (jsstring * jsval))) : parser (list (jsstring * jsval)) :=
  fun s =>
    match skip_ws s with
    | c :: r =>
        if c =? 34 then
          match parse_chars r with
          | Some (k, r1) =>
              match skip_ws r1 with
              | c1 :: r2 =>
                  if c1 =? 58 then
                    match value r2 with
                    | Some (v, r3) =>
                        match skip_ws r3 with
                        | c3 :: r4 =>
                            if c3 =? 44 then
                              match members r4 with
                              | Some (ms, rest) => Some ((k, v) :: ms, rest)
                              | None => None
                              end
                            else if c3 =? 125 then Some ([(k, v)], r4)
                            else None
                        | [] => None
                        end
                    | None => None
                    end
                  else None
              | [] => None
              end
          | None => None
          end
        else None
    | [] => None
    end.

(** Recursive descent; [fuel] bounds the number of nested calls. *)
Fixpoint parse_value (fuel : nat) (s : jsstring) {struct fuel}
  : option (jsval * jsstring) :=
  match fuel with
  | O => None
  | S fuel' => value_step (parse_elements fuel') (parse_members fuel') s
  end

with parse_elements (fuel : nat) (s : jsstring) {struct fuel}
  : option (list jsval * jsstring) :=
  match fuel with
  | O => None
  | S fuel' => elements_step (parse_value fuel') (parse_elements fuel') s
  end

with parse_members (fuel : nat) (s : jsstring) {struct fuel}
  : option (list (jsstring * jsval) * jsstring) :=
  match fuel with
  | O => None
  | S fuel' => members_step (parse_value fuel') (parse_members fuel') s
  end.

(** [JSON.parse]: one value, surrounded by white space only; [None] stands
    for the [SyntaxError]. *)
Definition parse (text : jsstring) : option jsval :=
  match parse_value (2 * List.length text + 2) text with
  | Some (v, rest) =>
      match skip_ws rest with
      | [] => Some v
      | _ :: _ => None
      end
  | None => None
  end.

(** A parser that leaves strictly less than it was given. *)
Definition consumes {A} (p : parser A) : Prop :=
  forall s a rest, p s = Some (a, rest) -> (List.length rest < List.length s)%nat.

(** [q] succeeds wherever [p] does, on the inputs shorter than [n]. *)
Definition extends_below {A} (n : nat) (p q : parser A) : Prop :=
  forall s x, (List.length s < n)%nat -> p s = Some x -> q s = Some x.

Fixpoint distinct (keys : list jsstring) : bool :=
  match keys with
  | [] => true
  | k :: rest => negb (existsb (str_eqb k) rest) && distinct rest
  end.

(** The values [JSON.stringify] writes without loss: no [undefined], no
    number, and objects whose keys are distinct and in the order of the
    engine. *)
Fixpoint plain (v : jsval) : bool :=
  match v with
  | JUndefined | JNum _ => false
  | JNull | JBool _ | JStr _ => true
  | JArr items => forallb plain items
  | JObj props =>
      forallb (fun kv => plain (snd kv)) props
      && (distinct (map fst props) && ordered (map fst props))
  end.

Section Written.
Context {engine : Engine}.

(** What [stringify] writes for an element of an array and for a member of
    an object. *)
Definition element_text (v : jsval) : jsstring :=
  match stringify v with
  | Some t => t
  | None => js "null"
  end.

Definition member_text (kv : jsstring * jsval) : jsstring :=
  QuoteJSONString (fst kv) ++ 58 :: element_text (snd kv).

(** The first character of a written value: not white space, and neither
    closing bracket. *)
Definition opens_value (t : jsstring) : Prop :=
  exists c t', t = c :: t' /\ is_ws c = false /\ (c =? 93) = false /\ (c =? 125) = false.

(** [v] is written, and what is written is read back as [v], whatever
    follows. *)
Definition reads_back (v : jsval) : Prop :=
  exists t,
    stringify v = Some t /\ opens_value t /\
    exists fuel, forall rest, parse_value fuel (t ++ rest) = Some (v, rest).

End Written.

End JSON.

(** ** The dashboard page [Home] *)

Module Page.
Import JS.

Inductive Platform := facebook | instagram.

(** ["all" | Platform] *)
Inductive PlatformFilter := all_platforms | only (p : Platform).

Inductive MessageStatus := unread | responded | snoozed.

(** ["all" | "unread" | "responded" | "snoozed"] *)
Inductive StatusFilter := all_statuses | having (st : MessageStatus).

Inductive MessageType := comment | message.

Inductive Channel := to_comment | to_message.

Inductive AutomationStatus := active | paused.

Inductive Outcome := scheduled | sent | error.

Definition Platform_text (p : Platform) : jsstring :=
  match p with facebook => js "facebook" | instagram => js "instagram" end.

Definition PlatformFilter_text (p : PlatformFilter) : jsstring :=
  match p with all_platforms => js "all" | only q => Platform_text q end.

Definition MessageType_text (t : MessageType) : jsstring :=
  match t with comment => js "comment" | message => js "message" end.

Definition Channel_text (c : Channel) : jsstring :=
  match c with to_comment => js "comment" | to_message => js "message" end.

Definition AutomationStatus_text (st : AutomationStatus) : jsstring :=
  match st with active => js "active" | paused => js "paused" end.

Definition Platform_eqb (a b : Platform) : bool :=
  match a, b with
  | facebook, facebook | instagram, instagram => true
  | _, _ => false
  end.

Definition MessageStatus_eqb (a b : MessageStatus) : bool :=
  match a, b with
  | unread, unread | responded, responded | snoozed, snoozed => true
  | _, _ => false
  end.

Module SocialMessage.
(** Modelled from the spec: the type [SocialMessage] is declared in
    [data/sampleMessages], which is not among the sources. The record has
    the properties the page reads, with the types section 3 of the spec
    gives them. *)
Record t := mk {
  id : jsstring;
  platform : Platform;
  type : MessageType;
  author : jsstring;
  snippet : jsstring;
  timestamp : jsstring;
  status : MessageStatus;
  intent : option jsstring;
  avatar : jsstring;
  permalink : option jsstring
}.
End SocialMessage.

Module AutomationRule.
Record t := mk {
  id : jsstring;
  name : jsstring;
  platform : PlatformFilter;
  channel : Channel;
  trigger : jsstring;
  response : jsstring;
  status : AutomationStatus
}.
End AutomationRule.

(** [Omit<AutomationRule, "id" | "status">], the form of a new rule. *)
Module Draft.
Record t := mk {
  name : jsstring;
  platform : PlatformFilter;
  channel : Channel;
  trigger : jsstring;
  response : jsstring
}.
End Draft.

Module ActivityEntry.
Record t := mk {
  id : jsstring;
  messageId : jsstring;
  platform : Platform;
  summary : jsstring;
  timestamp : jsstring;
  outcome : Outcome;
  meta : option jsval
}.
End ActivityEntry.

Module AccountCredentials.
Record t := mk {
  facebookPageId : jsstring;
  facebookToken : jsstring;
  instagramBusinessId : jsstring;
  instagramToken : jsstring;
  webhookUrl : jsstring
}.
Inductive key :=
| key_facebookPageId | key_facebookToken | key_instagramBusinessId
| key_instagramToken | key_webhookUrl.
End AccountCredentials.

Definition initialAutomations : list AutomationRule.t :=
  [ {| AutomationRule.id := js "auto-lead";
       AutomationRule.name := js "Lead capture (comments)";
       AutomationRule.platform := all_platforms;
       AutomationRule.channel := to_comment;
       AutomationRule.trigger := js "contains 'pricing' OR 'cost'";
       AutomationRule.response :=
         js "Thanks for your interest! I just sent you a DM with pricing and onboarding details. "
         ++ [55357; 56960]%N;
       AutomationRule.status := active |};
    {| AutomationRule.id := js "auto-support";
       AutomationRule.name := js "Support escalation (DM)";
       AutomationRule.platform := only facebook;
       AutomationRule.channel := to_message;
       AutomationRule.trigger := js "contains 'help' OR 'issue'";
       AutomationRule.response :=
         js "I" ++ [8217]%N
         ++ js "m looping in our support team now. Could you share the email tied to your account so we can investigate?";
       AutomationRule.status := active |} ].

Definition defaultCredentials : AccountCredentials.t :=
  {| AccountCredentials.facebookPageId := [];
     AccountCredentials.facebookToken := [];
     AccountCredentials.instagramBusinessId := [];
     AccountCredentials.instagramToken := [];
     AccountCredentials.webhookUrl := [] |}.

Definition emptyDraft : Draft.t :=
  {| Draft.name := [];
     Draft.platform := all_platforms;
     Draft.channel := to_comment;
     Draft.trigger := [];
     Draft.response := [] |}.

Definition getChannelFromMessage (m : SocialMessage.t) : Channel :=
  match SocialMessage.type m with
  | comment => to_comment
  | message => to_message
  end.

(** The state hooks of [Home]. *)
Record State := {
  messages : list SocialMessage.t;
  selectedMessageId : option jsstring;
  platformFilter : PlatformFilter;
  statusFilter : StatusFilter;
  searchTerm : jsstring;
  automations : list AutomationRule.t;
  newAutomation : Draft.t;
  automationStatus : AutomationStatus;
  activityLog : list ActivityEntry.t;
  credentials : AccountCredentials.t;
  composerValue : jsstring;
  isSending : bool;
  composerFeedback : option jsstring;
  automationFeedback : option jsstring
}.

(** The first render: [useState] with its initial values. *)
Definition initialState (sampleMessages : list SocialMessage.t) : State :=
  {| messages := sampleMessages;
     selectedMessageId :=
       match sampleMessages with
       | m :: _ => Some (SocialMessage.id m)
       | [] => None
       end;
     platformFilter := all_platforms;
     statusFilter := all_statuses;
     searchTerm := [];
     automations := initialAutomations;
     newAutomation := emptyDraft;
     automationStatus := active;
     activityLog := [];
     credentials := defaultCredentials;
     composerValue := [];
     isSending := false;
     composerFeedback := None;
     automationFeedback := None |}.

(** The setters, in their updater form where the page uses it. *)
Definition setMessages (f : list SocialMessage.t -> list SocialMessage.t) (s : State) : State :=
  {| messages := f (messages s); selectedMessageId := selectedMessageId s;
     platformFilter := platformFilter s; statusFilter := statusFilter s;
     searchTerm := searchTerm s; automations := automations s;
     newAutomation := newAutomation s; automationStatus := automationStatus s;
     activityLog := activityLog s; credentials := credentials s;
     composerValue := composerValue s; isSending := isSending s;
     composerFeedback := composerFeedback s;
     automationFeedback := automationFeedback s |}.

Definition setSelectedMessageId (v : option jsstring) (s : State) : State :=
  {| messages := messages s; selectedMessageId := v;
     platformFilter := platformFilter s; statusFilter := statusFilter s;
     searchTerm := searchTerm s; automations := automations s;
     newAutomation := newAutomation s; automationStatus := automationStatus s;
     activityLog := activityLog s; credentials := credentials s;
     composerValue := composerValue s; isSending := isSending s;
     composerFeedback := composerFeedback s;
     automationFeedback := automationFeedback s |}.

Definition setPlatformFilter (v : PlatformFilter) (s : State) : State :=
  {| messages := messages s; selectedMessageId := selectedMessageId s;
     platformFilter := v; statusFilter := statusFilter s;
     searchTerm := searchTerm s; automations := automations s;
     newAutomation := newAutomation s; automationStatus := automationStatus s;
     activityLog := activityLog s; credentials := credentials s;
     composerValue := composerValue s; isSending := isSending s;
     composerFeedback := composerFeedback s;
     automationFeedback := automationFeedback s |}.

Definition setStatusFilter (v : StatusFilter) (s : State) : State :=
  {| messages := messages s; selectedMessageId := selectedMessageId s;
     platformFilter := platformFilter s; statusFilter := v;
     searchTerm := searchTerm s; automations := automations s;
     newAutomation := newAutomation s; automationStatus := automationStatus s;
     activityLog := activityLog s; credentials := credentials s;
     composerValue := composerValue s; isSending := isSending s;
     composerFeedback := composerFeedback s;
     automationFeedback := automationFeedback s |}.

Definition setSearchTerm (v : jsstring) (s : State) : State :=
  {| messages := messages s; selectedMessageId := selectedMessageId s;
     platformFilter := platformFilter s; statusFilter := statusFilter s;
     searchTerm := v; automations := automations s;
     newAutomation := newAutomation s; automationStatus := automationStatus s;
     activityLog := activityLog s; credentials := credentials s;
     composerValue := composerValue s; isSending := isSending s;
     composerFeedback := composerFeedback s;
     automationFeedback := automationFeedback s |}.

Definition setAutomations (f : list AutomationRule.t -> list AutomationRule.t) (s : State) : State :=
  {| messages := messages s; selectedMessageId := selectedMessageId s;
     platformFilter := platformFilter s; statusFilter := statusFilter s;
     searchTerm := searchTerm s; automations := f (automations s);
     newAutomation := newAutomation s; automationStatus := automationStatus s;
     activityLog := activityLog s; credentials := credentials s;
     composerValue := composerValue s; isSending := isSending s;
     composerFeedback := composerFeedback s;
     automationFeedback := automationFeedback s |}.

Definition setNewAutomation (f : Draft.t -> Draft.t) (s : State) : State :=
  {| messages := messages s; selectedMessageId := selectedMessageId s;
     platformFilter := platformFilter s; statusFilter := statusFilter s;
     searchTerm := searchTerm s; automations := automations s;
     newAutomation := f (newAutomation s); automationStatus := automationStatus s;
     activityLog := activityLog s; credentials := credentials s;
     composerValue := composerValue s; isSending := isSending s;
     composerFeedback := composerFeedback s;
     automationFeedback := automationFeedback s |}.

Definition setAutomationStatus (v : AutomationStatus) (s : State) : State :=
  {| messages := messages s; selectedMessageId := selectedMessageId s;
     platformFilter := platformFilter s; statusFilter := statusFilter s;
     searchTerm := searchTerm s; automations := automations s;
     newAutomation := newAutomation s; automationStatus := v;
     activityLog := activityLog s; credentials := credentials s;
     composerValue := composerValue s; isSending := isSending s;
     composerFeedback := composerFeedback s;
     automationFeedback := automationFeedback s |}.

Definition setActivityLog (f : list ActivityEntry.t -> list ActivityEntry.t) (s : State) : State :=
  {| messages := messages s; selectedMessageId := selectedMessageId s;
     platformFilter := platformFilter s; statusFilter := statusFilter s;
     searchTerm := searchTerm s; automations := automations s;
     newAutomation := newAutomation s; automationStatus := automationStatus s;
     activityLog := f (activityLog s); credentials := credentials s;
     composerValue := composerValue s; isSending := isSending s;
     composerFeedback := composerFeedback s;
     automationFeedback := automationFeedback s |}.

Definition setCredentials (f : AccountCredentials.t -> AccountCredentials.t) (s : State) : State :=
  {| messages := messages s; selectedMessageId := selectedMessageId s;
     platformFilter := platformFilter s; statusFilter := statusFilter s;
     searchTerm := searchTerm s; automations := automations s;
     newAutomation := newAutomation s; automationStatus := automationStatus s;
     activityLog := activityLog s; credentials := f (credentials s);
     composerValue := composerValue s; isSending := isSending s;
     composerFeedback := composerFeedback s;
     automationFeedback := automationFeedback s |}.

Definition setComposerValue (v : jsstring) (s : State) : State :=
  {| messages := messages s; selectedMessageId := selectedMessageId s;
     platformFilter := platformFilter s; statusFilter := statusFilter s;
     searchTerm := searchTerm s; automations := automations s;
     newAutomation := newAutomation s; automationStatus := automationStatus s;
     activityLog := activityLog s; credentials := credentials s;
     composerValue := v; isSending := isSending s;
     composerFeedback := composerFeedback s;
     automationFeedback := automationFeedback s |}.

Definition setIsSending (v : bool) (s : State) : State :=
  {| messages := messages s; selectedMessageId := selectedMessageId s;
     platformFilter := platformFilter s; statusFilter := statusFilter s;
     searchTerm := searchTerm s; automations := automations s;
     newAutomation := newAutomation s; automationStatus := automationStatus s;
     activityLog := activityLog s; credentials := credentials s;
     composerValue := composerValue s; isSending := v;
     composerFeedback := composerFeedback s;
     automationFeedback := automationFeedback s |}.

Definition setComposerFeedback (v : option jsstring) (s : State) : State :=
  {| messages := messages s; selectedMessageId := selectedMessageId s;
     platformFilter := platformFilter s; statusFilter := statusFilter s;
     searchTerm := searchTerm s; automations := automations s;
     newAutomation := newAutomation s; automationStatus := automationStatus s;
     activityLog := activityLog s; credentials := credentials s;
     composerValue := composerValue s; isSending := isSending s;
     composerFeedback := v;
     automationFeedback := automationFeedback s |}.

Definition setAutomationFeedback (v : option jsstring) (s : State) : State :=
  {| messages := messages s; selectedMessageId := selectedMessageId s;
     platformFilter := platformFilter s; statusFilter := statusFilter s;
     searchTerm := searchTerm s; automations := automations s;
     newAutomation := newAutomation s; automationStatus := automationStatus s;
     activityLog := activityLog s; credentials := credentials s;
     composerValue := composerValue s; isSending := isSending s;
     composerFeedback := composerFeedback s;
     automationFeedback := v |}.

(** *** Automation rules *)

Definition automation_required_feedback : jsstring :=
  js "Please provide a name, trigger, and response for the automation.".

Definition automation_created_feedback (name : jsstring) : jsstring :=
  js "Automation " ++ [34%N] ++ name ++ [34%N] ++ js " created.".

(** [{ id: `automation-${Date.now()}`, status: automationStatus,
    ...newAutomation }] *)
Definition new_rule (now : Z) (st : AutomationStatus) (d : Draft.t) : AutomationRule.t :=
  {| AutomationRule.id := js "automation-" ++ decimal now;
     AutomationRule.status := st;
     AutomationRule.name := Draft.name d;
     AutomationRule.platform := Draft.platform d;
     AutomationRule.channel := Draft.channel d;
     AutomationRule.trigger := Draft.trigger d;
     AutomationRule.response := Draft.response d |}.

Definition addAutomation (now : Z) (s : State) : State :=
  let d := newAutomation s in
  if is_empty (Draft.name d) || is_empty (Draft.trigger d) || is_empty (Draft.response d)
  then setAutomationFeedback (Some automation_required_feedback) s
  else
    let rule := new_rule now (automationStatus s) d in
    setAutomationFeedback (Some (automation_created_feedback (AutomationRule.name rule)))
      (setNewAutomation (fun _ => emptyDraft)
         (setAutomations (fun prev => rule :: prev) s)).

Definition toggled (rule : AutomationRule.t) : AutomationRule.t :=
  {| AutomationRule.id := AutomationRule.id rule;
     AutomationRule.name := AutomationRule.name rule;
     AutomationRule.platform := AutomationRule.platform rule;
     AutomationRule.channel := AutomationRule.channel rule;
     AutomationRule.trigger := AutomationRule.trigger rule;
     AutomationRule.response := AutomationRule.response rule;
     AutomationRule.status :=
       match AutomationRule.status rule with active => paused | paused => active end |}.

Definition toggleAutomationStatus (id : jsstring) (s : State) : State :=
  setAutomations
    (map (fun rule => if str_eqb (AutomationRule.id rule) id then toggled rule else rule))
    s.

Definition deleteAutomation (id : jsstring) (s : State) : State :=
  setAutomations (filter (fun rule => negb (str_eqb (AutomationRule.id rule) id))) s.

(** The [onChange] handlers of the form: [{ ...prev, name: value }] and the
    like. *)
Definition with_name (v : jsstring) (d : Draft.t) : Draft.t :=
  {| Draft.name := v; Draft.platform := Draft.platform d;
     Draft.channel := Draft.channel d; Draft.trigger := Draft.trigger d;
     Draft.response := Draft.response d |}.

Definition with_trigger (v : jsstring) (d : Draft.t) : Draft.t :=
  {| Draft.name := Draft.name d; Draft.platform := Draft.platform d;
     Draft.channel := Draft.channel d; Draft.trigger := v;
     Draft.response := Draft.response d |}.

Definition with_platform (v : PlatformFilter) (d : Draft.t) : Draft.t :=
  {| Draft.name := Draft.name d; Draft.platform := v;
     Draft.channel := Draft.channel d; Draft.trigger := Draft.trigger d;
     Draft.response := Draft.response d |}.

Definition with_channel (v : Channel) (d : Draft.t) : Draft.t :=
  {| Draft.name := Draft.name d; Draft.platform := Draft.platform d;
     Draft.channel := v; Draft.trigger := Draft.trigger d;
     Draft.response := Draft.response d |}.

Definition with_response (v : jsstring) (d : Draft.t) : Draft.t :=
  {| Draft.name := Draft.name d; Draft.platform := Draft.platform d;
     Draft.channel := Draft.channel d; Draft.trigger := Draft.trigger d;
     Draft.response := v |}.

(** [{ ...prev, [key]: value }] *)
Definition with_credential (k : AccountCredentials.key) (v : jsstring)
  (c : AccountCredentials.t) : AccountCredentials.t :=
  {| AccountCredentials.facebookPageId :=
       match k with
       | AccountCredentials.key_facebookPageId => v
       | _ => AccountCredentials.facebookPageId c
       end;
     AccountCredentials.facebookToken :=
       match k with
       | AccountCredentials.key_facebookToken => v
       | _ => AccountCredentials.facebookToken c
       end;
     AccountCredentials.instagramBusinessId :=
       match k with
       | AccountCredentials.key_instagramBusinessId => v
       | _ => AccountCredentials.instagramBusinessId c
       end;
     AccountCredentials.instagramToken :=
       match k with
       | AccountCredentials.key_instagramToken => v
       | _ => AccountCredentials.instagramToken c
       end;
     AccountCredentials.webhookUrl :=
       match k with
       | AccountCredentials.key_webhookUrl => v
       | _ => AccountCredentials.webhookUrl c
       end |}.

Definition handleCredentialChange (k : AccountCredentials.key) (v : jsstring)
  (s : State) : State :=
  setCredentials (with_credential k v) s.

(** *** The rule list as a JSON document *)

(** The properties of a rule object. An object keeps its properties in the
    order it got them, the order of the interface for the initial rules, [id]
    and [status] first for the rules [addAutomation] builds, and
    [JSON.stringify] follows it. The record does not keep that order:
    [rule_props] lists the properties in the order of the interface, and
    [rule_of_js] below reads them in any order. *)
Definition rule_props (r : AutomationRule.t) : list (jsstring * jsval) :=
  [(js "id", JStr (AutomationRule.id r));
   (js "name", JStr (AutomationRule.name r));
   (js "platform", JStr (PlatformFilter_text (AutomationRule.platform r)));
   (js "channel", JStr (Channel_text (AutomationRule.channel r)));
   (js "trigger", JStr (AutomationRule.trigger r));
   (js "response", JStr (AutomationRule.response r));
   (js "status", JStr (AutomationStatus_text (AutomationRule.status r)))].

Definition rule_to_js (r : AutomationRule.t) : jsval := JObj (rule_props r).

Definition rules_to_js (rs : list AutomationRule.t) : jsval :=
  JArr (map rule_to_js rs).

(** An object that holds the properties of [r], in some order. *)
Definition holds_rule (r : AutomationRule.t) (o : jsval) : Prop :=
  exists props, o = JObj props /\ Permutation (rule_props r) props.

Definition string_prop (props : list (jsstring * jsval)) (key : jsstring) : option jsstring :=
  match lookup key props with
  | Some (JStr t) => Some t
  | _ => None
  end.

Definition PlatformFilter_of_text (t : jsstring) : option PlatformFilter :=
  if str_eqb t (js "all") then Some all_platforms
  else if str_eqb t (js "facebook") then Some (only facebook)
  else if str_eqb t (js "instagram") then Some (only instagram)
  else None.

Definition Channel_of_text (t : jsstring) : option Channel :=
  if str_eqb t (js "comment") then Some to_comment
  else if str_eqb t (js "message") then Some to_message
  else None.

Definition AutomationStatus_of_text (t : jsstring) : option AutomationStatus :=
  if str_eqb t (js "active") then Some active
  else if str_eqb t (js "paused") then Some paused
  else None.

Definition obind {A B} (o : option A) (k : A -> option B) : option B :=
  match o with Some a => k a | None => None end.

(** The values [JSON.parse(...) as AutomationRule[]] is sound for: an
    object with exactly the seven properties of the interface, in any order,
    each a string of its type. *)
Definition rule_of_js (v : jsval) : option AutomationRule.t :=
  match v with
  | JObj props =>
      if Nat.eqb (List.length props) 7 then
        obind (string_prop props (js "id")) (fun id =>
        obind (string_prop props (js "name")) (fun name =>
        obind (obind (string_prop props (js "platform")) PlatformFilter_of_text) (fun platform =>
        obind (obind (string_prop props (js "channel")) Channel_of_text) (fun channel =>
        obind (string_prop props (js "trigger")) (fun trigger =>
        obind (string_prop props (js "response")) (fun response =>
        obind (obind (string_prop props (js "status")) AutomationStatus_of_text) (fun status =>
        Some {| AutomationRule.id := id;
                AutomationRule.name := name;
                AutomationRule.platform := platform;
                AutomationRule.channel := channel;
                AutomationRule.trigger := trigger;
                AutomationRule.response := response;
                AutomationRule.status := status |})))))))
      else None
  | _ => None
  end.

Fixpoint all_rules (items : list jsval) : option (list AutomationRule.t) :=
  match items with
  | [] => Some []
  | v :: rest =>
      obind (rule_of_js v) (fun r =>
      obind (all_rules rest) (fun rs => Some (r :: rs)))
  end.

Definition rules_of_js (v : jsval) : option (list AutomationRule.t) :=
  match v with
  | JArr items => all_rules items
  | _ => None
  end.

(** *** Local storage *)

Definition Storage := list (jsstring * jsstring).

Fixpoint getItem (key : jsstring) (st : Storage) : option jsstring :=
  match st with
  | [] => None
  | (k, v) :: rest => if str_eqb key k then Some v else getItem key rest
  end.

Fixpoint setItem (key value : jsstring) (st : Storage) : Storage :=
  match st with
  | [] => [(key, value)]
  | (k, v) :: rest =>
      if str_eqb key k then (k, value) :: rest else (k, v) :: setItem key value rest
  end.

Definition storage_key : jsstring := js "agentic-automations-v1".

(** What the first effect does with the stored text: nothing, or
    [setAutomations(parsed)]; [parsed] is a rule list or, the cast being
    unchecked, any other JSON value. *)
Inductive loaded :=
| Keep
| SetRules (rules : list AutomationRule.t)
| SetUntyped (parsed : jsval).

Definition load_effect (st : Storage) : loaded :=
  match getItem storage_key st with
  | None => Keep
  | Some storedAutomations =>
      if is_empty storedAutomations then Keep
      else
        match JSON.parse storedAutomations with
        | None => Keep
        | Some parsed =>
            match rules_of_js parsed with
            | Some rules => SetRules rules
            | None => SetUntyped parsed
            end
        end
  end.

(** *** The reply composer *)

Definition selectedMessage (s : State) : option SocialMessage.t :=
  find (fun m =>
          match selectedMessageId s with
          | Some id => str_eqb (SocialMessage.id m) id
          | None => false
          end)
       (messages s).

(** [{ ...message, status: "responded" }] *)
Definition as_responded (m : SocialMessage.t) : SocialMessage.t :=
  {| SocialMessage.id := SocialMessage.id m;
     SocialMessage.platform := SocialMessage.platform m;
     SocialMessage.type := SocialMessage.type m;
     SocialMessage.author := SocialMessage.author m;
     SocialMessage.snippet := SocialMessage.snippet m;
     SocialMessage.timestamp := SocialMessage.timestamp m;
     SocialMessage.status := responded;
     SocialMessage.intent := SocialMessage.intent m;
     SocialMessage.avatar := SocialMessage.avatar m;
     SocialMessage.permalink := SocialMessage.permalink m |}.

Definition mark_responded (sel : SocialMessage.t) (prev : list SocialMessage.t)
  : list SocialMessage.t :=
  map (fun m =>
         if str_eqb (SocialMessage.id m) (SocialMessage.id sel)
         then as_responded m else m)
      prev.

(** The object handed to [JSON.stringify] as the body of the request. *)
Definition payload (sel : SocialMessage.t) (reply : jsstring)
  (c : AccountCredentials.t) : jsval :=
  JObj [(js "platform", JStr (Platform_text (SocialMessage.platform sel)));
        (js "targetId", JStr (SocialMessage.id sel));
        (js "message", JStr reply);
        (js "channel", JStr (Channel_text (getChannelFromMessage sel)));
        (js "dryRun", JBool true);
        (js "instagramBusinessAccountId",
          match SocialMessage.platform sel with
          | instagram => JStr (AccountCredentials.instagramBusinessId c)
          | facebook => JUndefined
          end);
        (js "accessToken",
          match SocialMessage.platform sel with
          | facebook => JStr (AccountCredentials.facebookToken c)
          | instagram => JStr (AccountCredentials.instagramToken c)
          end)].

(** [fetch(url, { method, headers, body })] *)
Record FetchRequest := {
  url : jsstring;
  method : jsstring;
  headers : list (jsstring * jsstring);
  body : jsstring
}.

(** The [Response] of [fetch]: its status and what [response.json()]
    yields, the parsed body or a throw. *)
Module Response.
Record t := mk { status : N; json : result jsval }.
Definition ok (r : t) : bool := (200 <=? status r)%N && (status r <=? 299)%N.
End Response.

(** How [await fetch(...)] ends. *)
Inductive fetched :=
| Rejected (e : thrown)
| Fulfilled (response : Response.t).

Definition rejected_default : jsstring :=
  js "Meta API rejected the request. Double-check credentials.".

Definition simulated_feedback : jsstring :=
  js "Reply simulated successfully (dry run). Provide a Meta token to send for real.".

Definition dispatched_feedback : jsstring := js "Reply dispatched successfully.".

(** [data.result?.dryRun] *)
Definition result_dryRun (data : jsval) : jsval :=
  let r := read data (js "result") in
  if nullish r then JUndefined else read r (js "dryRun").

(** [data.result ?? undefined], as the optional property [meta]. *)
Definition result_meta (data : jsval) : option jsval :=
  let r := read data (js "result") in
  if nullish r then None else Some r.

Section WithEngine.
Context {engine : Engine}.

(** [ToString] of a JSON value: an array joins its elements, an object is
    ["[object Object]"] unless an own property hides [toString], in which
    case the conversion throws. *)
Fixpoint ToString (v : jsval) : result jsstring :=
  match v with
  | JUndefined => Return (js "undefined")
  | JNull => Return (js "null")
  | JBool true => Return (js "true")
  | JBool false => Return (js "false")
  | JNum n => Return (Number_toString n)
  | JStr s => Return s
  | JArr items =>
      (fix join_items (l : list jsval) : result jsstring :=
         match l with
         | [] => Return []
         | x :: rest =>
             rbind (if nullish x then Return [] else ToString x) (fun t =>
             match rest with
             | [] => Return t
             | _ :: _ => rbind (join_items rest) (fun u => Return (t ++ 44%N :: u))
             end)
         end) items
  | JObj props =>
      match lookup (js "toString") props with
      | Some _ => Throw (ErrorObject (js "Cannot convert object to primitive value"))
      | None => Return (js "[object Object]")
      end
  end.

Definition stringify_or_undefined (v : jsval) : jsstring :=
  match JSON.stringify v with
  | Some t => t
  | None => js "undefined"
  end.

(** The second effect: [localStorage.setItem(key, JSON.stringify(automations))]. *)
Definition persist_effect (rules : list AutomationRule.t) (st : Storage) : Storage :=
  setItem storage_key (stringify_or_undefined (rules_to_js rules)) st.

Definition request_of (sel : SocialMessage.t) (reply : jsstring)
  (c : AccountCredentials.t) : FetchRequest :=
  {| url := js "/api/respond";
     method := js "POST";
     headers := [(js "Content-Type", js "application/json")];
     body := stringify_or_undefined (payload sel reply c) |}.

(** The [try] block up to the test of the answer: it yields [data] or
    throws. *)
Definition dispatch_result (f : fetched) : result jsval :=
  match f with
  | Rejected e => Throw e
  | Fulfilled response =>
      rbind (Response.json response) (fun data =>
      rbind (if negb (Response.ok response) then Return true
             else rbind (Get data (js "ok")) (fun v => Return (negb (ToBoolean v))))
            (fun failed =>
      if failed : bool then
        rbind (if ToBoolean data then Get data (js "error") else Return data)
              (fun reported =>
        rbind (ToString (if ToBoolean reported then reported else JStr rejected_default))
              (fun text => Throw (ErrorObject text)))
      else Return data))
  end.

Definition sent_entry (sel : SocialMessage.t) (data : jsval) (now : Z) (iso : jsstring)
  : ActivityEntry.t :=
  {| ActivityEntry.id := js "log-" ++ decimal now;
     ActivityEntry.platform := SocialMessage.platform sel;
     ActivityEntry.messageId := SocialMessage.id sel;
     ActivityEntry.summary :=
       js "Sent " ++ Platform_text (SocialMessage.platform sel) ++ js " "
       ++ MessageType_text (SocialMessage.type sel) ++ js " reply";
     ActivityEntry.timestamp := iso;
     ActivityEntry.outcome :=
       if ToBoolean (result_dryRun data) then scheduled else sent;
     ActivityEntry.meta := result_meta data |}.

Definition error_entry (sel : SocialMessage.t) (e : thrown) (now : Z) (iso : jsstring)
  : ActivityEntry.t :=
  {| ActivityEntry.id := js "log-error-" ++ decimal now;
     ActivityEntry.platform := SocialMessage.platform sel;
     ActivityEntry.messageId := SocialMessage.id sel;
     ActivityEntry.summary :=
       js "Failed to reply: "
       ++ match e with
          | ErrorObject msg => msg
          | Thrown _ => js "Unknown error"
          end;
     ActivityEntry.timestamp := iso;
     ActivityEntry.outcome := error;
     ActivityEntry.meta := None |}.

(** [handleSendReply] up to the [await]: nothing without a selected message;
    otherwise the two setters and the request, with the selected message and
    the credentials of this render. *)
Definition handleSendReply_begin (reply : jsstring) (s : State)
  : State * option (SocialMessage.t * FetchRequest) :=
  match selectedMessage s with
  | None => (s, None)
  | Some sel =>
      (setComposerFeedback None (setIsSending true s),
       Some (sel, request_of sel reply (credentials s)))
  end.

(** [handleSendReply] from the answer on: the rest of the [try] block or the
    [catch] block, then [finally]. *)
Definition handleSendReply_settle (sel : SocialMessage.t) (f : fetched)
  (now : Z) (iso : jsstring) (s : State) : State :=
  setIsSending false
    match dispatch_result f with
    | Return data =>
        setComposerFeedback
          (Some (if ToBoolean (result_dryRun data)
                 then simulated_feedback else dispatched_feedback))
          (setComposerValue []
             (setActivityLog (fun prev => sent_entry sel data now iso :: prev)
                (setMessages (mark_responded sel) s)))
    | Throw e =>
        setComposerFeedback
          (Some match e with
                | ErrorObject msg => msg
                | Thrown _ => js "Unexpected error while sending reply."
                end)
          (setActivityLog (fun prev => error_entry sel e now iso :: prev) s)
    end.

(** One click on the send button, with the network as a function of the
    request. *)
Definition handleSendReply (reply : jsstring) (network : FetchRequest -> fetched)
  (now : Z) (iso : jsstring) (s : State) : State :=
  match handleSendReply_begin reply s with
  | (s1, None) => s1
  | (s1, Some (sel, request)) => handleSendReply_settle sel (network request) now iso s1
  end.

(** *** The inbox *)

Definition filteredMessages (s : State) : list SocialMessage.t :=
  filter (fun m =>
            let platformMatch :=
              match platformFilter s with
              | all_platforms => true
              | only p => Platform_eqb (SocialMessage.platform m) p
              end in
            let statusMatch :=
              match statusFilter s with
              | all_statuses => true
              | having st => MessageStatus_eqb (SocialMessage.status m) st
              end in
            let searchMatch :=
              is_empty (searchTerm s)
              || includes (toLowerCase (SocialMessage.author m)) (toLowerCase (searchTerm s))
              || includes (toLowerCase (SocialMessage.snippet m)) (toLowerCase (searchTerm s)) in
            platformMatch && statusMatch && searchMatch)
         (messages s).

(** The effect that selects the first listed message when none is selected. *)
Definition select_first_effect (s : State) : State :=
  match selectedMessage s, filteredMessages s with
  | None, m :: _ => setSelectedMessageId (Some (SocialMessage.id m)) s
  | _, _ => s
  end.

(** *** The page and its storage *)

Record World := { state : State; localStorage : Storage }.

(** What React takes as a child, as the page gives it [rule.name] and the
    like: a string or a number is shown, a boolean, [null] and [undefined]
    are skipped, an array is a list of children, and any other object makes
    the render throw. *)
Fixpoint renders_as_child (v : jsval) : bool :=
  match v with
  | JObj _ => false
  | JArr items => forallb renders_as_child items
  | _ => true
  end.

(** [key={rule.id}]: a key that is not [undefined] is converted to a
    string. *)
Definition renders_as_key (v : jsval) : bool :=
  match v with
  | JUndefined => true
  | _ => match ToString v with Return _ => true | Throw _ => false end
  end.

(** The callback of [automations.map] in the render, on a value that is not
    a rule: it reads properties of [rule], which throws on [null], and gives
    five of them to React. *)
Definition renders_rule (rule : jsval) : bool :=
  negb (nullish rule)
  && renders_as_key (read rule (js "id"))
  && renders_as_child (read rule (js "name"))
  && renders_as_child (read rule (js "status"))
  && renders_as_child (read rule (js "trigger"))
  && renders_as_child (read rule (js "response")).

(** The render of a page whose [automations] is [parsed]: [automations.map]
    exists on an array only. *)
Definition renders (parsed : jsval) : bool :=
  match parsed with
  | JArr items => forallb renders_rule items
  | _ => false
  end.

(** Mounting the page: the first render, then the two effects, once each
    and in the order they are declared (the second one still sees the
    initial rules), then the render the first effect asked for and the
    second effect again. [inr parsed] is a page whose rule list is not a
    rule list: when its render throws, nothing is committed and the second
    effect does not run again. *)
Definition mount (sampleMessages : list SocialMessage.t) (st : Storage)
  : (State + jsval) * Storage :=
  let s0 := initialState sampleMessages in
  let st1 := persist_effect (automations s0) st in
  match load_effect st with
  | Keep => (inl (select_first_effect s0), st1)
  | SetRules rules =>
      (inl (select_first_effect (setAutomations (fun _ => rules) s0)),
       persist_effect rules st1)
  | SetUntyped parsed =>
      (inr parsed,
       if renders parsed
       then setItem storage_key (stringify_or_undefined parsed) st1
       else st1)
  end.

(** What the user and the network can make the page do. [EditDraft] takes
    the updater of an [onChange] handler of the form, [with_name v] and the
    like; [SettleReply] is the end of a pending [handleSendReply], with the
    message that was selected when it began. *)
Inductive action :=
| PickPlatformFilter (v : PlatformFilter)
| PickStatusFilter (v : StatusFilter)
| TypeSearchTerm (v : jsstring)
| PickMessage (id : jsstring)
| ChangeCredential (k : AccountCredentials.key) (v : jsstring)
| EditDraft (f : Draft.t -> Draft.t)
| PickAutomationStatus (v : AutomationStatus)
| AddAutomation (now : Z)
| ToggleAutomationStatus (id : jsstring)
| DeleteAutomation (id : jsstring)
| TypeComposerValue (v : jsstring)
| SendReply
| SettleReply (sel : SocialMessage.t) (f : fetched) (now : Z) (iso : jsstring).

Definition handle (a : action) (s : State) : State :=
  match a with
  | PickPlatformFilter v => setPlatformFilter v s
  | PickStatusFilter v => setStatusFilter v s
  | TypeSearchTerm v => setSearchTerm v s
  | PickMessage id => setSelectedMessageId (Some id) s
  | ChangeCredential k v => handleCredentialChange k v s
  | EditDraft f => setNewAutomation f s
  | PickAutomationStatus v => setAutomationStatus v s
  | AddAutomation now => addAutomation now s
  | ToggleAutomationStatus id => toggleAutomationStatus id s
  | DeleteAutomation id => deleteAutomation id s
  | TypeComposerValue v => setComposerValue v s
  | SendReply => fst (handleSendReply_begin (composerValue s) s)
  | SettleReply sel f now iso => handleSendReply_settle sel f now iso s
  end.

(** The handlers that call [setAutomations], after which the second effect
    runs again. *)
Definition sets_automations (a : action) (s : State) : bool :=
  match a with
  | AddAutomation _ =>
      let d := newAutomation s in
      negb (is_empty (Draft.name d) || is_empty (Draft.trigger d)
            || is_empty (Draft.response d))
  | ToggleAutomationStatus _ | DeleteAutomation _ => true
  | _ => false
  end.

Definition step (a : action) (w : World) : World :=
  let s := select_first_effect (handle a (state w)) in
  {| state := s;
     localStorage :=
       if sets_automations a (state w)
       then persist_effect (automations s) (localStorage w)
       else localStorage w |}.

Definition run (actions : list action) (w : World) : World :=
  fold_left (fun w a => step a w) actions w.

End WithEngine.

End Page.

(** ** Sample requests *)

Module Samples.
Import JS Route.

(** [{platform:"facebook", targetId:"123", message:"hi", channel:"comment",
    dryRun:true}], the end-to-end example of the spec. *)
Definition facebook_dry_run : jsval :=
  JObj [(js "platform", JStr (js "facebook"));
        (js "targetId", JStr (js "123"));
        (js "message", JStr (js "hi"));
        (js "channel", JStr (js "comment"));
        (js "dryRun", JBool true)].

(** The same request without [dryRun] and with a token: a live call. *)
Definition facebook_live : jsval :=
  JObj [(js "platform", JStr (js "facebook"));
        (js "targetId", JStr (js "123"));
        (js "message", JStr (js "hi"));
        (js "channel", JStr (js "comment"));
        (js "accessToken", JStr (js "EAAG"))].

(** A body whose [channel] is neither literal. *)
Definition bad_channel : jsval :=
  JObj [(js "platform", JStr (js "facebook"));
        (js "targetId", JStr (js "123"));
        (js "message", JStr (js "hi"));
        (js "channel", JStr (js "story"))].

(** A body whose [message] is present and empty. *)
Definition empty_message : jsval :=
  JObj [(js "platform", JStr (js "facebook"));
        (js "targetId", JStr (js "123"));
        (js "message", JStr []);
        (js "channel", JStr (js "comment"))].

(** A helper that answers [null] without doing anything, and one that throws. *)
Definition quiet_helper (_ : RespondRequest.t) : M jsval := ret JNull.
Definition failing_helper (_ : RespondRequest.t) : M jsval :=
  throw (ErrorObject (js "(#100) Invalid parameter")).

Definition no_description (_ : RespondRequest.t) : list (jsstring * jsval) := [].
Definition object_endpoint (args : RespondRequest.t) : result jsstring :=
  Return (js "https://graph.facebook.com/v19.0/123/comments").
Definition echo_api (_ : jsstring) (_ : RespondRequest.t) : result jsval :=
  Return (JObj [(js "id", JStr (js "123_456"))]).

(** A request with the given text as its body: [request.json()] parses it
    or throws a [SyntaxError], whose message is worded by the engine and
    given here as [syntax_error]. *)
Definition request_with_body (syntax_error text : jsstring) : NextRequest :=
  {| json :=
       match JSON.parse text with
       | Some v => Return v
       | None => Throw (ErrorObject syntax_error)
       end |}.

(** A message for the text [{oops], in the wording of V8 11. Engines and
    versions word it differently; the handler passes on whatever it is. *)
Definition oops_message : jsstring :=
  js "Expected property name or '}' in JSON at position 1".

(** An engine for the examples: it prints the integers written without a
    negative exponent and lowers the ASCII letters. *)
Definition ascii_lower (c : code_unit) : code_unit :=
  if (65 <=? c)%N && (c <=? 90)%N then (c + 32)%N else c.

Definition sample_engine : Engine :=
  {| Number_toString := fun n => decimal (mantissa n * 10 ^ exponent n);
     toLowerCase := map ascii_lower |}.

Definition emma : Page.SocialMessage.t :=
  {| Page.SocialMessage.id := js "fb-comment-1";
     Page.SocialMessage.platform := Page.facebook;
     Page.SocialMessage.type := Page.comment;
     Page.SocialMessage.author := js "Emma Torres";
     Page.SocialMessage.snippet := js "What is the pricing for teams?";
     Page.SocialMessage.timestamp := js "2024-05-01T10:00:00.000Z";
     Page.SocialMessage.status := Page.unread;
     Page.SocialMessage.intent := Some (js "pricing");
     Page.SocialMessage.avatar := js "https://i.pravatar.cc/100?img=1";
     Page.SocialMessage.permalink := None |}.

Definition liam : Page.SocialMessage.t :=
  {| Page.SocialMessage.id := js "ig-dm-1";
     Page.SocialMessage.platform := Page.instagram;
     Page.SocialMessage.type := Page.message;
     Page.SocialMessage.author := js "Liam Chen";
     Page.SocialMessage.snippet := js "I have an issue with my order";
     Page.SocialMessage.timestamp := js "2024-05-01T11:30:00.000Z";
     Page.SocialMessage.status := Page.unread;
     Page.SocialMessage.intent := None;
     Page.SocialMessage.avatar := js "https://i.pravatar.cc/100?img=2";
     Page.SocialMessage.permalink := None |}.

Definition sample_messages : list Page.SocialMessage.t := [emma; liam].

(** Another message under the id of [emma], as a feed that repeats an id
    would give, and a page seeded with the two. *)
Definition emma_follow_up : Page.SocialMessage.t :=
  {| Page.SocialMessage.id := js "fb-comment-1";
     Page.SocialMessage.platform := Page.facebook;
     Page.SocialMessage.type := Page.comment;
     Page.SocialMessage.author := js "Emma Torres";
     Page.SocialMessage.snippet := js "Also, is there a yearly plan?";
     Page.SocialMessage.timestamp := js "2024-05-01T10:05:00.000Z";
     Page.SocialMessage.status := Page.snoozed;
     Page.SocialMessage.intent := None;
     Page.SocialMessage.avatar := js "https://i.pravatar.cc/100?img=1";
     Page.SocialMessage.permalink := None |}.

Definition repeated_id_state : Page.State :=
  Page.initialState [emma; emma_follow_up].

Definition welcome_draft : Page.Draft.t :=
  {| Page.Draft.name := js "Welcome";
     Page.Draft.platform := Page.only Page.instagram;
     Page.Draft.channel := Page.to_message;
     Page.Draft.trigger := js "contains 'hello'";
     Page.Draft.response := js "Hi there, thanks for writing in!" |}.

(** The page after mounting on an empty storage, and with the form filled. *)
Definition fresh_state : Page.State := Page.initialState sample_messages.
Definition ready_state : Page.State :=
  Page.setNewAutomation (fun _ => welcome_draft) fresh_state.

(** A relay that accepts the request as a dry run, and one that refuses it. *)
Definition accepting_network (_ : Page.FetchRequest) : Page.fetched :=
  Page.Fulfilled
    {| Page.Response.status := 200;
       Page.Response.json :=
         Return (JObj [(js "ok", JBool true);
                       (js "result", JObj [(js "dryRun", JBool true)])]) |}.

Definition refusing_network (_ : Page.FetchRequest) : Page.fetched :=
  Page.Fulfilled
    {| Page.Response.status := 400;
       Page.Response.json :=
         Return (JObj [(js "ok", JBool false);
                       (js "error", JStr (js "channel must be comment or message"))]) |}.

(** The object [addAutomation] builds from [welcome_draft]: [id] and
    [status] first, then the properties of the form. *)
Definition welcome_object : jsval :=
  JObj [(js "id", JStr (js "automation-1730000000000"));
        (js "status", JStr (js "active"));
        (js "name", JStr (js "Welcome"));
        (js "platform", JStr (js "instagram"));
        (js "channel", JStr (js "message"));
        (js "trigger", JStr (js "contains 'hello'"));
        (js "response", JStr (js "Hi there, thanks for writing in!"))].

(** A storage whose rules were truncated. *)
Definition corrupted_storage : Page.Storage :=
  [(Page.storage_key, js "[{oops")].

End Samples.

(** ** What the page computes for display *)

Module View.
Import JS Page.

(** [Math.round]: the nearest integer, a tie going up. *)
Definition Math_round (x : QArith_base.Q) : Z :=
  Qround.Qfloor (QArith_base.Qplus x (QArith_base.Qmake 1 2)).

(** [connectionScore]: a half for each platform whose two credentials are
    non-empty strings, as a percentage. The values [0], [0.5] and [1] and
    their products with [100] are exact as doubles. *)
Definition connectionScore (c : AccountCredentials.t) : Z :=
  let half (connected : bool) :=
    if connected then QArith_base.Qmake 1 2 else QArith_base.Qmake 0 1 in
  let score :=
    QArith_base.Qplus
      (half (negb (is_empty (AccountCredentials.facebookPageId c))
             && negb (is_empty (AccountCredentials.facebookToken c))))
      (half (negb (is_empty (AccountCredentials.instagramBusinessId c))
             && negb (is_empty (AccountCredentials.instagramToken c)))) in
  Math_round (QArith_base.Qmult score (QArith_base.Qmake 100 1)).

(** [credentials[key]] *)
Definition credential (k : AccountCredentials.key) (c : AccountCredentials.t) : jsstring :=
  match k with
  | AccountCredentials.key_facebookPageId => AccountCredentials.facebookPageId c
  | AccountCredentials.key_facebookToken => AccountCredentials.facebookToken c
  | AccountCredentials.key_instagramBusinessId => AccountCredentials.instagramBusinessId c
  | AccountCredentials.key_instagramToken => AccountCredentials.instagramToken c
  | AccountCredentials.key_webhookUrl => AccountCredentials.webhookUrl c
  end.

(** [author.split(" ")[0]]: the author up to its first space. *)
Fixpoint first_word (s : jsstring) : jsstring :=
  match s with
  | [] => []
  | c :: rest => if N.eqb c 32 then [] else c :: first_word rest
  end.

Module QuickReply.
Record t := mk { id : jsstring; label : jsstring; message : jsstring }.
End QuickReply.

(** [hydrateQuickReplies]: nothing without a selected message, otherwise
    three replies that greet the author by first name. *)
Definition hydrateQuickReplies (s : State) : list QuickReply.t :=
  match selectedMessage s with
  | None => []
  | Some sel =>
      let firstName := first_word (SocialMessage.author sel) in
      [ {| QuickReply.id := js "thanks";
           QuickReply.label := js "Thank + CTA";
           QuickReply.message :=
             js "Hey " ++ firstName
             ++ js "! Really appreciate you reaching out. I just sent a DM with the next steps"
             ++ [8212%N] ++ js "let me know what you think!" |};
        {| QuickReply.id := js "support";
           QuickReply.label := js "Support handoff";
           QuickReply.message :=
             js "Thanks for the heads up, " ++ firstName
             ++ js ". Can you share the email tied to your account so I can connect you with support right away?" |};
        {| QuickReply.id := js "partnership";
           QuickReply.label := js "Collab invite";
           QuickReply.message :=
             js "Love this idea, " ++ firstName
             ++ js ". I'd be keen to explore a partnership. What's the best email for you?" |} ]
  end.

(** [Intl.RelativeTimeFormatUnit], the six the page uses. *)
Inductive RelativeTimeFormatUnit := year | month | week | day | hour | minute.

Definition is_minute (u : RelativeTimeFormatUnit) : bool :=
  match u with minute => true | _ => false end.

(** The table [units] of [formatRelativeTime], in milliseconds. *)
Definition units : list (RelativeTimeFormatUnit * Z) :=
  [ (year, 1000 * 60 * 60 * 24 * 365);
    (month, 1000 * 60 * 60 * 24 * 30);
    (week, 1000 * 60 * 60 * 24 * 7);
    (day, 1000 * 60 * 60 * 24);
    (hour, 1000 * 60 * 60);
    (minute, 1000 * 60) ]%Z.

(** What [formatRelativeTime] takes from the engine: the time value of a
    date string ([None] is [NaN], an invalid date), [Math.round(diff /
    milliseconds)] for a finite [diff], and [formatter.format], which gets
    [None] for [NaN]. *)
Class RelativeTime := {
  Date_getTime : jsstring -> option Z;
  Math_round_quotient : Z -> Z -> Z;
  format : option Z -> RelativeTimeFormatUnit -> result jsstring
}.

(** [abs > milliseconds], which is false when [abs] is [NaN]. Time values
    are integers and the comparison with the table is exact on them. *)
Definition exceeds (diff : option Z) (milliseconds : Z) : bool :=
  match diff with
  | Some d => (milliseconds <? Z.abs d)%Z
  | None => false
  end.

(** The [for] loop: the first row of the table whose span is exceeded, or
    the row of the minute. *)
Fixpoint first_unit (diff : option Z) (table : list (RelativeTimeFormatUnit * Z))
  : option (RelativeTimeFormatUnit * Z) :=
  match table with
  | [] => None
  | (unit, milliseconds) :: rest =>
      if exceeds diff milliseconds || is_minute unit then Some (unit, milliseconds)
      else first_unit diff rest
  end.

Section WithRelativeTime.
Context {rt : RelativeTime}.

Definition formatRelativeTime (now : Z) (value : jsstring) : result jsstring :=
  let date := Date_getTime value in
  let diff := option_map (fun d => (d - now)%Z) date in
  match first_unit diff units with
  | Some (unit, milliseconds) =>
      format (option_map (fun d => Math_round_quotient d milliseconds) diff) unit
  | None => Return (js "just now")
  end.

End WithRelativeTime.

End View.

(** ** The page, its storage and the relay together *)

Module Wire.
Import JS Page.

(** The properties the handler reads from a body. *)
Definition read_fields : list jsstring :=
  Route.required_fields
  ++ [js "dryRun"; js "accessToken"; js "instagramBusinessAccountId"; js "replyToId"].

(** What [JSON.stringify] keeps of [payload]: the property
    [instagramBusinessAccountId] of a Facebook message is [undefined] and is
    left out. *)
Definition sent_body (sel : SocialMessage.t) (reply : jsstring)
  (c : AccountCredentials.t) : jsval :=
  match payload sel reply c with
  | JObj props =>
      JObj (filter (fun kv => match snd kv with JUndefined => false | _ => true end) props)
  | v => v
  end.

(** [MetaChannel] and the channel of the page are the same two strings. *)
Definition to_MetaChannel (c : Channel) : Route.MetaChannel :=
  match c with
  | to_comment => Route.comment
  | to_message => Route.message
  end.

(** The stored text is the rule list of the page. *)
Definition in_sync (w : World) : Prop :=
  load_effect (localStorage w) = SetRules (automations (state w)).

(** The entry a step adds to the activity log, if it adds one. *)
Definition logged {engine : Engine} (a : action) : option ActivityEntry.t :=
  match a with
  | SettleReply sel f now iso =>
      Some match dispatch_result f with
           | Return data => sent_entry sel data now iso
           | Throw e => error_entry sel e now iso
           end
  | _ => None
  end.

End Wire.

(** ** More sample data *)

Module MoreSamples.
Import JS.

Definition connected_facebook : Page.AccountCredentials.t :=
  {| Page.AccountCredentials.facebookPageId := js "1029384756";
     Page.AccountCredentials.facebookToken := js "EAAG";
     Page.AccountCredentials.instagramBusinessId := js "1784";
     Page.AccountCredentials.instagramToken := [];
     Page.AccountCredentials.webhookUrl := [] |}.

(** A page mounted on an empty storage. *)
Definition mounted_world : Page.World :=
  {| Page.state := Samples.fresh_state;
     Page.localStorage :=
       snd (@Page.mount Samples.sample_engine Samples.sample_messages []) |}.

Definition busy_afternoon : list Page.action :=
  [ Page.EditDraft (fun _ => Samples.welcome_draft);
    Page.AddAutomation 1730000000000;
    Page.ToggleAutomationStatus (js "auto-lead");
    Page.DeleteAutomation (js "auto-support");
    Page.TypeComposerValue (js "On it!");
    Page.SendReply;
    Page.SettleReply Samples.emma
      (Samples.refusing_network
         (@Page.request_of Samples.sample_engine Samples.emma (js "On it!")
            Page.defaultCredentials))
      1730000000500 (js "2024-11-01T00:00:00.500Z") ].

(** A clock for the examples: dates are not parsed, the quotient is rounded
    half up and the formatter fails on [NaN]. *)
Definition sample_relative_time : View.RelativeTime :=
  {| View.Date_getTime := fun _ => Some 1729913600000%Z;
     View.Math_round_quotient := fun d ms => ((2 * d + ms) / (2 * ms))%Z;
     View.format := fun v u =>
       match v with
       | Some n => Return (decimal n)
       | None => Throw (ErrorObject (js "Invalid value"))
       end |}.

End MoreSamples.

(* ================================================================== *)
(** * Properties *)

Import JS.

Lemma str_eqb_refl (a : jsstring) : str_eqb a a = true.
Proof.
  induction a as [|x a IH]; simpl; [reflexivity|].
  now rewrite N.eqb_refl, IH.
Qed.

Lemma str_eqb_eq (a b : jsstring) : str_eqb a b = true <-> a = b.
Proof.
  split.
  - revert b. induction a as [|x a IH]; destruct b as [|y b]; simpl; try discriminate.
    + reflexivity.
    + intros H. apply andb_true_iff in H as [Hx Hr].
      apply N.eqb_eq in Hx. now rewrite Hx, (IH b Hr).
  - intros ->. apply str_eqb_refl.
Qed.

Lemma str_eqb_neq (a b : jsstring) : str_eqb a b = false <-> a <> b.
Proof.
  rewrite <- str_eqb_eq. destruct (str_eqb a b); split; congruence.
Qed.


Lemma lookup_remove_prop_same (k : jsstring) (props : list (jsstring * jsval)) :
  lookup k (remove_prop k props) = None.
Proof.
  induction props as [|[k' v] props IH]; simpl; [reflexivity|].
  destruct (str_eqb k k') eqn:E; simpl; [exact IH|].
  now rewrite E.
Qed.

(** *** The relay *)

Section RouteFacts.
Import Route.

Variable postMetaResponse : RespondRequest.t -> M jsval.

Lemma bind_lift_Return {A B} (a : A) (k : A -> M B) :
  bind (lift (Return a)) k = k a.
Proof. unfold bind, lift. now destruct (k a). Qed.

Lemma bind_ret {A B} (a : A) (k : A -> M B) : bind (ret a) k = k a.
Proof. unfold bind, ret. now destruct (k a). Qed.

Lemma Get_defined (b : jsval) (k : jsstring) :
  nullish b = false -> Get b k = Return (read b k).
Proof. now destruct b. Qed.

Lemma read_truthy_not_nullish (b : jsval) (k : jsstring) :
  ToBoolean (read b k) = true -> nullish b = false.
Proof. now destruct b. Qed.

(** The first test of the handler, on a body that has properties. *)
Lemma required_missing_spec (b : jsval) :
  nullish b = false ->
  required_missing b =
    ret (negb (ToBoolean (read b (js "platform")))
         || negb (ToBoolean (read b (js "targetId")))
         || negb (ToBoolean (read b (js "message")))
         || negb (ToBoolean (read b (js "channel")))).
Proof.
  intros Hb. unfold required_missing.
  rewrite !(Get_defined b) by exact Hb.
  rewrite bind_lift_Return.
  destruct (ToBoolean (read b (js "platform"))); cbn [negb orb]; [|reflexivity].
  rewrite bind_lift_Return.
  destruct (ToBoolean (read b (js "targetId"))); cbn [negb orb]; [|reflexivity].
  rewrite bind_lift_Return.
  destruct (ToBoolean (read b (js "message"))); cbn [negb orb]; [|reflexivity].
  now rewrite bind_lift_Return.
Qed.

Lemma respond_missing (request : NextRequest) (b : jsval) :
  json request = Return b -> nullish b = false ->
  (exists k, In k required_fields /\ ToBoolean (read b k) = false) ->
  respond postMetaResponse request =
    ret {| status := 400; body := failure_body required_message |}.
Proof.
  intros Hj Hb (k & Hk & Hf). unfold respond.
  rewrite Hj, bind_lift_Return, (required_missing_spec b Hb), bind_ret.
  assert (E : negb (ToBoolean (read b (js "platform")))
              || negb (ToBoolean (read b (js "targetId")))
              || negb (ToBoolean (read b (js "message")))
              || negb (ToBoolean (read b (js "channel"))) = true).
  { simpl in Hk.
    destruct Hk as [<-|[<-|[<-|[<-|[]]]]]; rewrite Hf; simpl;
      rewrite ?orb_true_r; reflexivity. }
  now rewrite E.
Qed.

Lemma as_MetaChannel_Some (v : jsval) (ch : MetaChannel) :
  as_MetaChannel v = Some ch <-> v = JStr (MetaChannel_text ch).
Proof.
  unfold as_MetaChannel, strict_equals_string. split.
  - destruct v; try discriminate.
    destruct (str_eqb s (js "comment")) eqn:E1.
    + apply str_eqb_eq in E1. intros [= <-]. now subst.
    + destruct (str_eqb s (js "message")) eqn:E2; [|discriminate].
      apply str_eqb_eq in E2. intros [= <-]. now subst.
  - intros ->. now destruct ch.
Qed.

Lemma as_MetaChannel_None (v : jsval) :
  as_MetaChannel v = None <->
  v <> JStr (js "comment") /\ v <> JStr (js "message").
Proof.
  split.
  - intros H. split; intros ->; discriminate H.
  - intros [H1 H2]. destruct (as_MetaChannel v) as [ch|] eqn:E; [|reflexivity].
    apply as_MetaChannel_Some in E. destruct ch; contradiction.
Qed.

Lemma respond_bad_channel (request : NextRequest) (b : jsval) :
  json request = Return b -> nullish b = false ->
  (forall k, In k required_fields -> ToBoolean (read b k) = true) ->
  as_MetaChannel (read b (js "channel")) = None ->
  respond postMetaResponse request =
    ret {| status := 400; body := failure_body channel_message |}.
Proof.
  intros Hj Hb Hall Hc. unfold respond.
  rewrite Hj, bind_lift_Return, (required_missing_spec b Hb), bind_ret.
  rewrite !Hall by (simpl; auto). cbn [negb orb].
  rewrite (Get_defined b) by exact Hb.
  now rewrite bind_lift_Return, Hc.
Qed.

Lemma respond_valid (request : NextRequest) (b : jsval) (ch : MetaChannel) :
  json request = Return b ->
  ToBoolean (read b (js "platform")) = true ->
  ToBoolean (read b (js "targetId")) = true ->
  ToBoolean (read b (js "message")) = true ->
  read b (js "channel") = JStr (MetaChannel_text ch) ->
  respond postMetaResponse request =
    (emit (PostMetaResponseCalled (request_args b ch)) ;;;
     r <- postMetaResponse (request_args b ch) ;;
     ret {| status := 200; body := success_body r |}).
Proof.
  intros Hj Hp Ht Hm Hc.
  assert (Hb : nullish b = false) by exact (read_truthy_not_nullish _ _ Hp).
  unfold respond.
  rewrite Hj, bind_lift_Return, (required_missing_spec b Hb), bind_ret.
  rewrite Hp, Ht, Hm, Hc.
  assert (Hch : ToBoolean (JStr (MetaChannel_text ch)) = true) by now destruct ch.
  rewrite Hch. cbn [negb orb].
  rewrite !(Get_defined b) by exact Hb.
  rewrite bind_lift_Return, Hc.
  replace (as_MetaChannel (JStr (MetaChannel_text ch))) with (Some ch)
    by (symmetry; now apply as_MetaChannel_Some).
  now rewrite !bind_lift_Return.
Qed.

Lemma POST_of_respond_Return (request : NextRequest) (response : NextResponse) :
  respond postMetaResponse request = ret response ->
  POST postMetaResponse request = ([], response).
Proof. unfold POST. now intros ->. Qed.

Lemma POST_of_respond_Throw (request : NextRequest) (e : thrown) :
  outcome (respond postMetaResponse request) = Throw e ->
  snd (POST postMetaResponse request) =
    {| status := 500; body := failure_body (error_text e) |}.
Proof.
  unfold POST, outcome.
  destruct (respond postMetaResponse request) as [tr [r|e']]; simpl; [discriminate|].
  now intros [= ->].
Qed.

Lemma some_required_falsy_dec (b : jsval) :
  (exists k, In k required_fields /\ ToBoolean (read b k) = false) \/
  (forall k, In k required_fields -> ToBoolean (read b k) = true).
Proof.
  destruct (forallb (fun k => ToBoolean (read b k)) required_fields) eqn:E.
  - right. now apply forallb_forall.
  - left. destruct (existsb (fun k => negb (ToBoolean (read b k))) required_fields) eqn:E'.
    + apply existsb_exists in E' as (k & Hk & Hf). exists k. split; [exact Hk|].
      now apply negb_true_iff.
    + exfalso. assert (H : forallb (fun k => ToBoolean (read b k)) required_fields = true).
      { apply forallb_forall. intros k Hk.
        destruct (ToBoolean (read b k)) eqn:Ek; [reflexivity|].
        assert (X : existsb (fun k => negb (ToBoolean (read b k))) required_fields = true).
        { apply existsb_exists. exists k. split; [exact Hk|]. now rewrite Ek. }
        congruence. }
      congruence.
Qed.

(** C1 (amended): for every request whose body parsed to a JSON value other
    than [null], if one of [platform], [targetId], [message], [channel] is
    missing from it, or its [channel] is neither "comment" nor "message", the
    handler answers with status 400 and the body [{ ok: false, error }] for
    some string, and logs nothing: in particular [postMetaResponse] is not
    called and no outbound request is made. *)
Theorem POST_rejects_incomplete_body (request : NextRequest) (b : jsval) :
  json request = Return b ->
  nullish b = false ->
  (exists k, In k required_fields /\ read b k = JUndefined) \/
  (read b (js "channel") <> JStr (js "comment") /\
   read b (js "channel") <> JStr (js "message")) ->
  exists error,
    POST postMetaResponse request =
      ([], {| status := 400;
              body := JObj [(js "ok", JBool false); (js "error", JStr error)] |}).
Proof.
  intros Hj Hb Hbad.
  destruct (some_required_falsy_dec b) as [Hfalsy|Hall].
  - exists required_message. apply POST_of_respond_Return.
    now apply (respond_missing request b).
  - destruct Hbad as [(k & Hk & Hu)|Hc].
    + specialize (Hall k Hk). rewrite Hu in Hall. discriminate Hall.
    + exists channel_message. apply POST_of_respond_Return.
      apply (respond_bad_channel request b); try assumption.
      now apply as_MetaChannel_None.
Qed.

(** C10: for every request whose body holds one of the required properties
    with a falsy value (the empty string, [null], [false], zero), the handler
    answers 400 with [ok: false], and the answer is the one it gives to the
    same body without that property. *)
Theorem POST_rejects_falsy_required_field
  (request : NextRequest) (props : list (jsstring * jsval)) (k : jsstring) (v : jsval) :
  json request = Return (JObj props) ->
  In k required_fields ->
  lookup k props = Some v ->
  ToBoolean v = false ->
  POST postMetaResponse request =
    ([], {| status := 400;
            body := JObj [(js "ok", JBool false);
                          (js "error", JStr required_message)] |}) /\
  POST postMetaResponse {| json := Return (JObj (remove_prop k props)) |} =
    POST postMetaResponse request.
Proof.
  intros Hj Hk Hl Hf.
  assert (H1 : POST postMetaResponse request =
               ([], {| status := 400; body := failure_body required_message |})).
  { apply POST_of_respond_Return. apply (respond_missing request (JObj props));
      [exact Hj | reflexivity |].
    exists k. split; [exact Hk|]. simpl. now rewrite Hl. }
  split; [exact H1|]. rewrite H1.
  apply POST_of_respond_Return.
  apply (respond_missing _ (JObj (remove_prop k props))); [reflexivity | reflexivity |].
  exists k. split; [exact Hk|]. simpl. now rewrite lookup_remove_prop_same.
Qed.

(** C3: whenever the [try] block of the handler throws, the handler answers
    with status 500 and the body [{ ok: false, error }], where [error] is the
    message of the thrown [Error] (and the text "Unexpected error while
    sending response" for any other thrown value), and the error is written
    to the console; a body that is not JSON and an exception of
    [postMetaResponse] on a validated request are two such cases. *)
Theorem POST_answers_500_when_thrown :
  (forall request e,
      outcome (respond postMetaResponse request) = Throw e ->
      snd (POST postMetaResponse request) =
        {| status := 500;
           body :=
             JObj [(js "ok", JBool false);
                   (js "error",
                     JStr match e with
                          | ErrorObject msg => msg
                          | Thrown _ => js "Unexpected error while sending response"
                          end)] |} /\
      In (ConsoleError (js "Failed to send Meta response:") e)
        (fst (POST postMetaResponse request))) /\
  (forall request msg,
      json request = Throw (ErrorObject msg) ->
      POST postMetaResponse request =
        ([ConsoleError (js "Failed to send Meta response:") (ErrorObject msg)],
         {| status := 500;
            body := JObj [(js "ok", JBool false); (js "error", JStr msg)] |})) /\
  (forall request b ch tr msg,
      json request = Return b ->
      ToBoolean (read b (js "platform")) = true ->
      ToBoolean (read b (js "targetId")) = true ->
      ToBoolean (read b (js "message")) = true ->
      read b (js "channel") = JStr (MetaChannel_text ch) ->
      postMetaResponse (request_args b ch) = (tr, Throw (ErrorObject msg)) ->
      snd (POST postMetaResponse request) =
        {| status := 500;
           body := JObj [(js "ok", JBool false); (js "error", JStr msg)] |}).
Proof.
  assert (Hthrow : forall request e,
             outcome (respond postMetaResponse request) = Throw e ->
             snd (POST postMetaResponse request) =
               {| status := 500; body := failure_body (error_text e) |} /\
             In (ConsoleError (js "Failed to send Meta response:") e)
               (fst (POST postMetaResponse request))).
  { intros request e H. split; [now apply POST_of_respond_Throw|].
    unfold POST, outcome in *.
    destruct (respond postMetaResponse request) as [tr [response|e']];
      [discriminate H|].
    cbn [snd] in H. injection H as ->. cbn [on_error fst].
    apply in_or_app. right. now left. }
  split; [|split].
  - intros request e H. destruct (Hthrow request e H) as [Hs Hc].
    split; [|exact Hc]. rewrite Hs. now destruct e.
  - intros request msg Hj. unfold POST, respond. now rewrite Hj.
  - intros request b ch tr msg Hj Hp Ht Hm Hc Hpost.
    apply (Hthrow request (ErrorObject msg)).
    rewrite (respond_valid request b ch Hj Hp Ht Hm Hc), Hpost.
    reflexivity.
Qed.

End RouteFacts.

(** C1, as stated, fails on the body [null]: every required field is missing
    from it, the first property read throws, and the answer is a 500. *)
Lemma POST_null_body_is_not_400 :
  let request := {| Route.json := Return JNull |} in
  (exists k, In k Route.required_fields /\ read JNull k = JUndefined) /\
  Route.status (snd (Route.POST Samples.quiet_helper request)) = 500%N /\
  ~ (exists error,
        Route.POST Samples.quiet_helper request =
          ([], {| Route.status := 400;
                  Route.body := JObj [(js "ok", JBool false);
                                      (js "error", JStr error)] |})).
Proof.
  split; [|split].
  - exists (js "platform"). split; [now left | reflexivity].
  - reflexivity.
  - intros [error H]. vm_compute in H. discriminate H.
Qed.

Lemma POST_rejects_incomplete_body_witness :
  exists error,
    Route.POST Samples.quiet_helper {| Route.json := Return Samples.bad_channel |} =
      ([], {| Route.status := 400;
              Route.body := JObj [(js "ok", JBool false); (js "error", JStr error)] |}).
Proof.
  apply (POST_rejects_incomplete_body Samples.quiet_helper _ Samples.bad_channel).
  - reflexivity.
  - reflexivity.
  - right. split; intros H; vm_compute in H; discriminate H.
Defined.

Lemma POST_rejects_falsy_required_field_witness :
  let request := {| Route.json := Return Samples.empty_message |} in
  Route.POST Samples.quiet_helper request =
    ([], {| Route.status := 400;
            Route.body := JObj [(js "ok", JBool false);
                                (js "error", JStr Route.required_message)] |}) /\
  Route.POST Samples.quiet_helper
    {| Route.json :=
         Return (JObj (remove_prop (js "message")
                         [(js "platform", JStr (js "facebook"));
                          (js "targetId", JStr (js "123"));
                          (js "message", JStr []);
                          (js "channel", JStr (js "comment"))])) |} =
    Route.POST Samples.quiet_helper request.
Proof.
  apply (POST_rejects_falsy_required_field Samples.quiet_helper _ _
           (js "message") (JStr [])).
  - reflexivity.
  - simpl. auto.
  - reflexivity.
  - reflexivity.
Defined.

Lemma POST_answers_500_when_thrown_witness :
  snd (Route.POST Samples.failing_helper
         {| Route.json := Return Samples.facebook_live |}) =
    {| Route.status := 500;
       Route.body := JObj [(js "ok", JBool false);
                           (js "error", JStr (js "(#100) Invalid parameter"))] |} /\
  Route.POST Samples.quiet_helper
    (Samples.request_with_body Samples.oops_message (js "{oops")) =
    ([Route.ConsoleError (js "Failed to send Meta response:")
        (ErrorObject Samples.oops_message)],
     {| Route.status := 500;
        Route.body := JObj [(js "ok", JBool false);
                            (js "error", JStr Samples.oops_message)] |}).
Proof.
  split.
  - apply (proj2 (proj2 (POST_answers_500_when_thrown Samples.failing_helper))
             _ Samples.facebook_live Route.comment []
             (js "(#100) Invalid parameter"));
      reflexivity.
  - apply (proj1 (proj2 (POST_answers_500_when_thrown Samples.quiet_helper))
             (Samples.request_with_body Samples.oops_message (js "{oops"))
             Samples.oops_message).
    reflexivity.
Defined.

(** *** The relay with the Graph API helper *)

Section MetaFacts.
Import Route.

Variable META_ACCESS_TOKEN : option jsstring.
Variable describe_call : RespondRequest.t -> list (jsstring * jsval).
Variable endpoint : RespondRequest.t -> result jsstring.
Variable graph_api : jsstring -> RespondRequest.t -> result jsval.

Local Abbreviation helper :=
  (Meta.postMetaResponse META_ACCESS_TOKEN describe_call endpoint graph_api).

Lemma POST_valid_Return
  (post : RespondRequest.t -> M jsval)
  (request : NextRequest) (b : jsval) (ch : MetaChannel) (tr : list event) (r : jsval) :
  json request = Return b ->
  ToBoolean (read b (js "platform")) = true ->
  ToBoolean (read b (js "targetId")) = true ->
  ToBoolean (read b (js "message")) = true ->
  read b (js "channel") = JStr (MetaChannel_text ch) ->
  post (request_args b ch) = (tr, Return r) ->
  POST post request =
    (PostMetaResponseCalled (request_args b ch) :: tr,
     {| status := 200; body := success_body r |}).
Proof.
  intros Hj Hp Ht Hm Hc Hpost. unfold POST.
  rewrite (respond_valid post request b ch Hj Hp Ht Hm Hc), Hpost.
  simpl. now rewrite app_nil_r.
Qed.

Lemma helper_dry_run (args : RespondRequest.t) :
  ToBoolean (RespondRequest.dryRun args) = true ->
  helper args = ([], Return (Meta.dry_run_result describe_call args)).
Proof.
  intros Hd. unfold helper, Meta.postMetaResponse. now rewrite Hd.
Qed.

(** C2: for every request that passes validation and whose [dryRun] is
    [true], the relay answers [ok: true] with the object that describes the
    call ([dryRun: true] and the description), and the run makes no outbound
    request: its only event is the call of the helper. *)
Theorem POST_dry_run_makes_no_request
  (request : NextRequest) (b : jsval) (ch : MetaChannel) :
  json request = Return b ->
  ToBoolean (read b (js "platform")) = true ->
  ToBoolean (read b (js "targetId")) = true ->
  ToBoolean (read b (js "message")) = true ->
  read b (js "channel") = JStr (MetaChannel_text ch) ->
  read b (js "dryRun") = JBool true ->
  let args := request_args b ch in
  POST helper request =
    ([PostMetaResponseCalled args],
     {| status := 200;
        body :=
          JObj [(js "ok", JBool true);
                (js "result",
                  JObj ((js "dryRun", JBool true) :: describe_call args))] |}) /\
  (forall url, ~ In (OutboundRequest url) (fst (POST helper request))).
Proof.
  intros Hj Hp Ht Hm Hc Hd args.
  assert (H : POST helper request =
              ([PostMetaResponseCalled args],
               {| status := 200;
                  body := success_body (Meta.dry_run_result describe_call args) |})).
  { apply (POST_valid_Return helper request b ch [] _ Hj Hp Ht Hm Hc).
    apply helper_dry_run. simpl. now rewrite Hd. }
  split; [exact H|].
  intros url. rewrite H. simpl. intros [X|[]]. discriminate X.
Qed.

(** C4: for every request that passes validation, when [postMetaResponse]
    returns a result the handler answers with status 200 and the body
    [{ ok: true, result }]; and the request [{platform:"facebook",
    targetId:"123", message:"hi", channel:"comment", dryRun:true}] is
    answered with status 200 and [{ ok: true, result: { dryRun: true, ... } }]. *)
Theorem POST_relays_result :
  (forall (post : RespondRequest.t -> M jsval) request b ch tr r,
      json request = Return b ->
      ToBoolean (read b (js "platform")) = true ->
      ToBoolean (read b (js "targetId")) = true ->
      ToBoolean (read b (js "message")) = true ->
      read b (js "channel") = JStr (MetaChannel_text ch) ->
      post (request_args b ch) = (tr, Return r) ->
      snd (POST post request) =
        {| status := 200;
           body := JObj [(js "ok", JBool true); (js "result", r)] |}) /\
  snd (POST helper {| json := Return Samples.facebook_dry_run |}) =
    {| status := 200;
       body :=
         JObj [(js "ok", JBool true);
               (js "result",
                 JObj ((js "dryRun", JBool true)
                         :: describe_call
                              (request_args Samples.facebook_dry_run comment)))] |}.
Proof.
  split.
  - intros post request b ch tr r Hj Hp Ht Hm Hc Hpost.
    now rewrite (POST_valid_Return post request b ch tr r Hj Hp Ht Hm Hc Hpost).
  - rewrite (POST_valid_Return helper _ Samples.facebook_dry_run comment []
               (Meta.dry_run_result describe_call
                  (request_args Samples.facebook_dry_run comment)));
      try reflexivity.
Qed.

End MetaFacts.

Lemma POST_dry_run_makes_no_request_witness :
  let request := {| Route.json := Return Samples.facebook_dry_run |} in
  let helper := Meta.postMetaResponse None Samples.no_description
                  Samples.object_endpoint Samples.echo_api in
  let args := Route.request_args Samples.facebook_dry_run Route.comment in
  Route.POST helper request =
    ([Route.PostMetaResponseCalled args],
     {| Route.status := 200;
        Route.body := JObj [(js "ok", JBool true);
                            (js "result", JObj [(js "dryRun", JBool true)])] |}) /\
  (forall url, ~ In (Route.OutboundRequest url) (fst (Route.POST helper request))).
Proof.
  apply (POST_dry_run_makes_no_request None Samples.no_description
           Samples.object_endpoint Samples.echo_api
           _ Samples.facebook_dry_run Route.comment); reflexivity.
Defined.

Lemma POST_relays_result_witness :
  snd (Route.POST
         (Meta.postMetaResponse None Samples.no_description
            Samples.object_endpoint Samples.echo_api)
         {| Route.json := Return Samples.facebook_live |}) =
    {| Route.status := 200;
       Route.body := JObj [(js "ok", JBool true);
                           (js "result", JObj [(js "id", JStr (js "123_456"))])] |}.
Proof.
  apply (proj1 (POST_relays_result None Samples.no_description
                  Samples.object_endpoint Samples.echo_api)
           _ _ Samples.facebook_live Route.comment
           [Route.OutboundRequest
              (js "https://graph.facebook.com/v19.0/123/comments")]);
    reflexivity.
Defined.

(** *** [JSON.parse] after [JSON.stringify] *)

Section JSONFacts.
Import JSON.
Local Open Scope N_scope.
Context {engine : Engine}.

Lemma hex_digit_value (d : N) : d < 16 -> hex_value (hex_digit d) = Some d.
Proof.
  intros Hd.
  assert (Hall : forallb (fun x => match hex_value (hex_digit x) with
                                   | Some y => y =? x
                                   | None => false
                                   end)
                   (map N.of_nat (seq 0 16)) = true) by (vm_compute; reflexivity).
  rewrite forallb_forall in Hall.
  specialize (Hall d).
  assert (Hin : In d (map N.of_nat (seq 0 16))).
  { rewrite <- (N2Nat.id d). apply in_map. apply in_seq. lia. }
  specialize (Hall Hin).
  destruct (hex_value (hex_digit d)) as [y|]; [|discriminate].
  apply N.eqb_eq in Hall. now subst.
Qed.

Lemma hex4_value (c : code_unit) :
  c < 65536 ->
  (c / 4096 mod 16) * 4096 + (c / 256 mod 16) * 256 + (c / 16 mod 16) * 16 + c mod 16 = c.
Proof.
  intros Hc.
  pose proof (N.div_mod c 16 ltac:(lia)) as D0.
  pose proof (N.div_mod (c / 16) 16 ltac:(lia)) as D1.
  pose proof (N.div_mod (c / 16 / 16) 16 ltac:(lia)) as D2.
  pose proof (N.mod_lt c 16 ltac:(lia)) as L0.
  pose proof (N.mod_lt (c / 16) 16 ltac:(lia)) as L1.
  pose proof (N.mod_lt (c / 16 / 16) 16 ltac:(lia)) as L2.
  assert (E1 : c / 256 = c / 16 / 16) by (now rewrite N.Div0.div_div).
  assert (E2 : c / 4096 = c / 16 / 16 / 16) by (now rewrite !N.Div0.div_div).
  assert (Hs : c / 16 / 16 / 16 < 16).
  { rewrite <- E2. apply N.Div0.div_lt_upper_bound. lia. }
  rewrite E1, E2, (N.mod_small (c / 16 / 16 / 16) 16 Hs).
  lia.
Qed.

Lemma parse_chars_unicode_escape (c : code_unit) (tail : jsstring) :
  c < 65536 ->
  parse_chars (unicode_escape c ++ tail) =
    match parse_chars tail with
    | Some (t, rest) => Some (c :: t, rest)
    | None => None
    end.
Proof.
  intros Hc. unfold unicode_escape, hex4.
  cbn [app parse_chars].
  change (92 =? 34) with false. change (92 =? 92) with true.
  change (117 =? 117) with true. cbv iota.
  rewrite !hex_digit_value by (apply N.mod_lt; lia).
  now rewrite hex4_value.
Qed.

Lemma short_escape_unescape (c e : code_unit) :
  short_escape c = Some e -> (e =? 117) = false /\ unescape e = Some c.
Proof.
  unfold short_escape.
  repeat match goal with
         | |- context [?x =? ?y] =>
             lazymatch x with
             | c => destruct (N.eqb_spec x y); [subst c; intros [= <-]; now vm_compute|]
             end
         end.
  discriminate.
Qed.

Lemma short_escape_None (c : code_unit) :
  short_escape c = None -> (c =? 34) = false /\ (c =? 92) = false.
Proof.
  unfold short_escape. intros H. split.
  - destruct (N.eqb_spec c 34); [|reflexivity]. subst c. discriminate H.
  - destruct (N.eqb_spec c 92); [|reflexivity]. subst c. discriminate H.
Qed.

Lemma parse_chars_literal (c : code_unit) (tail : jsstring) :
  (c =? 34) = false -> (c =? 92) = false -> (c <? 32) = false ->
  parse_chars (c :: tail) =
    match parse_chars tail with
    | Some (t, rest) => Some (c :: t, rest)
    | None => None
    end.
Proof. intros H1 H2 H3. cbn [parse_chars]. now rewrite H1, H2, H3. Qed.

Lemma low_surrogate_literal (d : code_unit) :
  is_low_surrogate d = true ->
  (d =? 34) = false /\ (d =? 92) = false /\ (d <? 32) = false.
Proof.
  unfold is_low_surrogate. intros H. apply andb_true_iff in H as [H1 H2].
  apply N.leb_le in H1.
  repeat split; [apply N.eqb_neq | apply N.eqb_neq | apply N.ltb_ge]; lia.
Qed.

(** A quoted string is read back up to its closing quotation mark. *)
Lemma parse_chars_quote_chars (s rest : jsstring) :
  parse_chars (quote_chars s ++ 34 :: rest) = Some (s, rest).
Proof.
  remember (List.length s) as n eqn:Hn.
  revert s Hn. induction n as [n IH] using lt_wf_ind. intros s Hn.
  destruct s as [|c s]; [reflexivity|].
  cbn [quote_chars].
  destruct (short_escape c) as [e|] eqn:Es.
  - destruct (short_escape_unescape c e Es) as [Hu He].
    cbn [app parse_chars].
    change (92 =? 34) with false. change (92 =? 92) with true. cbv iota.
    rewrite Hu, He.
    now rewrite (IH (List.length s)) by (subst n; simpl; try lia; reflexivity).
  - destruct (short_escape_None c Es) as [Hq Hb].
    destruct (c <? 32) eqn:Hlt.
    + apply N.ltb_lt in Hlt.
      rewrite <- app_assoc, parse_chars_unicode_escape by lia.
      now rewrite (IH (List.length s)) by (subst n; simpl; try lia; reflexivity).
    + destruct (is_high_surrogate c) eqn:Hh.
      * assert (Hc : c < 65536).
        { unfold is_high_surrogate in Hh. apply andb_true_iff in Hh as [_ Hh].
          apply N.leb_le in Hh. lia. }
        destruct s as [|d s'].
        -- now rewrite parse_chars_unicode_escape by exact Hc.
        -- destruct (is_low_surrogate d) eqn:Hl.
           ++ destruct (low_surrogate_literal d Hl) as (Hd1 & Hd2 & Hd3).
              cbn [app].
              rewrite (parse_chars_literal c _ Hq Hb Hlt).
              rewrite (parse_chars_literal d _ Hd1 Hd2 Hd3).
              now rewrite (IH (List.length s')) by (subst n; simpl; try lia; reflexivity).
           ++ rewrite <- app_assoc, parse_chars_unicode_escape by exact Hc.
              now rewrite (IH (List.length (d :: s')))
                by (subst n; simpl; try lia; reflexivity).
      * destruct (is_low_surrogate c) eqn:Hl.
        -- assert (Hc : c < 65536).
           { unfold is_low_surrogate in Hl. apply andb_true_iff in Hl as [_ Hl].
             apply N.leb_le in Hl. lia. }
           rewrite <- app_assoc, parse_chars_unicode_escape by exact Hc.
           now rewrite (IH (List.length s)) by (subst n; simpl; try lia; reflexivity).
        -- cbn [app]. rewrite (parse_chars_literal c _ Hq Hb Hlt).
           now rewrite (IH (List.length s)) by (subst n; simpl; try lia; reflexivity).
Qed.

Ltac break_match H :=
  match type of H with
  | context [match ?x with _ => _ end] =>
      let E := fresh "E" in destruct x eqn:E; try discriminate H
  end.

Lemma skip_ws_length (s : jsstring) :
  (List.length (skip_ws s) <= List.length s)%nat.
Proof.
  induction s as [|c s IH]; simpl; [lia|].
  destruct (is_ws c); simpl; lia.
Qed.

Lemma skip_ws_cons_length (s r : jsstring) (c : code_unit) :
  skip_ws s = c :: r -> (List.length r < List.length s)%nat.
Proof.
  intros H. pose proof (skip_ws_length s) as L. rewrite H in L. simpl in L. lia.
Qed.

Lemma parse_chars_consumes : consumes parse_chars.
Proof.
  intros s. remember (List.length s) as n eqn:Hn.
  revert s Hn. induction n as [n IH] using lt_wf_ind. intros s Hn t rest H.
  destruct s as [|c r]; [discriminate H|].
  cbn [parse_chars] in H.
  destruct (c =? 34).
  { injection H as _ <-. subst n. simpl. lia. }
  destruct (c =? 92).
  - destruct r as [|e r1]; [discriminate H|].
    destruct (e =? 117).
    + destruct r1 as [|h1 [|h2 [|h3 [|h4 r2]]]]; try discriminate H.
      repeat break_match H.
      injection H as _ <-.
      match goal with
      | E : parse_chars r2 = Some _ |- _ =>
          apply (IH (List.length r2)) in E; [|subst n; simpl; lia | reflexivity]
      end.
      subst n. simpl. lia.
    + repeat break_match H.
      injection H as _ <-.
      match goal with
      | E : parse_chars r1 = Some _ |- _ =>
          apply (IH (List.length r1)) in E; [|subst n; simpl; lia | reflexivity]
      end.
      subst n. simpl. lia.
  - repeat break_match H.
    injection H as _ <-.
    match goal with
    | E : parse_chars r = Some _ |- _ =>
        apply (IH (List.length r)) in E; [|subst n; simpl; lia | reflexivity]
    end.
    subst n. simpl. lia.
Qed.

Lemma span_digits_length (s : jsstring) :
  (List.length (snd (span_digits s)) <= List.length s)%nat.
Proof.
  induction s as [|c s IH]; simpl; [lia|].
  destruct (is_digit c); [|simpl; lia].
  destruct (span_digits s) as [ds rest]. simpl in *. lia.
Qed.

Lemma strip_prefix_length (p s rest : jsstring) :
  strip_prefix p s = Some rest ->
  (List.length rest + List.length p = List.length s)%nat.
Proof.
  revert s. induction p as [|x p IH]; intros s H; simpl in H.
  - injection H as <-. simpl. lia.
  - destruct s as [|y s]; [discriminate H|].
    destruct (x =? y); [|discriminate H].
    apply IH in H. simpl. lia.
Qed.

Lemma parse_int_part_consumes : consumes parse_int_part.
Proof.
  intros s ds rest H. unfold parse_int_part in H.
  destruct s as [|c r]; [discriminate H|].
  destruct (c =? 48).
  { injection H as _ <-. simpl. lia. }
  destruct (is_digit c) eqn:Hd; [|discriminate H].
  injection H as H. cbn [span_digits] in H. rewrite Hd in H.
  pose proof (span_digits_length r) as L.
  destruct (span_digits r) as [ds' rest']. injection H as _ <-. simpl in *. lia.
Qed.

Lemma parse_frac_part_length (s rest : jsstring) (ds : list N) :
  parse_frac_part s = Some (ds, rest) -> (List.length rest <= List.length s)%nat.
Proof.
  unfold parse_frac_part. intros H.
  destruct s as [|c r]; [injection H as _ <-; simpl; lia|].
  destruct (c =? 46).
  - pose proof (span_digits_length r) as L.
    destruct (span_digits r) as [[|d ds'] rest']; [discriminate H|].
    injection H as _ <-. simpl in *. lia.
  - injection H as _ <-. simpl. lia.
Qed.

Lemma parse_exp_digits_length (negative : bool) (s rest : jsstring) (e : Z) :
  parse_exp_digits negative s = Some (e, rest) ->
  (List.length rest <= List.length s)%nat.
Proof.
  unfold parse_exp_digits. intros H.
  pose proof (span_digits_length s) as L.
  destruct (span_digits s) as [[|d ds'] rest']; [discriminate H|].
  injection H as _ <-. simpl in *. lia.
Qed.

Lemma parse_exp_part_length (s rest : jsstring) (e : Z) :
  parse_exp_part s = Some (e, rest) -> (List.length rest <= List.length s)%nat.
Proof.
  unfold parse_exp_part. intros H.
  destruct s as [|c r]; [injection H as _ <-; simpl; lia|].
  destruct ((c =? 101) || (c =? 69)).
  - destruct r as [|sg r']; [discriminate H|].
    destruct (sg =? 43); [apply parse_exp_digits_length in H; simpl; lia|].
    destruct (sg =? 45); [apply parse_exp_digits_length in H; simpl; lia|].
    apply parse_exp_digits_length in H. simpl in *. lia.
  - injection H as _ <-. simpl. lia.
Qed.

Lemma parse_number_consumes : consumes parse_number.
Proof.
  intros s n rest H. unfold parse_number in H.
  destruct (match s with
            | [] => (false, [])
            | c :: r => if c =? 45 then (true, r) else (false, s)
            end) as [negative s1] eqn:Es.
  assert (L1 : (List.length s1 <= List.length s)%nat).
  { destruct s as [|c r]; [injection Es as _ <-; simpl; lia|].
    destruct (c =? 45); injection Es as _ <-; simpl; lia. }
  destruct (parse_int_part s1) as [[int_digits s2]|] eqn:Ei; [|discriminate H].
  apply parse_int_part_consumes in Ei.
  destruct (parse_frac_part s2) as [[frac_digits s3]|] eqn:Ef; [|discriminate H].
  apply parse_frac_part_length in Ef.
  destruct (parse_exp_part s3) as [[e rest']|] eqn:Ee; [|discriminate H].
  apply parse_exp_part_length in Ee.
  injection H as _ <-. lia.
Qed.

Lemma value_step_consumes elements members :
  consumes elements -> consumes members -> consumes (value_step elements members).
Proof.
  intros He Hm s v rest H. unfold value_step in H.
  destruct (skip_ws s) as [|c r] eqn:Es; [discriminate H|].
  apply skip_ws_cons_length in Es.
  destruct (c =? 123).
  { destruct (skip_ws r) as [|c' r'] eqn:Er; [discriminate H|].
    apply skip_ws_cons_length in Er.
    destruct (c' =? 125); [injection H as _ <-; lia|].
    destruct (members r) as [[ms rest']|] eqn:Em; [|discriminate H].
    apply Hm in Em. injection H as _ <-. lia. }
  destruct (c =? 91).
  { destruct (skip_ws r) as [|c' r'] eqn:Er; [discriminate H|].
    apply skip_ws_cons_length in Er.
    destruct (c' =? 93); [injection H as _ <-; lia|].
    destruct (elements r) as [[items rest']|] eqn:Ee; [|discriminate H].
    apply He in Ee. injection H as _ <-. lia. }
  destruct (c =? 34).
  { destruct (parse_chars r) as [[t rest']|] eqn:Ec; [|discriminate H].
    apply parse_chars_consumes in Ec. injection H as _ <-. lia. }
  destruct ((c =? 45) || is_digit c).
  { destruct (parse_number (c :: r)) as [[n rest']|] eqn:En; [|discriminate H].
    apply parse_number_consumes in En. injection H as _ <-. simpl in En. lia. }
  destruct (strip_prefix (js "true") (c :: r)) as [rest'|] eqn:E1.
  { apply strip_prefix_length in E1. injection H as _ <-. simpl in E1. lia. }
  destruct (strip_prefix (js "false") (c :: r)) as [rest'|] eqn:E2.
  { apply strip_prefix_length in E2. injection H as _ <-. simpl in E2. lia. }
  destruct (strip_prefix (js "null") (c :: r)) as [rest'|] eqn:E3; [|discriminate H].
  apply strip_prefix_length in E3. injection H as _ <-. simpl in E3. lia.
Qed.

Lemma elements_step_consumes value elements :
  consumes value -> consumes elements -> consumes (elements_step value elements).
Proof.
  intros Hv He s items rest H. unfold elements_step in H.
  destruct (value s) as [[v r]|] eqn:Ev; [|discriminate H].
  apply Hv in Ev.
  destruct (skip_ws r) as [|c r'] eqn:Er; [discriminate H|].
  apply skip_ws_cons_length in Er.
  destruct (c =? 44).
  - destruct (elements r') as [[items' rest']|] eqn:Ee; [|discriminate H].
    apply He in Ee. injection H as _ <-. lia.
  - destruct (c =? 93); [|discriminate H]. injection H as _ <-. lia.
Qed.

Lemma members_step_consumes value members :
  consumes value -> consumes members -> consumes (members_step value members).
Proof.
  intros Hv Hm s ms rest H. unfold members_step in H.
  destruct (skip_ws s) as [|c r] eqn:Es; [discriminate H|].
  apply skip_ws_cons_length in Es.
  destruct (c =? 34); [|discriminate H].
  destruct (parse_chars r) as [[k r1]|] eqn:Ec; [|discriminate H].
  apply parse_chars_consumes in Ec.
  destruct (skip_ws r1) as [|c1 r2] eqn:E1; [discriminate H|].
  apply skip_ws_cons_length in E1.
  destruct (c1 =? 58); [|discriminate H].
  destruct (value r2) as [[v r3]|] eqn:Ev; [|discriminate H].
  apply Hv in Ev.
  destruct (skip_ws r3) as [|c3 r4] eqn:E3; [discriminate H|].
  apply skip_ws_cons_length in E3.
  destruct (c3 =? 44).
  - destruct (members r4) as [[ms' rest']|] eqn:Em; [|discriminate H].
    apply Hm in Em. injection H as _ <-. lia.
  - destruct (c3 =? 125); [|discriminate H]. injection H as _ <-. lia.
Qed.

(** Every successful call of the parser makes progress. *)
Lemma parse_consumes (fuel : nat) :
  consumes (parse_value fuel) /\ consumes (parse_elements fuel)
  /\ consumes (parse_members fuel).
Proof.
  induction fuel as [|fuel (IHv & IHe & IHm)].
  - repeat split; intros s a rest H; discriminate H.
  - repeat split; intros s a rest H;
      cbn [parse_value parse_elements parse_members] in H.
    + exact (value_step_consumes _ _ IHe IHm s a rest H).
    + exact (elements_step_consumes _ _ IHv IHe s a rest H).
    + exact (members_step_consumes _ _ IHv IHm s a rest H).
Qed.

Lemma value_step_extends elements elements' members members' (s : jsstring) x :
  extends_below (List.length s) elements elements' ->
  extends_below (List.length s) members members' ->
  value_step elements members s = Some x ->
  value_step elements' members' s = Some x.
Proof.
  intros He Hm H. unfold value_step in *.
  destruct (skip_ws s) as [|c r] eqn:Es; [discriminate H|].
  apply skip_ws_cons_length in Es.
  destruct (c =? 123).
  { destruct (skip_ws r) as [|c' r'] eqn:Er; [discriminate H|].
    destruct (c' =? 125); [exact H|].
    destruct (members r) as [[ms rest']|] eqn:Em; [|discriminate H].
    now rewrite (Hm r _ Es Em). }
  destruct (c =? 91); [|exact H].
  destruct (skip_ws r) as [|c' r'] eqn:Er; [discriminate H|].
  destruct (c' =? 93); [exact H|].
  destruct (elements r) as [[items rest']|] eqn:Ee; [|discriminate H].
  now rewrite (He r _ Es Ee).
Qed.

Lemma elements_step_extends value value' elements elements' (s : jsstring) x :
  (forall y, value s = Some y -> value' s = Some y) ->
  (forall a r, value s = Some (a, r) -> (List.length r < List.length s)%nat) ->
  extends_below (List.length s) elements elements' ->
  elements_step value elements s = Some x ->
  elements_step value' elements' s = Some x.
Proof.
  intros Hv Hc He H. unfold elements_step in *.
  destruct (value s) as [[v r]|] eqn:Ev; [|discriminate H].
  rewrite (Hv _ eq_refl). specialize (Hc v r eq_refl).
  destruct (skip_ws r) as [|c r'] eqn:Er; [discriminate H|].
  apply skip_ws_cons_length in Er.
  destruct (c =? 44); [|exact H].
  destruct (elements r') as [[items rest']|] eqn:Ee; [|discriminate H].
  now rewrite (He r' _ ltac:(lia) Ee).
Qed.

Lemma members_step_extends value value' members members' (s : jsstring) x :
  extends_below (List.length s) value value' ->
  consumes value ->
  extends_below (List.length s) members members' ->
  members_step value members s = Some x ->
  members_step value' members' s = Some x.
Proof.
  intros Hv Hc Hm H. unfold members_step in *.
  destruct (skip_ws s) as [|c r] eqn:Es; [discriminate H|].
  apply skip_ws_cons_length in Es.
  destruct (c =? 34); [|discriminate H].
  destruct (parse_chars r) as [[k r1]|] eqn:Ec; [|discriminate H].
  apply parse_chars_consumes in Ec.
  destruct (skip_ws r1) as [|c1 r2] eqn:E1; [discriminate H|].
  apply skip_ws_cons_length in E1.
  destruct (c1 =? 58); [|discriminate H].
  destruct (value r2) as [[v r3]|] eqn:Ev; [|discriminate H].
  rewrite (Hv r2 _ ltac:(lia) Ev). apply Hc in Ev.
  destruct (skip_ws r3) as [|c3 r4] eqn:E3; [discriminate H|].
  apply skip_ws_cons_length in E3.
  destruct (c3 =? 44); [|exact H].
  destruct (members r4) as [[ms rest']|] eqn:Em; [|discriminate H].
  now rewrite (Hm r4 _ ltac:(lia) Em).
Qed.

(** The answer of the parser does not depend on the fuel, once there is
    enough of it: what some fuel parses, twice the length of the input (and
    two more) parses the same way. *)
Lemma parse_fuel_enough (fuel : nat) :
  (forall s x f, parse_value fuel s = Some x ->
                 (2 * List.length s + 1 <= f)%nat -> parse_value f s = Some x) /\
  (forall s x f, parse_elements fuel s = Some x ->
                 (2 * List.length s + 2 <= f)%nat -> parse_elements f s = Some x) /\
  (forall s x f, parse_members fuel s = Some x ->
                 (2 * List.length s + 2 <= f)%nat -> parse_members f s = Some x).
Proof.
  induction fuel as [|fuel (IHv & IHe & IHm)].
  - repeat split; intros s x f H; discriminate H.
  - destruct (parse_consumes fuel) as (Cv & Ce & Cm).
    repeat split; intros s x f H Hf;
      (destruct f as [|f]; [lia|]);
      cbn [parse_value parse_elements parse_members] in *.
    + apply (value_step_extends _ _ _ _ s x) with (3 := H).
      * intros r y Hr E. apply (IHe r y f E). lia.
      * intros r y Hr E. apply (IHm r y f E). lia.
    + apply (elements_step_extends _ _ _ _ s x) with (4 := H).
      * intros y E. apply (IHv s y f E). lia.
      * intros a r E. exact (Cv s a r E).
      * intros r y Hr E. apply (IHe r y f E). lia.
    + apply (members_step_extends _ _ _ _ s x) with (4 := H).
      * intros r y Hr E. apply (IHv r y f E). lia.
      * exact Cv.
      * intros r y Hr E. apply (IHm r y f E). lia.
Qed.

Lemma parse_fuel_monotone (fuel : nat) :
  (forall s x f, parse_value fuel s = Some x -> (fuel <= f)%nat ->
                 parse_value f s = Some x) /\
  (forall s x f, parse_elements fuel s = Some x -> (fuel <= f)%nat ->
                 parse_elements f s = Some x) /\
  (forall s x f, parse_members fuel s = Some x -> (fuel <= f)%nat ->
                 parse_members f s = Some x).
Proof.
  induction fuel as [|fuel (IHv & IHe & IHm)].
  - repeat split; intros s x f H; discriminate H.
  - destruct (parse_consumes fuel) as (Cv & Ce & Cm).
    repeat split; intros s x f H Hf;
      (destruct f as [|f]; [lia|]);
      cbn [parse_value parse_elements parse_members] in *.
    + apply (value_step_extends _ _ _ _ s x) with (3 := H).
      * intros r y Hr E. apply (IHe r y f E). lia.
      * intros r y Hr E. apply (IHm r y f E). lia.
    + apply (elements_step_extends _ _ _ _ s x) with (4 := H).
      * intros y E. apply (IHv s y f E). lia.
      * intros a r E. exact (Cv s a r E).
      * intros r y Hr E. apply (IHe r y f E). lia.
    + apply (members_step_extends _ _ _ _ s x) with (4 := H).
      * intros r y Hr E. apply (IHv r y f E). lia.
      * exact Cv.
      * intros r y Hr E. apply (IHm r y f E). lia.
Qed.

(** [parse] accepts every text that the descent accepts with some fuel. *)
Lemma parse_complete (fuel : nat) (text rest : jsstring) (v : jsval) :
  parse_value fuel text = Some (v, rest) -> skip_ws rest = [] ->
  parse text = Some v.
Proof.
  intros H Hr. unfold parse.
  rewrite (proj1 (parse_fuel_enough fuel) text (v, rest) _ H) by lia.
  now rewrite Hr.
Qed.

Lemma jsval_nested_ind (P : jsval -> Prop) :
  P JUndefined -> P JNull -> (forall b, P (JBool b)) -> (forall n, P (JNum n)) ->
  (forall s, P (JStr s)) ->
  (forall items, Forall P items -> P (JArr items)) ->
  (forall props, Forall (fun kv => P (snd kv)) props -> P (JObj props)) ->
  forall v, P v.
Proof.
  intros HU HN HB HNum HS HA HO.
  fix self 1. intros [ | | b | n | s | items | props].
  - exact HU.
  - exact HN.
  - apply HB.
  - apply HNum.
  - apply HS.
  - apply HA. revert items. fix each 1. intros [|x items].
    + constructor.
    + constructor; [apply self | apply each].
  - apply HO. revert props. fix each 1. intros [|[k x] props].
    + constructor.
    + constructor; [apply self | apply each].
Qed.

Lemma in_order_goes_before (a b : jsstring) :
  in_order a b = true -> goes_before b a = false.
Proof.
  unfold in_order, goes_before.
  destruct (array_index a) as [n|], (array_index b) as [m|];
    try reflexivity; try discriminate.
  intros H. apply N.ltb_lt in H. apply N.ltb_ge. lia.
Qed.

Lemma insert_prop_last (k : jsstring) (v : jsval) (props : list (jsstring * jsval)) :
  (forall k', In k' (map fst props) -> in_order k' k = true) ->
  insert_prop k v props = props ++ [(k, v)].
Proof.
  induction props as [|[k' w] props IH]; intros H; simpl; [reflexivity|].
  rewrite (in_order_goes_before k' k) by (apply H; now left).
  rewrite IH; [reflexivity|]. intros k'' Hin. apply H. now right.
Qed.

Lemma set_prop_fresh (k : jsstring) (v : jsval) (props : list (jsstring * jsval)) :
  existsb (str_eqb k) (map fst props) = false ->
  (forall k', In k' (map fst props) -> in_order k' k = true) ->
  set_prop k v props = props ++ [(k, v)].
Proof.
  intros Hf Ho. unfold set_prop. rewrite Hf. now apply insert_prop_last.
Qed.

Lemma existsb_str_eqb_app (k : jsstring) (a b : list jsstring) :
  existsb (str_eqb k) (a ++ b) = existsb (str_eqb k) a || existsb (str_eqb k) b.
Proof. apply existsb_app. Qed.

Lemma distinct_app_fresh (a b : list jsstring) (k : jsstring) :
  distinct (a ++ k :: b) = true -> existsb (str_eqb k) a = false.
Proof.
  induction a as [|x a IH]; simpl; [reflexivity|].
  intros H. apply andb_true_iff in H as [Hx Hd]. apply negb_true_iff in Hx.
  rewrite existsb_str_eqb_app in Hx. apply orb_false_iff in Hx as [_ Hx].
  simpl in Hx. apply orb_false_iff in Hx as [Hx _].
  rewrite (IH Hd), orb_false_r.
  destruct (str_eqb k x) eqn:E; [|reflexivity].
  apply str_eqb_eq in E. subst x. now rewrite str_eqb_refl in Hx.
Qed.

Lemma ordered_app_before (a b : list jsstring) (k : jsstring) :
  ordered (a ++ k :: b) = true -> forall k', In k' a -> in_order k' k = true.
Proof.
  induction a as [|x a IH]; simpl; [intros _ k' []|].
  intros H k' [<-|Hin].
  - apply andb_true_iff in H as [Hx _].
    rewrite forallb_app in Hx. apply andb_true_iff in Hx as [_ Hx].
    simpl in Hx. now apply andb_true_iff in Hx as [Hx _].
  - apply andb_true_iff in H as [_ H]. now apply IH.
Qed.

Lemma fold_set_prop_distinct (members acc : list (jsstring * jsval)) :
  distinct (map fst (acc ++ members)) = true ->
  ordered (map fst (acc ++ members)) = true ->
  fold_left (fun props kv => set_prop (fst kv) (snd kv) props) members acc =
    acc ++ members.
Proof.
  revert acc. induction members as [|[k v] members IH]; intros acc Hd Ho; simpl.
  - now rewrite app_nil_r.
  - rewrite map_app in Hd, Ho. cbn [map fst] in Hd, Ho.
    rewrite set_prop_fresh.
    + rewrite IH; rewrite <- ?app_assoc; cbn [app]; try reflexivity;
        rewrite map_app; assumption.
    + exact (distinct_app_fresh _ _ _ Hd).
    + exact (ordered_app_before _ _ _ Ho).
Qed.

Lemma build_object_distinct (members : list (jsstring * jsval)) :
  distinct (map fst members) = true -> ordered (map fst members) = true ->
  build_object members = members.
Proof.
  intros Hd Ho. unfold build_object.
  now rewrite fold_set_prop_distinct.
Qed.

Lemma skip_ws_opens (t rest : jsstring) :
  opens_value t -> skip_ws (t ++ rest) = t ++ rest.
Proof. intros (c & t' & -> & Hw & _). simpl. now rewrite Hw. Qed.

Lemma parse_value_more (fuel fuel' : nat) (s : jsstring) x :
  parse_value fuel s = Some x -> (fuel <= fuel')%nat -> parse_value fuel' s = Some x.
Proof. intros H. exact (proj1 (parse_fuel_monotone fuel) s x fuel' H). Qed.

Lemma parse_elements_more (fuel fuel' : nat) (s : jsstring) x :
  parse_elements fuel s = Some x -> (fuel <= fuel')%nat -> parse_elements fuel' s = Some x.
Proof. intros H. exact (proj1 (proj2 (parse_fuel_monotone fuel)) s x fuel' H). Qed.

Lemma parse_members_more (fuel fuel' : nat) (s : jsstring) x :
  parse_members fuel s = Some x -> (fuel <= fuel')%nat -> parse_members fuel' s = Some x.
Proof. intros H. exact (proj2 (proj2 (parse_fuel_monotone fuel)) s x fuel' H). Qed.

Lemma reads_back_element_text (v : jsval) :
  reads_back v ->
  opens_value (element_text v) /\
  exists fuel, forall rest, parse_value fuel (element_text v ++ rest) = Some (v, rest).
Proof.
  intros (t & Ht & Ho & Hp). unfold element_text. rewrite Ht. now split.
Qed.

(** The elements of a written array, up to the closing bracket. *)
Lemma elements_read_back (v : jsval) (items : list jsval) :
  Forall reads_back (v :: items) ->
  exists fuel, forall rest,
    parse_elements fuel (join [44] (map element_text (v :: items)) ++ 93 :: rest) =
      Some (v :: items, rest).
Proof.
  revert v. induction items as [|w items IH]; intros v Hall.
  - apply Forall_inv in Hall.
    destruct (reads_back_element_text v Hall) as (_ & fuel & Hp).
    exists (S fuel). intros rest. cbn [parse_elements map join].
    unfold elements_step. rewrite Hp. reflexivity.
  - pose proof (Forall_inv Hall) as Hv. apply Forall_inv_tail in Hall.
    destruct (reads_back_element_text v Hv) as (_ & f1 & Hp).
    destruct (IH w Hall) as (f2 & Hq).
    exists (S (Nat.max f1 f2)). intros rest.
    cbn [parse_elements]. unfold elements_step.
    change (join [44] (map element_text (v :: w :: items)))
      with (element_text v ++ [44] ++ join [44] (map element_text (w :: items))).
    rewrite <- !app_assoc.
    rewrite (parse_value_more f1 _ _ _ (Hp _)) by lia.
    cbn [app skip_ws]. change (is_ws 44) with false. cbv iota.
    change (44 =? 44) with true. cbv iota.
    now rewrite (parse_elements_more f2 _ _ _ (Hq rest)) by lia.
Qed.

(** The members of a written object, up to the closing brace. *)
Lemma members_read_back (kv : jsstring * jsval) (props : list (jsstring * jsval)) :
  Forall (fun p => reads_back (snd p)) (kv :: props) ->
  exists fuel, forall rest,
    parse_members fuel (join [44] (map member_text (kv :: props)) ++ 125 :: rest) =
      Some (kv :: props, rest).
Proof.
  revert kv. induction props as [|kw props IH]; intros [k v] Hall.
  - apply Forall_inv in Hall. simpl in Hall.
    destruct (reads_back_element_text v Hall) as (Ho & fuel & Hp).
    exists (S fuel). intros rest. cbn [parse_members map join].
    unfold members_step, member_text, QuoteJSONString. cbn [fst snd].
    rewrite <- !app_assoc. cbn [app skip_ws].
    rewrite <- !app_assoc. cbn [app skip_ws].
    change (is_ws 34) with false. cbv iota. change (34 =? 34) with true. cbv iota.
    rewrite parse_chars_quote_chars.
    cbn [skip_ws]. change (is_ws 58) with false. cbv iota.
    change (58 =? 58) with true. cbv iota.
    rewrite Hp. reflexivity.
  - pose proof (Forall_inv Hall) as Hv. simpl in Hv. apply Forall_inv_tail in Hall.
    destruct (reads_back_element_text v Hv) as (Ho & f1 & Hp).
    destruct (IH kw Hall) as (f2 & Hq).
    exists (S (Nat.max f1 f2)). intros rest.
    cbn [parse_members]. unfold members_step.
    change (join [44] (map member_text ((k, v) :: kw :: props)))
      with (member_text (k, v) ++ [44] ++ join [44] (map member_text (kw :: props))).
    unfold member_text at 1, QuoteJSONString. cbn [fst snd].
    rewrite <- !app_assoc. cbn [app skip_ws].
    rewrite <- !app_assoc. cbn [app skip_ws].
    change (is_ws 34) with false. cbv iota. change (34 =? 34) with true. cbv iota.
    rewrite parse_chars_quote_chars.
    cbn [skip_ws]. change (is_ws 58) with false. cbv iota.
    change (58 =? 58) with true. cbv iota.
    rewrite (parse_value_more f1 _ _ _ (Hp _)) by lia.
    cbn [skip_ws]. change (is_ws 44) with false. cbv iota.
    change (44 =? 44) with true. cbv iota.
    now rewrite (parse_members_more f2 _ _ _ (Hq rest)) by lia.
Qed.

Lemma members_written (props : list (jsstring * jsval)) :
  Forall (fun kv => reads_back (snd kv)) props ->
  flat_map (fun kv =>
              match stringify (snd kv) with
              | Some t => [QuoteJSONString (fst kv) ++ 58 :: t]
              | None => []
              end) props =
    map member_text props.
Proof.
  induction 1 as [|[k v] props (t & Ht & _) _ IH]; [reflexivity|].
  cbn [flat_map map]. rewrite IH. unfold member_text, element_text.
  cbn [fst snd] in *. now rewrite Ht.
Qed.

Lemma opens_value_app (t u : jsstring) : opens_value t -> opens_value (t ++ u).
Proof.
  intros (c & t' & -> & H). exists c, (t' ++ u). now split.
Qed.

Lemma join_cons_opens (sep : jsstring) (p : jsstring) (parts : list jsstring) :
  opens_value p -> opens_value (join sep (p :: parts)).
Proof.
  intros H. destruct parts as [|q parts]; [exact H|].
  cbn [join]. now apply opens_value_app.
Qed.

Lemma Forall_plain_reads_back (items : list jsval) :
  Forall (fun v => plain v = true -> reads_back v) items ->
  forallb plain items = true -> Forall reads_back items.
Proof.
  induction 1 as [|v items Hv _ IH]; intros Hp; [constructor|].
  simpl in Hp. apply andb_true_iff in Hp as [H1 H2]. constructor; auto.
Qed.

Lemma Forall_plain_members_read_back (props : list (jsstring * jsval)) :
  Forall (fun kv => plain (snd kv) = true -> reads_back (snd kv)) props ->
  forallb (fun kv => plain (snd kv)) props = true ->
  Forall (fun kv => reads_back (snd kv)) props.
Proof.
  induction 1 as [|kv props Hv _ IH]; intros Hp; [constructor|].
  simpl in Hp. apply andb_true_iff in Hp as [H1 H2]. constructor; auto.
Qed.

(** Every plain value is written by [stringify] and read back by the
    descent. *)
Lemma plain_reads_back (v : jsval) : plain v = true -> reads_back v.
Proof.
  induction v as [ | | b | n | s | items IH | props IH] using jsval_nested_ind;
    intros Hp; try discriminate Hp.
  - exists (js "null"). split; [reflexivity|]. split.
    + exists 110, (js "ull"). repeat split; reflexivity.
    + exists 1%nat. intros rest. reflexivity.
  - destruct b.
    + exists (js "true"). split; [reflexivity|]. split.
      * exists 116, (js "rue"). repeat split; reflexivity.
      * exists 1%nat. intros rest. reflexivity.
    + exists (js "false"). split; [reflexivity|]. split.
      * exists 102, (js "alse"). repeat split; reflexivity.
      * exists 1%nat. intros rest. reflexivity.
  - exists (QuoteJSONString s). split; [reflexivity|]. split.
    + exists 34, (quote_chars s ++ [34]). repeat split; reflexivity.
    + exists 1%nat. intros rest.
      unfold QuoteJSONString. cbn [parse_value]. unfold value_step.
      cbn [app skip_ws]. change (is_ws 34) with false. cbv iota.
      change (34 =? 123) with false. change (34 =? 91) with false.
      change (34 =? 34) with true. cbv iota.
      rewrite <- app_assoc. cbn [app].
      now rewrite parse_chars_quote_chars.
  - cbn [plain] in Hp. pose proof (Forall_plain_reads_back items IH Hp) as Hall.
    destruct items as [|v items].
    + exists (js "[]"). split; [reflexivity|]. split.
      * exists 91, (js "]"). repeat split; reflexivity.
      * exists 1%nat. intros rest. reflexivity.
    + destruct (elements_read_back v items Hall) as (fuel & Hq).
      exists (91 :: join [44] (map element_text (v :: items)) ++ [93]).
      split; [reflexivity|]. split.
      * exists 91, (join [44] (map element_text (v :: items)) ++ [93]). repeat split; reflexivity.
      * exists (S fuel). intros rest.
        cbn [parse_value]. unfold value_step.
        cbn [app skip_ws]. change (is_ws 91) with false. cbv iota.
        change (91 =? 123) with false. change (91 =? 91) with true. cbv iota.
        rewrite <- app_assoc. cbn [app].
        assert (Ho : opens_value (join [44] (map element_text (v :: items)))).
        { apply join_cons_opens.
          apply (reads_back_element_text v (Forall_inv Hall)). }
        rewrite (skip_ws_opens _ _ Ho).
        pose proof Ho as (c & t' & Et & _ & H93 & _).
        rewrite Et at 1. cbn [app]. rewrite H93.
        now rewrite Hq.
  - cbn [plain] in Hp. apply andb_true_iff in Hp as [Hp Hd].
    apply andb_true_iff in Hd as [Hd Hord].
    pose proof (Forall_plain_members_read_back props IH Hp) as Hall.
    destruct props as [|kv props].
    + exists (js "{}"). split; [reflexivity|]. split.
      * exists 123, (js "}"). repeat split; reflexivity.
      * exists 1%nat. intros rest. reflexivity.
    + destruct (members_read_back kv props Hall) as (fuel & Hq).
      exists (123 :: join [44] (map member_text (kv :: props)) ++ [125]).
      split; [|split].
      * cbn [stringify]. now rewrite (members_written _ Hall).
      * exists 123, (join [44] (map member_text (kv :: props)) ++ [125]). repeat split; reflexivity.
      * exists (S fuel). intros rest.
        cbn [parse_value]. unfold value_step.
        cbn [app skip_ws]. change (is_ws 123) with false. cbv iota.
        change (123 =? 123) with true. cbv iota.
        rewrite <- app_assoc. cbn [app].
        assert (Ho : opens_value (join [44] (map member_text (kv :: props)))).
        { apply join_cons_opens. exists 34, (quote_chars (fst kv) ++ [34] ++ 58 :: element_text (snd kv)).
          split; [|repeat split; reflexivity].
          unfold member_text, QuoteJSONString. cbn [app]. now rewrite <- app_assoc. }
        rewrite (skip_ws_opens _ _ Ho).
        pose proof Ho as (c & t' & Et & _ & _ & H125).
        rewrite Et at 1. cbn [app]. rewrite H125.
        rewrite Hq. now rewrite (build_object_distinct _ Hd Hord).
Qed.

(** [JSON.parse(JSON.stringify(v))] is [v], for every plain value. *)
Lemma parse_stringify (v : jsval) :
  plain v = true -> exists t, stringify v = Some t /\ parse t = Some v.
Proof.
  intros Hp. destruct (plain_reads_back v Hp) as (t & Ht & _ & fuel & Hf).
  exists t. split; [exact Ht|].
  apply (parse_complete fuel t [] v); [|reflexivity].
  specialize (Hf []). now rewrite app_nil_r in Hf.
Qed.

End JSONFacts.

(** *** The dashboard *)

Section PageFacts.
Import Page.
Context {engine : Engine}.

Lemma getItem_setItem (key value : jsstring) (st : Storage) :
  getItem key (setItem key value st) = Some value.
Proof.
  induction st as [|[k v] st IH]; simpl.
  - now rewrite str_eqb_refl.
  - destruct (str_eqb key k) eqn:E; simpl; now rewrite E.
Qed.

Lemma PlatformFilter_of_text_text (p : PlatformFilter) :
  PlatformFilter_of_text (PlatformFilter_text p) = Some p.
Proof. destruct p as [|[|]]; reflexivity. Qed.

Lemma Channel_of_text_text (c : Channel) : Channel_of_text (Channel_text c) = Some c.
Proof. destruct c; reflexivity. Qed.

Lemma AutomationStatus_of_text_text (st : AutomationStatus) :
  AutomationStatus_of_text (AutomationStatus_text st) = Some st.
Proof. destruct st; reflexivity. Qed.

Lemma distinct_NoDup (keys : list jsstring) : JSON.distinct keys = true <-> NoDup keys.
Proof.
  induction keys as [|k keys IH]; simpl.
  - split; [constructor | reflexivity].
  - rewrite andb_true_iff, negb_true_iff, IH. split.
    + intros [Hk Hd]. constructor; [|exact Hd].
      intros Hin. assert (X : existsb (str_eqb k) keys = true).
      { apply existsb_exists. exists k. split; [exact Hin | apply str_eqb_refl]. }
      congruence.
    + intros Hnd. inversion Hnd as [|? ? Hk Hd]; subst. split; [|exact Hd].
      destruct (existsb (str_eqb k) keys) eqn:E; [|reflexivity].
      apply existsb_exists in E as (k' & Hin & Heq).
      apply str_eqb_eq in Heq. now subst.
Qed.

Lemma lookup_In (k : jsstring) (v : jsval) (props : list (jsstring * jsval)) :
  NoDup (map fst props) -> In (k, v) props -> lookup k props = Some v.
Proof.
  induction props as [|[k' w] props IH]; intros Hnd Hin; [contradiction|].
  simpl in *. inversion Hnd as [|? ? Hk Hd]; subst.
  destruct Hin as [[= -> ->]|Hin].
  - now rewrite str_eqb_refl.
  - destruct (str_eqb k k') eqn:E; [|now apply IH].
    apply str_eqb_eq in E. subst k'.
    exfalso. apply Hk. now apply (in_map fst) in Hin.
Qed.

Lemma rule_props_distinct (r : AutomationRule.t) :
  JSON.distinct (map fst (rule_props r)) = true.
Proof. reflexivity. Qed.

(** The reading of a rule object from its seven properties. *)
Lemma rule_of_js_props (r : AutomationRule.t) (props : list (jsstring * jsval)) :
  List.length props = 7%nat ->
  (forall k v, In (k, v) (rule_props r) -> lookup k props = Some v) ->
  rule_of_js (JObj props) = Some r.
Proof.
  intros Hlen Hlook.
  destruct r as [id name platform channel trigger response status].
  unfold rule_of_js, string_prop. rewrite Hlen. cbn [Nat.eqb].
  rewrite (Hlook (js "id") (JStr id)) by (simpl; auto).
  rewrite (Hlook (js "name") (JStr name)) by (simpl; auto).
  rewrite (Hlook (js "platform") (JStr (PlatformFilter_text platform)))
    by (simpl; auto).
  rewrite (Hlook (js "channel") (JStr (Channel_text channel))) by (simpl; auto 10).
  rewrite (Hlook (js "trigger") (JStr trigger)) by (simpl; auto 10).
  rewrite (Hlook (js "response") (JStr response)) by (simpl; auto 10).
  rewrite (Hlook (js "status") (JStr (AutomationStatus_text status)))
    by (simpl; auto 10).
  cbn [obind].
  now rewrite PlatformFilter_of_text_text, Channel_of_text_text,
    AutomationStatus_of_text_text.
Qed.

(** Keys none of which is an array index stand in any order. *)
Lemma ordered_names (keys : list jsstring) :
  (forall k, In k keys -> array_index k = None) -> ordered keys = true.
Proof.
  induction keys as [|k keys IH]; intros H; [reflexivity|].
  cbn [ordered]. apply andb_true_iff. split.
  - apply forallb_forall. intros k' Hin. unfold in_order.
    rewrite (H k) by now left. now rewrite (H k') by now right.
  - apply IH. intros k' Hin. apply H. now right.
Qed.

Lemma holds_rule_NoDup (r : AutomationRule.t) (props : list (jsstring * jsval)) :
  Permutation (rule_props r) props -> NoDup (map fst props).
Proof.
  intros Hperm.
  apply (Permutation_NoDup (Permutation_map fst Hperm)).
  apply distinct_NoDup, rule_props_distinct.
Qed.

(** A rule object is read as its rule, whatever the order of its
    properties. *)
Lemma rule_of_js_holds (r : AutomationRule.t) (o : jsval) :
  holds_rule r o -> rule_of_js o = Some r.
Proof.
  intros (props & -> & Hperm). apply rule_of_js_props.
  - now rewrite <- (Permutation_length Hperm).
  - intros k v Hin. apply lookup_In.
    + exact (holds_rule_NoDup r props Hperm).
    + exact (Permutation_in _ Hperm Hin).
Qed.

Lemma holds_rule_to_js (r : AutomationRule.t) : holds_rule r (rule_to_js r).
Proof. exists (rule_props r). split; [reflexivity | apply Permutation_refl]. Qed.

Lemma rule_of_js_to_js (r : AutomationRule.t) : rule_of_js (rule_to_js r) = Some r.
Proof. apply rule_of_js_holds, holds_rule_to_js. Qed.

Lemma all_rules_hold (rs : list AutomationRule.t) (objects : list jsval) :
  Forall2 holds_rule rs objects -> all_rules objects = Some rs.
Proof.
  induction 1 as [|r o rs objects Hr _ IH]; [reflexivity|].
  cbn [all_rules]. now rewrite (rule_of_js_holds r o Hr), IH.
Qed.

Lemma plain_holds_rule (r : AutomationRule.t) (o : jsval) :
  holds_rule r o -> JSON.plain o = true.
Proof.
  intros (props & -> & Hperm). cbn [JSON.plain]. apply andb_true_iff. split.
  - apply forallb_forall. intros [k v] Hin.
    apply (Permutation_in _ (Permutation_sym Hperm)) in Hin.
    simpl in Hin.
    repeat (destruct Hin as [[= <- <-]|Hin]; [reflexivity|]). contradiction.
  - apply andb_true_iff. split.
    + apply distinct_NoDup. exact (holds_rule_NoDup r props Hperm).
    + apply ordered_names. intros k Hin. apply in_map_iff in Hin as ([k' v] & <- & Hin).
      apply (Permutation_in _ (Permutation_sym Hperm)) in Hin.
      simpl in Hin.
      repeat (destruct Hin as [[= <- <-]|Hin]; [reflexivity|]). contradiction.
Qed.

Lemma plain_rule_objects (rs : list AutomationRule.t) (objects : list jsval) :
  Forall2 holds_rule rs objects -> JSON.plain (JArr objects) = true.
Proof.
  cbn [JSON.plain].
  induction 1 as [|r o rs objects Hr _ IH]; [reflexivity|].
  cbn [forallb]. now rewrite (plain_holds_rule r o Hr), IH.
Qed.

Lemma Forall2_holds_rule_to_js (rs : list AutomationRule.t) :
  Forall2 holds_rule rs (map rule_to_js rs).
Proof.
  induction rs as [|r rs IH]; constructor; [apply holds_rule_to_js | exact IH].
Qed.

Lemma rules_of_js_to_js (rs : list AutomationRule.t) :
  rules_of_js (rules_to_js rs) = Some rs.
Proof. apply all_rules_hold, Forall2_holds_rule_to_js. Qed.

(** The text [JSON.stringify] writes for an array of rule objects is read by
    the first effect as the rule list, whatever the order of the properties
    in each object. *)
Lemma load_effect_rule_objects
  (rs : list AutomationRule.t) (objects : list jsval) (st : Storage) :
  Forall2 holds_rule rs objects ->
  load_effect (setItem storage_key (stringify_or_undefined (JArr objects)) st) =
    SetRules rs.
Proof.
  intros Hall. unfold load_effect. rewrite getItem_setItem.
  destruct (parse_stringify (JArr objects) (plain_rule_objects rs objects Hall))
    as (t & Ht & Hp).
  unfold stringify_or_undefined. rewrite Ht.
  assert (Hne : is_empty t = false).
  { cbn [JSON.stringify] in Ht. now injection Ht as <-. }
  rewrite Hne, Hp. cbn [rules_of_js]. now rewrite (all_rules_hold rs objects Hall).
Qed.

Lemma load_effect_persist_effect (rs : list AutomationRule.t) (st : Storage) :
  load_effect (persist_effect rs st) = SetRules rs.
Proof.
  unfold persist_effect, rules_to_js.
  apply load_effect_rule_objects, Forall2_holds_rule_to_js.
Qed.

Lemma automations_select_first_effect (s : State) :
  automations (select_first_effect s) = automations s.
Proof.
  unfold select_first_effect.
  destruct (selectedMessage s); [reflexivity|].
  now destruct (filteredMessages s).
Qed.

Lemma messages_select_first_effect (s : State) :
  messages (select_first_effect s) = messages s.
Proof.
  unfold select_first_effect.
  destruct (selectedMessage s); [reflexivity|].
  now destruct (filteredMessages s).
Qed.

Lemma select_first_effect_initialState (sampleMessages : list SocialMessage.t) :
  select_first_effect (initialState sampleMessages) = initialState sampleMessages.
Proof.
  unfold select_first_effect, selectedMessage, filteredMessages.
  destruct sampleMessages as [|m l]; [reflexivity|].
  cbn [initialState messages selectedMessageId find].
  now rewrite str_eqb_refl.
Qed.

Lemma draft_complete (d : Draft.t) :
  Draft.name d <> [] -> Draft.trigger d <> [] -> Draft.response d <> [] ->
  is_empty (Draft.name d) || is_empty (Draft.trigger d) || is_empty (Draft.response d)
  = false.
Proof.
  destruct (Draft.name d), (Draft.trigger d), (Draft.response d);
    intros; try contradiction; reflexivity.
Qed.



(** C5: for every rule list held by the page and every draft with a
    non-empty name, trigger and response, after [addAutomation] (and the
    effect that stores the list) a reload of the page ends with the same rule
    list: the new rule first, then the former rules in their order. The
    text that is read back may list the properties of each rule in any
    order. *)
Theorem add_then_reload_same_rules
  (s : State) (st : Storage) (now : Z) (sampleMessages : list SocialMessage.t) :
  Draft.name (newAutomation s) <> [] ->
  Draft.trigger (newAutomation s) <> [] ->
  Draft.response (newAutomation s) <> [] ->
  let w := step (AddAutomation now) {| state := s; localStorage := st |} in
  automations (state w) =
    new_rule now (automationStatus s) (newAutomation s) :: automations s /\
  (exists reloaded,
      fst (mount sampleMessages (localStorage w)) = inl reloaded /\
      automations reloaded = automations (state w)) /\
  (forall objects st',
      Forall2 holds_rule (automations (state w)) objects ->
      exists reloaded,
        fst (mount sampleMessages
               (setItem storage_key (stringify_or_undefined (JArr objects)) st')) =
          inl reloaded /\
        automations reloaded = automations (state w)).
Proof.
  intros H1 H2 H3 w.
  assert (Ha : automations (state w) =
               new_rule now (automationStatus s) (newAutomation s) :: automations s).
  { unfold w, step. cbn [state handle]. rewrite automations_select_first_effect.
    unfold addAutomation. now rewrite (draft_complete _ H1 H2 H3). }
  split; [exact Ha|].
  assert (Hs : localStorage w = persist_effect (automations (state w)) st).
  { unfold w, step. cbn [state localStorage sets_automations].
    now rewrite (draft_complete _ H1 H2 H3). }
  split.
  - unfold mount. rewrite Hs, load_effect_persist_effect.
    eexists. split; [reflexivity|].
    now rewrite automations_select_first_effect.
  - intros objects st' Hall. unfold mount.
    rewrite (load_effect_rule_objects _ objects st' Hall).
    eexists. split; [reflexivity|].
    now rewrite automations_select_first_effect.
Qed.

(** C8: when the text stored under the key of the rules is not valid JSON,
    the first effect catches the failure of [JSON.parse] and sets nothing:
    the page is in its initial state, with the default rules and no feedback
    message, and the second effect has replaced the stored text by the
    default rules. *)
Theorem corrupted_payload_is_ignored
  (sampleMessages : list SocialMessage.t) (st : Storage) (storedAutomations : jsstring) :
  getItem storage_key st = Some storedAutomations ->
  JSON.parse storedAutomations = None ->
  load_effect st = Keep /\
  fst (mount sampleMessages st) = inl (initialState sampleMessages) /\
  automations (initialState sampleMessages) = initialAutomations /\
  automationFeedback (initialState sampleMessages) = None /\
  composerFeedback (initialState sampleMessages) = None /\
  getItem storage_key (snd (mount sampleMessages st)) =
    Some (stringify_or_undefined (rules_to_js initialAutomations)).
Proof.
  intros Hg Hp.
  assert (Hl : load_effect st = Keep).
  { unfold load_effect. rewrite Hg, Hp. now destruct (is_empty storedAutomations). }
  split; [exact Hl|]. unfold mount. rewrite Hl. cbn [fst snd].
  rewrite select_first_effect_initialState.
  repeat split. unfold persist_effect. apply getItem_setItem.
Qed.

Lemma handleSendReply_selected
  (s : State) (reply : jsstring) (network : FetchRequest -> fetched)
  (now : Z) (iso : jsstring) (sel : SocialMessage.t) :
  selectedMessage s = Some sel ->
  handleSendReply reply network now iso s =
    handleSendReply_settle sel (network (request_of sel reply (credentials s))) now iso
      (setComposerFeedback None (setIsSending true s)).
Proof. intros H. unfold handleSendReply, handleSendReply_begin. now rewrite H. Qed.

Lemma id_mark_responded (sel : SocialMessage.t) (l : list SocialMessage.t) :
  map SocialMessage.id (mark_responded sel l) = map SocialMessage.id l.
Proof.
  unfold mark_responded. rewrite map_map. apply map_ext. intros m.
  now destruct (str_eqb (SocialMessage.id m) (SocialMessage.id sel)).
Qed.

Lemma messages_settle (sel : SocialMessage.t) (f : fetched) (now : Z) (iso : jsstring)
  (s : State) :
  messages (handleSendReply_settle sel f now iso s) =
    match dispatch_result f with
    | Return _ => mark_responded sel (messages s)
    | Throw _ => messages s
    end.
Proof. unfold handleSendReply_settle. now destruct (dispatch_result f). Qed.

(** No handler adds, removes or reorders a message. *)
Lemma handle_keeps_messages (a : action) (s : State) :
  map SocialMessage.id (messages (handle a s)) = map SocialMessage.id (messages s).
Proof.
  destruct a; cbn [handle]; try reflexivity.
  - unfold addAutomation.
    now destruct (is_empty (Draft.name (newAutomation s))
                  || is_empty (Draft.trigger (newAutomation s))
                  || is_empty (Draft.response (newAutomation s))).
  - unfold handleSendReply_begin. now destruct (selectedMessage s).
  - rewrite messages_settle. destruct (dispatch_result f); [|reflexivity].
    apply id_mark_responded.
Qed.

Lemma step_keeps_messages (a : action) (w : World) :
  map SocialMessage.id (messages (state (step a w))) =
    map SocialMessage.id (messages (state w)).
Proof.
  unfold step. cbn [state]. rewrite messages_select_first_effect.
  apply handle_keeps_messages.
Qed.

Lemma run_keeps_messages (actions : list action) (w : World) :
  map SocialMessage.id (messages (state (run actions w))) =
    map SocialMessage.id (messages (state w)).
Proof.
  unfold run. revert w. induction actions as [|a actions IH]; intros w; [reflexivity|].
  cbn [fold_left]. rewrite IH. apply step_keeps_messages.
Qed.

(** C6 (amended): after a send that succeeds, every message that carries
    the id of the selected message has the status "responded" and its other
    fields as before, and every message with another id is as before, at the
    same place in the list; the selected message itself is among the former.
    When no two messages of the list share an id, the selected message is
    the only one that changes: every other message is as before. And no
    operation of the page removes a message: each step, and so each run,
    leaves the ids of the list as they are, in their order. *)
Theorem successful_send_marks_responded
  (s : State) (reply : jsstring) (network : FetchRequest -> fetched)
  (now : Z) (iso : jsstring) (sel : SocialMessage.t) (data : jsval) :
  selectedMessage s = Some sel ->
  dispatch_result (network (request_of sel reply (credentials s))) = Return data ->
  let s' := handleSendReply reply network now iso s in
  (forall i m,
      nth_error (messages s) i = Some m ->
      nth_error (messages s') i =
        Some (if str_eqb (SocialMessage.id m) (SocialMessage.id sel)
              then as_responded m else m)) /\
  (exists i,
      nth_error (messages s) i = Some sel /\
      nth_error (messages s') i = Some (as_responded sel)) /\
  (NoDup (map SocialMessage.id (messages s)) ->
   forall i m,
     nth_error (messages s) i = Some m -> m <> sel ->
     nth_error (messages s') i = Some m) /\
  (forall m,
      SocialMessage.status (as_responded m) = responded /\
      SocialMessage.id (as_responded m) = SocialMessage.id m /\
      SocialMessage.platform (as_responded m) = SocialMessage.platform m /\
      SocialMessage.type (as_responded m) = SocialMessage.type m /\
      SocialMessage.author (as_responded m) = SocialMessage.author m /\
      SocialMessage.snippet (as_responded m) = SocialMessage.snippet m /\
      SocialMessage.timestamp (as_responded m) = SocialMessage.timestamp m /\
      SocialMessage.intent (as_responded m) = SocialMessage.intent m /\
      SocialMessage.avatar (as_responded m) = SocialMessage.avatar m /\
      SocialMessage.permalink (as_responded m) = SocialMessage.permalink m) /\
  (forall (a : action) (w : World),
      map SocialMessage.id (messages (state (step a w))) =
        map SocialMessage.id (messages (state w))) /\
  (forall (actions : list action) (w : World),
      map SocialMessage.id (messages (state (run actions w))) =
        map SocialMessage.id (messages (state w))).
Proof.
  intros Hsel Hok s'.
  assert (Hm : messages s' = mark_responded sel (messages s)).
  { unfold s'. rewrite (handleSendReply_selected _ _ _ _ _ sel Hsel).
    now rewrite messages_settle, Hok. }
  assert (Hnth : forall i m,
             nth_error (messages s) i = Some m ->
             nth_error (messages s') i =
               Some (if str_eqb (SocialMessage.id m) (SocialMessage.id sel)
                     then as_responded m else m)).
  { intros i m Hi. rewrite Hm. unfold mark_responded.
    now rewrite nth_error_map, Hi. }
  assert (Hpos : exists j, nth_error (messages s) j = Some sel).
  { unfold selectedMessage in Hsel. apply find_some in Hsel as [Hin _].
    now apply In_nth_error. }
  split; [exact Hnth|]. split; [|split; [|split; [|split]]].
  - destruct Hpos as [i Hi]. exists i. split; [exact Hi|].
    rewrite (Hnth i sel Hi). now rewrite str_eqb_refl.
  - intros Hnd i m Hi Hne. rewrite (Hnth i m Hi).
    destruct (str_eqb (SocialMessage.id m) (SocialMessage.id sel)) eqn:E;
      [|reflexivity].
    exfalso. apply Hne. apply str_eqb_eq in E. destruct Hpos as [j Hj].
    assert (Hij : i = j).
    { apply (proj1 (NoDup_nth_error _) Hnd).
      - rewrite length_map. apply nth_error_Some. now rewrite Hi.
      - rewrite !nth_error_map, Hi, Hj. cbn [option_map]. now rewrite E. }
    subst j. congruence.
  - intros m. now repeat split.
  - exact step_keeps_messages.
  - exact run_keeps_messages.
Qed.

Lemma dispatch_result_failed (f : fetched) :
  (exists e, f = Rejected e) \/
  (exists response,
      f = Fulfilled response /\
      ((exists e, Response.json response = Throw e) \/
       (exists data,
           Response.json response = Return data /\
           (Response.ok response = false \/
            ToBoolean (read data (js "ok")) = false)))) ->
  exists e, dispatch_result f = Throw e.
Proof.
  assert (Hthrow : forall data,
             exists e,
               rbind (if ToBoolean data then Get data (js "error") else Return data)
                 (fun reported =>
                    rbind (ToString (if ToBoolean reported then reported
                                     else JStr rejected_default))
                      (fun text => @Throw jsval (ErrorObject text))) = Throw e).
  { intros data.
    destruct (if ToBoolean data then Get data (js "error") else Return data)
      as [reported|e]; cbn [rbind]; [|now exists e].
    destruct (ToString (if ToBoolean reported then reported else JStr rejected_default))
      as [text|e]; cbn [rbind]; eauto. }
  intros [[e ->]|(response & -> & [[e He]|(data & Hd & Hbad)])].
  - now exists e.
  - exists e. unfold dispatch_result. now rewrite He.
  - unfold dispatch_result. rewrite Hd. cbn [rbind].
    destruct (Response.ok response) eqn:Eok; cbn [negb].
    + destruct Hbad as [Hbad|Hbad]; [discriminate Hbad|].
      destruct (nullish data) eqn:En.
      * destruct data; try discriminate En; cbn [Get rbind]; eauto.
      * assert (Hget : Get data (js "ok") = Return (read data (js "ok")))
          by (destruct data; try discriminate En; reflexivity).
        rewrite Hget. cbn [rbind]. rewrite Hbad. cbn [negb]. apply Hthrow.
    + cbn [rbind]. apply Hthrow.
Qed.

(** C7: when the dispatch fails (the fetch is rejected, the body of the
    answer is not JSON, the status is not a 2xx, or the body has no truthy
    [ok]), exactly one entry is put in front of the activity log, its outcome
    is "error", and the composer text and the message list are as before. *)
Theorem failed_dispatch_is_logged_once
  (s : State) (reply : jsstring) (network : FetchRequest -> fetched)
  (now : Z) (iso : jsstring) (sel : SocialMessage.t) :
  selectedMessage s = Some sel ->
  let f := network (request_of sel reply (credentials s)) in
  ((exists e, f = Rejected e) \/
   (exists response,
       f = Fulfilled response /\
       ((exists e, Response.json response = Throw e) \/
        (exists data,
            Response.json response = Return data /\
            (Response.ok response = false \/
             ToBoolean (read data (js "ok")) = false))))) ->
  let s' := handleSendReply reply network now iso s in
  exists e,
    activityLog s' = error_entry sel e now iso :: activityLog s /\
    ActivityEntry.outcome (error_entry sel e now iso) = error /\
    composerValue s' = composerValue s /\
    messages s' = messages s.
Proof.
  intros Hsel f Hfail s'.
  destruct (dispatch_result_failed f Hfail) as [e He].
  exists e. unfold s'. rewrite (handleSendReply_selected _ _ _ _ _ sel Hsel).
  fold f. unfold handleSendReply_settle. rewrite He. now repeat split.
Qed.

End PageFacts.


Lemma add_then_reload_same_rules_witness :
  let w := @Page.step Samples.sample_engine (Page.AddAutomation 1730000000000)
             {| Page.state := Samples.ready_state; Page.localStorage := [] |} in
  Page.automations (Page.state w) =
    Page.new_rule 1730000000000 Page.active Samples.welcome_draft
      :: Page.initialAutomations /\
  (exists reloaded,
      fst (@Page.mount Samples.sample_engine Samples.sample_messages
             (Page.localStorage w)) = inl reloaded /\
      Page.automations reloaded = Page.automations (Page.state w)) /\
  (exists reloaded,
      fst (@Page.mount Samples.sample_engine Samples.sample_messages
             (Page.setItem Page.storage_key
                (@Page.stringify_or_undefined Samples.sample_engine
                   (JArr (Samples.welcome_object
                            :: map Page.rule_to_js Page.initialAutomations)))
                [])) = inl reloaded /\
      Page.automations reloaded = Page.automations (Page.state w)).
Proof.
  intros w.
  destruct (@add_then_reload_same_rules Samples.sample_engine Samples.ready_state []
              1730000000000 Samples.sample_messages) as (Ha & Hb & Hc);
    try (intros H; vm_compute in H; discriminate H).
  split; [exact Ha|]. split; [exact Hb|].
  apply Hc. rewrite Ha. constructor.
  - eexists. split; [reflexivity|].
    cbv [Page.rule_props]. apply perm_skip. apply Permutation_sym.
    apply (Permutation_cons_append
             [(js "name", JStr (js "Welcome"));
              (js "platform", JStr (js "instagram"));
              (js "channel", JStr (js "message"));
              (js "trigger", JStr (js "contains 'hello'"));
              (js "response", JStr (js "Hi there, thanks for writing in!"))]
             (js "status", JStr (js "active"))).
  - apply Forall2_holds_rule_to_js.
Defined.

Lemma corrupted_payload_is_ignored_witness :
  Page.load_effect Samples.corrupted_storage = Page.Keep /\
  fst (@Page.mount Samples.sample_engine Samples.sample_messages Samples.corrupted_storage) =
    inl (Page.initialState Samples.sample_messages) /\
  Page.automations (Page.initialState Samples.sample_messages) = Page.initialAutomations /\
  Page.automationFeedback (Page.initialState Samples.sample_messages) = None /\
  Page.composerFeedback (Page.initialState Samples.sample_messages) = None /\
  Page.getItem Page.storage_key
    (snd (@Page.mount Samples.sample_engine Samples.sample_messages
            Samples.corrupted_storage)) =
    Some (@Page.stringify_or_undefined Samples.sample_engine
            (Page.rules_to_js Page.initialAutomations)).
Proof.
  apply (@corrupted_payload_is_ignored Samples.sample_engine Samples.sample_messages
           Samples.corrupted_storage (js "[{oops")).
  - reflexivity.
  - vm_compute. reflexivity.
Defined.

(** C6, as stated, fails on a list in which two messages share an id: the
    update compares ids, so the send marks both, and a message that is not
    the selected one has changed. *)
Lemma send_marks_every_message_with_the_id :
  let s := Samples.repeated_id_state in
  let s' := @Page.handleSendReply Samples.sample_engine (js "On it!")
              Samples.accepting_network 1730000000000 (js "2024-11-01T00:00:00.000Z")
              s in
  Page.selectedMessage s = Some Samples.emma /\
  (exists data,
      @Page.dispatch_result Samples.sample_engine
        (Samples.accepting_network
           (@Page.request_of Samples.sample_engine Samples.emma (js "On it!")
              (Page.credentials s))) = Return data) /\
  nth_error (Page.messages s) 1 = Some Samples.emma_follow_up /\
  Samples.emma_follow_up <> Samples.emma /\
  Page.SocialMessage.status Samples.emma_follow_up = Page.snoozed /\
  nth_error (Page.messages s') 1 = Some (Page.as_responded Samples.emma_follow_up) /\
  ~ (forall i m,
        nth_error (Page.messages s) i = Some m -> m <> Samples.emma ->
        nth_error (Page.messages s') i = Some m).
Proof.
  repeat split.
  - eexists. reflexivity.
  - discriminate.
  - intros H. specialize (H 1%nat Samples.emma_follow_up eq_refl).
    assert (Hne : Samples.emma_follow_up <> Samples.emma) by discriminate.
    specialize (H Hne). vm_compute in H. discriminate H.
Qed.

Lemma successful_send_marks_responded_witness :
  let s' := @Page.handleSendReply Samples.sample_engine (js "On it!")
              Samples.accepting_network 1730000000000 (js "2024-11-01T00:00:00.000Z")
              Samples.fresh_state in
  NoDup (map Page.SocialMessage.id (Page.messages Samples.fresh_state)) /\
  nth_error (Page.messages s') 0 = Some (Page.as_responded Samples.emma) /\
  nth_error (Page.messages s') 1 = Some Samples.liam.
Proof.
  assert (Hnd : NoDup (map Page.SocialMessage.id (Page.messages Samples.fresh_state))).
  { apply distinct_NoDup. reflexivity. }
  pose proof (@successful_send_marks_responded Samples.sample_engine
                Samples.fresh_state (js "On it!") Samples.accepting_network
                1730000000000 (js "2024-11-01T00:00:00.000Z") Samples.emma
                (JObj [(js "ok", JBool true);
                       (js "result", JObj [(js "dryRun", JBool true)])])
                eq_refl eq_refl) as (Hnth & _ & Hother & _).
  split; [exact Hnd|]. split.
  - exact (Hnth 0%nat Samples.emma eq_refl).
  - apply (Hother Hnd 1%nat Samples.liam eq_refl). discriminate.
Defined.

Lemma failed_dispatch_is_logged_once_witness :
  let s' := @Page.handleSendReply Samples.sample_engine (js "On it!")
              Samples.refusing_network 1730000000000 (js "2024-11-01T00:00:00.000Z")
              (Page.setComposerValue (js "On it!") Samples.fresh_state) in
  exists e,
    Page.activityLog s' =
      [Page.error_entry Samples.emma e 1730000000000 (js "2024-11-01T00:00:00.000Z")] /\
    Page.ActivityEntry.outcome
      (Page.error_entry Samples.emma e 1730000000000 (js "2024-11-01T00:00:00.000Z")) =
      Page.error /\
    Page.composerValue s' = js "On it!" /\
    Page.messages s' = Samples.sample_messages.
Proof.
  apply (@failed_dispatch_is_logged_once Samples.sample_engine
           (Page.setComposerValue (js "On it!") Samples.fresh_state) (js "On it!")
           Samples.refusing_network 1730000000000 (js "2024-11-01T00:00:00.000Z")
           Samples.emma eq_refl).
  right. eexists. split; [reflexivity|]. right. eexists. split; [reflexivity|].
  left. reflexivity.
Defined.

(** *** Runs on concrete inputs *)

Example parse_array_with_spaces :
  JSON.parse (js " [ true , false,null ] ") = Some (JArr [JBool true; JBool false; JNull]).
Proof. reflexivity. Qed.

Example parse_number_literal :
  JSON.parse (js "-12.50e3") = Some (JNum {| mantissa := -1250; exponent := 1 |}).
Proof. reflexivity. Qed.

Example parse_rejects_trailing_comma : JSON.parse (js "[1,]") = None.
Proof. reflexivity. Qed.

Example parse_rejects_leading_zero : JSON.parse (js "01") = None.
Proof. reflexivity. Qed.

Example parse_rejects_empty_text : JSON.parse [] = None.
Proof. reflexivity. Qed.

(** [{"a":1,"b":2,"a":3}] is read as [{a: 3, b: 2}]. *)
Example parse_repeated_key :
  JSON.parse ([123; 34; 97; 34; 58; 49; 44; 34; 98; 34; 58; 50; 44;
               34; 97; 34; 58; 51; 125]%N) =
    Some (JObj [(js "a", JNum {| mantissa := 3; exponent := 0 |});
                (js "b", JNum {| mantissa := 2; exponent := 0 |})]).
Proof. reflexivity. Qed.

(** A backspace, a surrogate pair and a lone surrogate. *)
Example quote_escapes :
  JSON.QuoteJSONString [8; 55357; 56960; 55357]%N =
    [34; 92; 98; 55357; 56960]%N ++ js "\ud83d" ++ [34]%N.
Proof. reflexivity. Qed.

Example tiny_number_is_falsy :
  ToBoolean (JNum {| mantissa := 1; exponent := -400 |}) = false /\
  ToBoolean (JNum {| mantissa := 5; exponent := -324 |}) = true.
Proof. split; reflexivity. Qed.

Example POST_null_body :
  Route.POST Samples.quiet_helper {| Route.json := Return JNull |} =
    ([Route.ConsoleError (js "Failed to send Meta response:")
        (ErrorObject (js "Cannot read properties of null (reading 'platform')"))],
     {| Route.status := 500;
        Route.body :=
          Route.failure_body (js "Cannot read properties of null (reading 'platform')") |}).
Proof. reflexivity. Qed.

Example POST_live_call :
  Route.POST
    (Meta.postMetaResponse None Samples.no_description Samples.object_endpoint
       Samples.echo_api)
    {| Route.json := Return Samples.facebook_live |} =
    ([Route.PostMetaResponseCalled
        (Route.request_args Samples.facebook_live Route.comment);
      Route.OutboundRequest (js "https://graph.facebook.com/v19.0/123/comments")],
     {| Route.status := 200;
        Route.body := Route.success_body (JObj [(js "id", JStr (js "123_456"))]) |}).
Proof. reflexivity. Qed.

Example sent_reply_is_logged :
  Page.activityLog
    (@Page.handleSendReply Samples.sample_engine (js "On it!")
       Samples.accepting_network 1730000000000 (js "2024-11-01T00:00:00.000Z")
       Samples.fresh_state) =
    [ {| Page.ActivityEntry.id := js "log-1730000000000";
         Page.ActivityEntry.messageId := js "fb-comment-1";
         Page.ActivityEntry.platform := Page.facebook;
         Page.ActivityEntry.summary := js "Sent facebook comment reply";
         Page.ActivityEntry.timestamp := js "2024-11-01T00:00:00.000Z";
         Page.ActivityEntry.outcome := Page.scheduled;
         Page.ActivityEntry.meta := Some (JObj [(js "dryRun", JBool true)]) |} ].
Proof. reflexivity. Qed.

Example refused_reply_is_logged :
  Page.activityLog
    (@Page.handleSendReply Samples.sample_engine (js "On it!")
       Samples.refusing_network 1730000000000 (js "2024-11-01T00:00:00.000Z")
       Samples.fresh_state) =
    [ {| Page.ActivityEntry.id := js "log-error-1730000000000";
         Page.ActivityEntry.messageId := js "fb-comment-1";
         Page.ActivityEntry.platform := Page.facebook;
         Page.ActivityEntry.summary :=
           js "Failed to reply: channel must be comment or message";
         Page.ActivityEntry.timestamp := js "2024-11-01T00:00:00.000Z";
         Page.ActivityEntry.outcome := Page.error;
         Page.ActivityEntry.meta := None |} ].
Proof. reflexivity. Qed.

(** The body of the request the composer sends for the first sample
    message. *)
Example request_body_text :
  Page.body (@Page.request_of Samples.sample_engine Samples.emma (js "On it!")
               Page.defaultCredentials) =
    [123; 34]%N ++ js "platform" ++ [34; 58; 34]%N ++ js "facebook" ++ [34; 44; 34]%N
    ++ js "targetId" ++ [34; 58; 34]%N ++ js "fb-comment-1" ++ [34; 44; 34]%N
    ++ js "message" ++ [34; 58; 34]%N ++ js "On it!" ++ [34; 44; 34]%N
    ++ js "channel" ++ [34; 58; 34]%N ++ js "comment" ++ [34; 44; 34]%N
    ++ js "dryRun" ++ [34; 58]%N ++ js "true" ++ [44; 34]%N
    ++ js "accessToken" ++ [34; 58; 34; 34; 125]%N.
Proof. reflexivity. Qed.

(** A stored object is handed to [setAutomations] as it is; the render
    throws at [automations.map], and the storage keeps the default rules the
    second effect wrote before. *)
Example stored_object_is_not_written_back :
  let st := [(Page.storage_key, js "{}")] in
  @Page.mount Samples.sample_engine Samples.sample_messages st =
    (inr (JObj []),
     @Page.persist_effect Samples.sample_engine Page.initialAutomations st).
Proof. vm_compute. reflexivity. Qed.

(** A stored array of strings is rendered, as rules without a name, and
    written back. *)
Example stored_strings_are_written_back :
  let st := [(Page.storage_key, [91; 34]%N ++ js "a" ++ [34; 93]%N)] in
  @Page.mount Samples.sample_engine Samples.sample_messages st =
    (inr (JArr [JStr (js "a")]), st).
Proof. vm_compute. reflexivity. Qed.

(** [JSON.parse] lists the keys that are array indices first. *)
Example parse_index_keys_first :
  JSON.parse ([123; 34]%N ++ js "b" ++ [34; 58]%N ++ js "true" ++ [44; 34]%N
              ++ js "10" ++ [34; 58]%N ++ js "null" ++ [44; 34]%N
              ++ js "2" ++ [34; 58]%N ++ js "false" ++ [125]%N) =
    Some (JObj [(js "2", JBool false); (js "10", JNull); (js "b", JBool true)]).
Proof. reflexivity. Qed.

(* ================================================================== *)
(** * Further properties of the relay *)

Section RouteMore.
Import Route.

Variable post : RespondRequest.t -> M jsval.

(** The [try] block on a body that has properties, in terms of what it
    reads. *)
Lemma respond_defined (request : NextRequest) (b : jsval) :
  json request = Return b -> nullish b = false ->
  respond post request =
    if negb (ToBoolean (read b (js "platform")))
       || negb (ToBoolean (read b (js "targetId")))
       || negb (ToBoolean (read b (js "message")))
       || negb (ToBoolean (read b (js "channel")))
    then ret {| status := 400; body := failure_body required_message |}
    else
      match as_MetaChannel (read b (js "channel")) with
      | None => ret {| status := 400; body := failure_body channel_message |}
      | Some ch =>
          emit (PostMetaResponseCalled (request_args b ch)) ;;;
          r <- post (request_args b ch) ;;
          ret {| status := 200; body := success_body r |}
      end.
Proof.
  intros Hj Hb. unfold respond.
  rewrite Hj, bind_lift_Return, (required_missing_spec b Hb), bind_ret.
  destruct (negb (ToBoolean (read b (js "platform")))
            || negb (ToBoolean (read b (js "targetId")))
            || negb (ToBoolean (read b (js "message")))
            || negb (ToBoolean (read b (js "channel")))); [reflexivity|].
  rewrite !(Get_defined b) by exact Hb.
  rewrite bind_lift_Return.
  destruct (as_MetaChannel (read b (js "channel"))); [|reflexivity].
  now rewrite !bind_lift_Return.
Qed.

Lemma all_required_truthy (b : jsval) :
  negb (ToBoolean (read b (js "platform")))
  || negb (ToBoolean (read b (js "targetId")))
  || negb (ToBoolean (read b (js "message")))
  || negb (ToBoolean (read b (js "channel"))) = false ->
  forall k, In k required_fields -> ToBoolean (read b k) = true.
Proof.
  intros H k Hk.
  apply orb_false_iff in H as [H Hc]. apply orb_false_iff in H as [H Hm].
  apply orb_false_iff in H as [Hp Ht].
  apply negb_false_iff in Hp, Ht, Hm, Hc.
  simpl in Hk. destruct Hk as [<-|[<-|[<-|[<-|[]]]]]; assumption.
Qed.

Lemma some_required_falsy (b : jsval) :
  negb (ToBoolean (read b (js "platform")))
  || negb (ToBoolean (read b (js "targetId")))
  || negb (ToBoolean (read b (js "message")))
  || negb (ToBoolean (read b (js "channel"))) = true ->
  exists k, In k required_fields /\ ToBoolean (read b k) = false.
Proof.
  intros H.
  destruct (ToBoolean (read b (js "platform"))) eqn:Hp;
    [|exists (js "platform"); simpl; auto].
  destruct (ToBoolean (read b (js "targetId"))) eqn:Ht;
    [|exists (js "targetId"); simpl; auto].
  destruct (ToBoolean (read b (js "message"))) eqn:Hm;
    [|exists (js "message"); simpl; auto].
  destruct (ToBoolean (read b (js "channel"))) eqn:Hc;
    [discriminate H|exists (js "channel"); simpl; auto 6].
Qed.

Lemma POST_valid_Throw
  (request : NextRequest) (b : jsval) (ch : MetaChannel) (tr : list event) (e : thrown) :
  json request = Return b -> nullish b = false ->
  (forall k, In k required_fields -> ToBoolean (read b k) = true) ->
  as_MetaChannel (read b (js "channel")) = Some ch ->
  post (request_args b ch) = (tr, Throw e) ->
  POST post request =
    (PostMetaResponseCalled (request_args b ch) :: tr
       ++ [ConsoleError (js "Failed to send Meta response:") e],
     {| status := 500; body := failure_body (error_text e) |}).
Proof.
  intros Hj Hb Hall Hc Hpost. unfold POST.
  rewrite (respond_defined request b Hj Hb).
  rewrite !Hall by (simpl; auto 6). cbn [negb orb].
  rewrite Hc, Hpost. reflexivity.
Qed.

Lemma POST_valid_result
  (request : NextRequest) (b : jsval) (ch : MetaChannel) (tr : list event) (r : jsval) :
  json request = Return b -> nullish b = false ->
  (forall k, In k required_fields -> ToBoolean (read b k) = true) ->
  as_MetaChannel (read b (js "channel")) = Some ch ->
  post (request_args b ch) = (tr, Return r) ->
  POST post request =
    (PostMetaResponseCalled (request_args b ch) :: tr,
     {| status := 200; body := success_body r |}).
Proof.
  intros Hj Hb Hall Hc Hpost. unfold POST.
  rewrite (respond_defined request b Hj Hb).
  rewrite !Hall by (simpl; auto 6). cbn [negb orb].
  rewrite Hc, Hpost. simpl. now rewrite app_nil_r.
Qed.

(** X1: the answers of the handler, case by case, and there is no other
    case. A body that does not parse, the body [null] and a helper that
    throws give a 500 and one line on the console; a falsy required property
    gives the 400 about required properties, also when [channel] is wrong as
    well; a wrong [channel] alone gives the 400 about the channel; otherwise
    the helper is called once, first, with the values of the body, and its
    result is answered with a 200. *)
Theorem POST_decision_table (request : NextRequest) :
  (exists e,
      json request = Throw e /\
      POST post request =
        ([ConsoleError (js "Failed to send Meta response:") e],
         {| status := 500; body := failure_body (error_text e) |})) \/
  (exists b e,
      json request = Return b /\ nullish b = true /\
      Get b (js "platform") = Throw e /\
      POST post request =
        ([ConsoleError (js "Failed to send Meta response:") e],
         {| status := 500; body := failure_body (error_text e) |})) \/
  (exists b k,
      json request = Return b /\ nullish b = false /\
      In k required_fields /\ ToBoolean (read b k) = false /\
      POST post request =
        ([], {| status := 400; body := failure_body required_message |})) \/
  (exists b,
      json request = Return b /\ nullish b = false /\
      (forall k, In k required_fields -> ToBoolean (read b k) = true) /\
      as_MetaChannel (read b (js "channel")) = None /\
      POST post request =
        ([], {| status := 400; body := failure_body channel_message |})) \/
  (exists b ch tr r,
      json request = Return b /\
      (forall k, In k required_fields -> ToBoolean (read b k) = true) /\
      read b (js "channel") = JStr (MetaChannel_text ch) /\
      post (request_args b ch) = (tr, Return r) /\
      POST post request =
        (PostMetaResponseCalled (request_args b ch) :: tr,
         {| status := 200; body := success_body r |})) \/
  (exists b ch tr e,
      json request = Return b /\
      (forall k, In k required_fields -> ToBoolean (read b k) = true) /\
      read b (js "channel") = JStr (MetaChannel_text ch) /\
      post (request_args b ch) = (tr, Throw e) /\
      POST post request =
        (PostMetaResponseCalled (request_args b ch) :: tr
           ++ [ConsoleError (js "Failed to send Meta response:") e],
         {| status := 500; body := failure_body (error_text e) |})).
Proof.
  destruct (json request) as [b|e] eqn:Hj.
  2:{ left. exists e. split; [reflexivity|]. unfold POST, respond. now rewrite Hj. }
  right. destruct (nullish b) eqn:Hb.
  { left. destruct (Get b (js "platform")) as [v|e] eqn:Hg.
    - destruct b; discriminate.
    - exists b, e. repeat split; try assumption.
      unfold POST, respond, required_missing. rewrite Hj, bind_lift_Return, Hg.
      reflexivity. }
  right.
  destruct (negb (ToBoolean (read b (js "platform")))
            || negb (ToBoolean (read b (js "targetId")))
            || negb (ToBoolean (read b (js "message")))
            || negb (ToBoolean (read b (js "channel")))) eqn:Hm.
  { left. destruct (some_required_falsy b Hm) as (k & Hk & Hf).
    exists b, k. repeat split; try assumption.
    unfold POST. now rewrite (respond_defined request b Hj Hb), Hm. }
  right. pose proof (all_required_truthy b Hm) as Hall.
  destruct (as_MetaChannel (read b (js "channel"))) as [ch|] eqn:Hc.
  2:{ left. exists b. repeat split; try assumption.
      unfold POST. now rewrite (respond_defined request b Hj Hb), Hm, Hc. }
  right. pose proof (proj1 (as_MetaChannel_Some _ _) Hc) as Hch.
  destruct (post (request_args b ch)) as [tr [r|e]] eqn:Hpost.
  - left. exists b, ch, tr, r. repeat split; try assumption.
    now apply (POST_valid_result request b ch tr r).
  - right. exists b, ch, tr, e. repeat split; try assumption.
    now apply (POST_valid_Throw request b ch tr e).
Qed.

(** X2: the handler looks at eight properties of the body and at nothing
    else: two bodies (neither of them [null]) that agree on these get the
    same answer and cause the same events. *)
Theorem POST_reads_eight_properties (b b' : jsval) :
  nullish b = false -> nullish b' = false ->
  (forall k, In k Wire.read_fields -> read b k = read b' k) ->
  POST post {| json := Return b |} = POST post {| json := Return b' |}.
Proof.
  intros Hb Hb' Hsame.
  assert (Hargs : forall ch, request_args b ch = request_args b' ch).
  { intros ch. unfold request_args.
    rewrite !(Hsame _) by (unfold Wire.read_fields; simpl; auto 10).
    reflexivity. }
  unfold POST.
  rewrite (respond_defined {| json := Return b |} b eq_refl Hb),
    (respond_defined {| json := Return b' |} b' eq_refl Hb').
  rewrite !(Hsame _) by (unfold Wire.read_fields; simpl; auto 10).
  destruct (negb (ToBoolean (read b' (js "platform")))
            || negb (ToBoolean (read b' (js "targetId")))
            || negb (ToBoolean (read b' (js "message")))
            || negb (ToBoolean (read b' (js "channel")))); [reflexivity|].
  destruct (as_MetaChannel (read b' (js "channel"))) as [ch|]; [|reflexivity].
  now rewrite Hargs.
Qed.

End RouteMore.

Lemma POST_reads_eight_properties_witness :
  Route.POST Samples.quiet_helper
    {| Route.json := Return (JObj [(js "note", JStr (js "urgent"));
                                   (js "platform", JStr (js "facebook"));
                                   (js "targetId", JStr (js "123"));
                                   (js "message", JStr (js "hi"));
                                   (js "channel", JStr (js "story"))]) |} =
  Route.POST Samples.quiet_helper {| Route.json := Return Samples.bad_channel |}.
Proof.
  apply POST_reads_eight_properties; try reflexivity.
  intros k Hk. unfold Wire.read_fields in Hk. simpl in Hk.
  repeat (destruct Hk as [<-|Hk]; [reflexivity|]). contradiction.
Defined.

(* ================================================================== *)
(** * Further properties of the dashboard *)

(** *** The rule list *)

Section RulesMore.
Import Page.

Lemma setAutomations_ext (f g : list AutomationRule.t -> list AutomationRule.t) (s : State) :
  f (automations s) = g (automations s) -> setAutomations f s = setAutomations g s.
Proof. intros H. unfold setAutomations. now rewrite H. Qed.

Lemma setAutomations_same (f : list AutomationRule.t -> list AutomationRule.t) (s : State) :
  f (automations s) = automations s -> setAutomations f s = s.
Proof. intros H. unfold setAutomations. rewrite H. now destruct s. Qed.

Lemma toggled_toggled (r : AutomationRule.t) : toggled (toggled r) = r.
Proof. destruct r as [? ? ? ? ? ? []]; reflexivity. Qed.

Lemma filter_keeps_all {A} (p : A -> bool) (l : list A) :
  (forall x, In x l -> p x = true) -> filter p l = l.
Proof.
  induction l as [|x l IH]; intros H; [reflexivity|].
  simpl. rewrite (H x) by now left.
  rewrite IH; [reflexivity|]. intros y Hy. apply H. now right.
Qed.

Lemma filter_filter_same {A} (p : A -> bool) (l : list A) :
  filter p (filter p l) = filter p l.
Proof.
  apply filter_keeps_all. intros x Hx. now apply filter_In in Hx.
Qed.

(** X3: switching a rule between active and paused twice gives back the
    state the page was in; one switch keeps the ids and the order of the
    list, changes nothing but the status, and leaves the rules with another
    id as they are. *)
Theorem toggleAutomationStatus_twice (id : jsstring) (s : State) :
  toggleAutomationStatus id (toggleAutomationStatus id s) = s /\
  map AutomationRule.id (automations (toggleAutomationStatus id s)) =
    map AutomationRule.id (automations s) /\
  (forall i r,
      nth_error (automations s) i = Some r ->
      exists r',
        nth_error (automations (toggleAutomationStatus id s)) i = Some r' /\
        AutomationRule.name r' = AutomationRule.name r /\
        AutomationRule.platform r' = AutomationRule.platform r /\
        AutomationRule.channel r' = AutomationRule.channel r /\
        AutomationRule.trigger r' = AutomationRule.trigger r /\
        AutomationRule.response r' = AutomationRule.response r /\
        (AutomationRule.id r <> id -> r' = r) /\
        (AutomationRule.id r = id ->
         AutomationRule.status r' <> AutomationRule.status r)).
Proof.
  split; [|split].
  - unfold toggleAutomationStatus.
    change (setAutomations ?f (setAutomations ?g s))
      with (setAutomations (fun l => f (g l)) s).
    apply setAutomations_same. rewrite map_map.
    rewrite <- (map_id (automations s)) at 2. apply map_ext. intros r.
    destruct (str_eqb (AutomationRule.id r) id) eqn:E; cbn [AutomationRule.id toggled].
    + rewrite E. apply toggled_toggled.
    + now rewrite E.
  - unfold toggleAutomationStatus. cbn [automations setAutomations].
    rewrite map_map. apply map_ext. intros r.
    now destruct (str_eqb (AutomationRule.id r) id).
  - intros i r Hi. unfold toggleAutomationStatus. cbn [automations setAutomations].
    rewrite nth_error_map, Hi. cbn [option_map].
    destruct (str_eqb (AutomationRule.id r) id) eqn:E.
    + exists (toggled r). repeat split.
      * intros Hne. apply str_eqb_eq in E. contradiction.
      * intros _. destruct r as [? ? ? ? ? ? []]; discriminate.
    + exists r. repeat split.
      intros He. apply str_eqb_neq in E. contradiction.
Qed.

(** X4: deleting an id removes every rule that carries it and keeps the
    others; doing it again changes nothing more, deleting an id that no rule
    carries changes nothing at all, and two deletions can be made in either
    order. *)
Theorem deleteAutomation_removes_id (id : jsstring) (s : State) :
  (forall r,
      In r (automations (deleteAutomation id s)) <->
      In r (automations s) /\ AutomationRule.id r <> id) /\
  deleteAutomation id (deleteAutomation id s) = deleteAutomation id s /\
  ((forall r, In r (automations s) -> AutomationRule.id r <> id) ->
   deleteAutomation id s = s) /\
  (forall id',
      deleteAutomation id (deleteAutomation id' s) =
        deleteAutomation id' (deleteAutomation id s)).
Proof.
  split; [|split; [|split]].
  - intros r. unfold deleteAutomation. cbn [automations setAutomations].
    rewrite filter_In, negb_true_iff, str_eqb_neq. reflexivity.
  - unfold deleteAutomation.
    change (setAutomations ?f (setAutomations ?g s))
      with (setAutomations (fun l => f (g l)) s).
    apply setAutomations_ext. apply filter_filter_same.
  - intros Hnone. unfold deleteAutomation. apply setAutomations_same.
    apply filter_keeps_all. intros r Hr. apply negb_true_iff, str_eqb_neq. auto.
  - intros id'. unfold deleteAutomation.
    change (setAutomations ?f (setAutomations ?g s))
      with (setAutomations (fun l => f (g l)) s).
    apply setAutomations_ext.
    induction (automations s) as [|r l IH]; [reflexivity|].
    cbn [filter].
    destruct (negb (str_eqb (AutomationRule.id r) id')) eqn:E1;
      destruct (negb (str_eqb (AutomationRule.id r) id)) eqn:E2;
      cbn [filter]; rewrite ?E1, ?E2, IH; reflexivity.
Qed.

(** X5: adding a rule and deleting it again gives back the former list,
    provided no rule already had the id made from the clock; the form stays
    reset. *)
Theorem add_then_delete (now : Z) (s : State) :
  Draft.name (newAutomation s) <> [] ->
  Draft.trigger (newAutomation s) <> [] ->
  Draft.response (newAutomation s) <> [] ->
  (forall r, In r (automations s) -> AutomationRule.id r <> js "automation-" ++ decimal now) ->
  let s' := deleteAutomation (js "automation-" ++ decimal now) (addAutomation now s) in
  automations s' = automations s /\ newAutomation s' = emptyDraft.
Proof.
  intros H1 H2 H3 Hfresh s'. unfold s', addAutomation.
  rewrite (draft_complete _ H1 H2 H3). unfold deleteAutomation.
  cbn [automations newAutomation setAutomations setNewAutomation setAutomationFeedback].
  split; [|reflexivity].
  cbn [filter new_rule AutomationRule.id]. rewrite str_eqb_refl. cbn [negb].
  apply filter_keeps_all. intros r Hr. apply negb_true_iff, str_eqb_neq. auto.
Qed.

(** X6: the form is emptied by a successful [addAutomation], so a second
    call right after it adds nothing: the list holds the one new rule and
    the feedback asks for the three fields. *)
Theorem addAutomation_twice (now now' : Z) (s : State) :
  Draft.name (newAutomation s) <> [] ->
  Draft.trigger (newAutomation s) <> [] ->
  Draft.response (newAutomation s) <> [] ->
  let s' := addAutomation now' (addAutomation now s) in
  automations s' = new_rule now (automationStatus s) (newAutomation s) :: automations s /\
  newAutomation s' = emptyDraft /\
  automationStatus s' = automationStatus s /\
  automationFeedback s' = Some automation_required_feedback.
Proof.
  intros H1 H2 H3 s'.
  assert (E : addAutomation now s =
              setAutomationFeedback
                (Some (automation_created_feedback (Draft.name (newAutomation s))))
                (setNewAutomation (fun _ => emptyDraft)
                   (setAutomations
                      (fun prev =>
                         new_rule now (automationStatus s) (newAutomation s) :: prev)
                      s))).
  { unfold addAutomation. now rewrite (draft_complete _ H1 H2 H3). }
  unfold s'. rewrite E. now repeat split.
Qed.

End RulesMore.

Lemma toggleAutomationStatus_twice_witness :
  Page.toggleAutomationStatus (js "auto-lead")
    (Page.toggleAutomationStatus (js "auto-lead") Samples.fresh_state) =
    Samples.fresh_state /\
  exists r',
    nth_error (Page.automations
                 (Page.toggleAutomationStatus (js "auto-lead") Samples.fresh_state)) 0 =
      Some r' /\
    Page.AutomationRule.status r' <> Page.active.
Proof.
  destruct (toggleAutomationStatus_twice (js "auto-lead") Samples.fresh_state)
    as (H1 & _ & H3).
  split; [exact H1|].
  destruct (H3 0%nat _ eq_refl) as (r' & Hr & _ & _ & _ & _ & _ & _ & Hs).
  exists r'. split; [exact Hr|]. exact (Hs eq_refl).
Defined.

Lemma deleteAutomation_removes_id_witness :
  Page.deleteAutomation (js "no-such-rule") Samples.fresh_state = Samples.fresh_state.
Proof.
  apply (proj1 (proj2 (proj2
           (deleteAutomation_removes_id (js "no-such-rule") Samples.fresh_state)))).
  intros r Hr. simpl in Hr.
  destruct Hr as [<-|[<-|[]]]; intros H; vm_compute in H; discriminate H.
Defined.

Lemma add_then_delete_witness :
  let s' := Page.deleteAutomation (js "automation-1730000000000")
              (Page.addAutomation 1730000000000 Samples.ready_state) in
  Page.automations s' = Page.initialAutomations /\ Page.newAutomation s' = Page.emptyDraft.
Proof.
  apply (add_then_delete 1730000000000 Samples.ready_state);
    try (intros H; vm_compute in H; discriminate H).
  intros r Hr. simpl in Hr.
  destruct Hr as [<-|[<-|[]]]; intros H; vm_compute in H; discriminate H.
Defined.

Lemma addAutomation_twice_witness :
  let s' := Page.addAutomation 1730000000001
              (Page.addAutomation 1730000000000 Samples.ready_state) in
  Page.automations s' =
    Page.new_rule 1730000000000 Page.active Samples.welcome_draft
      :: Page.initialAutomations /\
  Page.newAutomation s' = Page.emptyDraft /\
  Page.automationStatus s' = Page.active /\
  Page.automationFeedback s' = Some Page.automation_required_feedback.
Proof.
  apply (addAutomation_twice 1730000000000 1730000000001 Samples.ready_state);
    intros H; vm_compute in H; discriminate H.
Defined.

(** *** The storage *)

Section StorageMore.
Import Page.
Context {engine : Engine}.

Lemma setItem_setItem (key v w : jsstring) (st : Storage) :
  setItem key v (setItem key w st) = setItem key v st.
Proof.
  induction st as [|[k x] st IH]; simpl.
  - now rewrite str_eqb_refl.
  - destruct (str_eqb key k) eqn:E; simpl; rewrite E; [reflexivity|].
    now rewrite IH.
Qed.

Lemma getItem_setItem_other (key key' v : jsstring) (st : Storage) :
  key' <> key -> getItem key' (setItem key v st) = getItem key' st.
Proof.
  intros Hne. apply str_eqb_neq in Hne.
  induction st as [|[k x] st IH]; simpl.
  - now rewrite Hne.
  - destruct (str_eqb key k) eqn:E; simpl.
    + apply str_eqb_eq in E. subst k. now rewrite Hne.
    + now rewrite IH.
Qed.

Lemma select_first_effect_setAutomations
  (f : list AutomationRule.t -> list AutomationRule.t)
  (sampleMessages : list SocialMessage.t) :
  select_first_effect (setAutomations f (initialState sampleMessages)) =
    setAutomations f (initialState sampleMessages).
Proof.
  unfold select_first_effect, selectedMessage, filteredMessages.
  destruct sampleMessages as [|m l]; [reflexivity|].
  cbn [initialState setAutomations messages selectedMessageId find].
  now rewrite str_eqb_refl.
Qed.

Lemma handle_keeps_automations (a : action) (s : State) :
  sets_automations a s = false -> automations (handle a s) = automations s.
Proof.
  destruct a; cbn [handle sets_automations]; intros H; try reflexivity;
    try discriminate H.
  - unfold addAutomation. apply negb_false_iff in H. now rewrite H.
  - unfold handleSendReply_begin. now destruct (selectedMessage s).
  - unfold handleSendReply_settle. now destruct (dispatch_result f).
Qed.

Lemma step_in_sync (a : action) (w : World) :
  Wire.in_sync w -> Wire.in_sync (step a w).
Proof.
  unfold Wire.in_sync, step. intros Hw. cbn [state localStorage].
  destruct (sets_automations a (state w)) eqn:E.
  - apply load_effect_persist_effect.
  - now rewrite automations_select_first_effect, (handle_keeps_automations a _ E).
Qed.

Lemma run_in_sync (actions : list action) (w : World) :
  Wire.in_sync w -> Wire.in_sync (run actions w).
Proof.
  unfold run. revert w. induction actions as [|a actions IH]; intros w Hw; [exact Hw|].
  cbn [fold_left]. apply IH. now apply step_in_sync.
Qed.

(** X7: once the stored text is the rule list of the page, it stays so
    through every sequence of operations (adding, switching, deleting rules
    and everything else the page does), and a reload at any point shows the
    rules the page had, the empty list included. *)
Theorem rules_survive_reload
  (actions : list action) (w : World) (sampleMessages : list SocialMessage.t) :
  Wire.in_sync w ->
  Wire.in_sync (run actions w) /\
  exists reloaded,
    fst (mount sampleMessages (localStorage (run actions w))) = inl reloaded /\
    automations reloaded = automations (state (run actions w)).
Proof.
  intros Hw. pose proof (run_in_sync actions w Hw) as Hr.
  split; [exact Hr|]. unfold mount. unfold Wire.in_sync in Hr. rewrite Hr.
  eexists. split; [reflexivity|]. now rewrite automations_select_first_effect.
Qed.

(** X8: when the stored text is a rule list (or there is none), mounting
    the page leaves the storage in step with the page, mounting again
    changes nothing, and nothing but the rules comes back: the credentials,
    the activity log, the composer and the filters are those of the first
    render. *)
Theorem mount_restores_only_rules
  (sampleMessages : list SocialMessage.t) (st : Storage) (s : State) :
  fst (mount sampleMessages st) = inl s ->
  Wire.in_sync {| state := s; localStorage := snd (mount sampleMessages st) |} /\
  mount sampleMessages (snd (mount sampleMessages st)) = mount sampleMessages st /\
  s = setAutomations (fun _ => automations s) (initialState sampleMessages).
Proof.
  unfold mount, Wire.in_sync. destruct (load_effect st) as [|rules|parsed] eqn:El;
    cbn [fst snd state localStorage]; intros [= <-].
  - rewrite select_first_effect_initialState.
    rewrite load_effect_persist_effect. split; [reflexivity|]. split; [|reflexivity].
    rewrite select_first_effect_setAutomations.
    unfold persist_effect. now rewrite !setItem_setItem.
  - rewrite select_first_effect_setAutomations.
    rewrite load_effect_persist_effect. split; [reflexivity|]. split; [|reflexivity].
    rewrite select_first_effect_setAutomations.
    unfold persist_effect. now rewrite !setItem_setItem.
Qed.

(** X9: the page writes one key only. A step leaves every other key of the
    storage as it is, writes nothing at all unless it called
    [setAutomations], and then stores the text of an array of objects that
    hold the current rules, one object for each rule and in the order of the
    list (the order of the properties within an object is left open); a
    change of credentials, in particular, never reaches the storage. *)
Theorem step_writes_rules_key_only (a : action) (w : World) :
  (forall key, key <> storage_key ->
               getItem key (localStorage (step a w)) = getItem key (localStorage w)) /\
  (sets_automations a (state w) = false -> localStorage (step a w) = localStorage w) /\
  (sets_automations a (state w) = true ->
   exists objects text,
     Forall2 holds_rule (automations (state (step a w))) objects /\
     JSON.stringify (JArr objects) = Some text /\
     getItem storage_key (localStorage (step a w)) = Some text /\
     load_effect (localStorage (step a w)) =
       SetRules (automations (state (step a w)))) /\
  (forall k v, localStorage (step (ChangeCredential k v) w) = localStorage w).
Proof.
  split; [|split; [|split]].
  - intros key Hne. unfold step. cbn [localStorage].
    destruct (sets_automations a (state w)); [|reflexivity].
    unfold persist_effect. now apply getItem_setItem_other.
  - intros E. unfold step. cbn [localStorage]. now rewrite E.
  - intros E. unfold step. cbn [localStorage state]. rewrite E.
    set (rules := automations (select_first_effect (handle a (state w)))).
    pose proof (Forall2_holds_rule_to_js rules) as Hall.
    destruct (parse_stringify (JArr (map rule_to_js rules))
                (plain_rule_objects rules _ Hall)) as (text & Ht & _).
    exists (map rule_to_js rules), text. split; [exact Hall|]. split; [exact Ht|].
    split; [|apply load_effect_persist_effect].
    unfold persist_effect, rules_to_js, stringify_or_undefined. rewrite Ht.
    apply getItem_setItem.
  - reflexivity.
Qed.

End StorageMore.

Lemma rules_survive_reload_witness :
  let w := @Page.run Samples.sample_engine MoreSamples.busy_afternoon
             MoreSamples.mounted_world in
  @Wire.in_sync w /\
  exists reloaded,
    fst (@Page.mount Samples.sample_engine Samples.sample_messages (Page.localStorage w)) =
      inl reloaded /\
    Page.automations reloaded = Page.automations (Page.state w).
Proof.
  apply (@rules_survive_reload Samples.sample_engine MoreSamples.busy_afternoon
           MoreSamples.mounted_world Samples.sample_messages).
  vm_compute. reflexivity.
Defined.

Lemma mount_restores_only_rules_witness :
  let st := [(Page.storage_key, js "[]")] in
  let s := Page.setAutomations (fun _ => []) (Page.initialState Samples.sample_messages) in
  @Wire.in_sync
    {| Page.state := s;
       Page.localStorage :=
         snd (@Page.mount Samples.sample_engine Samples.sample_messages st) |} /\
  @Page.mount Samples.sample_engine Samples.sample_messages
    (snd (@Page.mount Samples.sample_engine Samples.sample_messages st)) =
    @Page.mount Samples.sample_engine Samples.sample_messages st /\
  s = Page.setAutomations (fun _ => Page.automations s)
        (Page.initialState Samples.sample_messages).
Proof.
  apply (@mount_restores_only_rules Samples.sample_engine Samples.sample_messages
           [(Page.storage_key, js "[]")]).
  vm_compute. reflexivity.
Defined.

Lemma step_writes_rules_key_only_witness :
  let w := {| Page.state := Samples.fresh_state;
              Page.localStorage := [(js "theme", js "dark")] |} in
  Page.getItem (js "theme")
    (Page.localStorage
       (@Page.step Samples.sample_engine (Page.DeleteAutomation (js "auto-lead")) w)) =
    Some (js "dark").
Proof.
  intros w.
  rewrite (proj1 (@step_writes_rules_key_only Samples.sample_engine
                    (Page.DeleteAutomation (js "auto-lead")) w) (js "theme")).
  - reflexivity.
  - intros H. vm_compute in H. discriminate H.
Defined.

(** *** The inbox and the activity log *)

Section InboxMore.
Import Page.
Context {engine : Engine}.

Lemma activityLog_select_first_effect (s : State) :
  activityLog (select_first_effect s) = activityLog s.
Proof.
  unfold select_first_effect.
  destruct (selectedMessage s); [reflexivity|].
  now destruct (filteredMessages s).
Qed.

Lemma step_log (a : action) (w : World) :
  activityLog (state (step a w)) =
    match Wire.logged a with
    | Some entry => entry :: activityLog (state w)
    | None => activityLog (state w)
    end.
Proof.
  unfold step. cbn [state]. rewrite activityLog_select_first_effect.
  destruct a; cbn [handle Wire.logged]; try reflexivity.
  - unfold addAutomation.
    now destruct (is_empty (Draft.name (newAutomation (state w)))
                  || is_empty (Draft.trigger (newAutomation (state w)))
                  || is_empty (Draft.response (newAutomation (state w)))).
  - unfold handleSendReply_begin. now destruct (selectedMessage (state w)).
  - unfold handleSendReply_settle. now destruct (dispatch_result f).
Qed.

(** X10: the activity log only grows at its front. After any sequence of
    operations it is the former log with, in front of it and latest first,
    one entry for each answered send and nothing else; the entry of a send
    has the outcome "error" exactly when the dispatch threw. *)
Theorem activity_log_is_append_only (actions : list action) (w : World) :
  activityLog (state (run actions w)) =
    rev (flat_map (fun a => match Wire.logged a with
                            | Some entry => [entry]
                            | None => []
                            end) actions)
    ++ activityLog (state w) /\
  (forall sel f now iso,
      exists entry,
        Wire.logged (SettleReply sel f now iso) = Some entry /\
        ActivityEntry.messageId entry = SocialMessage.id sel /\
        (ActivityEntry.outcome entry = error <-> exists e, dispatch_result f = Throw e)).
Proof.
  split.
  - unfold run. revert w. induction actions as [|a actions IH]; intros w; [reflexivity|].
    cbn [fold_left flat_map]. rewrite IH, step_log, rev_app_distr.
    destruct (Wire.logged a) as [entry|]; cbn [rev app];
      rewrite <- ?app_assoc; reflexivity.
  - intros sel f now iso. cbn [Wire.logged]. eexists. split; [reflexivity|].
    destruct (dispatch_result f) as [data|e] eqn:E.
    + split; [reflexivity|]. cbn [sent_entry ActivityEntry.outcome]. split.
      * destruct (ToBoolean (result_dryRun data)); discriminate.
      * intros [e He]. discriminate He.
    + split; [reflexivity|]. split; [eauto | reflexivity].
Qed.

Lemma filteredMessages_setSelectedMessageId (v : option jsstring) (s : State) :
  filteredMessages (setSelectedMessageId v s) = filteredMessages s.
Proof. reflexivity. Qed.

(** X11: the list shown in the inbox holds messages of the page only, each
    of them of the chosen platform and status; with both filters on "all"
    and an empty search it is the whole list, whatever the engine does with
    letter case. *)
Theorem filteredMessages_sound (s : State) :
  (forall m,
      In m (filteredMessages s) ->
      In m (messages s) /\
      (forall p, platformFilter s = only p -> SocialMessage.platform m = p) /\
      (forall st, statusFilter s = having st -> SocialMessage.status m = st)) /\
  (List.length (filteredMessages s) <= List.length (messages s))%nat /\
  (platformFilter s = all_platforms -> statusFilter s = all_statuses ->
   searchTerm s = [] -> filteredMessages s = messages s).
Proof.
  split; [|split].
  - intros m Hm. unfold filteredMessages in Hm. apply filter_In in Hm as [Hin Hok].
    split; [exact Hin|].
    apply andb_true_iff in Hok as [Hok _]. apply andb_true_iff in Hok as [Hp Hs].
    split.
    + intros p Ep. rewrite Ep in Hp.
      destruct (SocialMessage.platform m), p; (reflexivity || discriminate Hp).
    + intros st Es. rewrite Es in Hs.
      destruct (SocialMessage.status m), st; (reflexivity || discriminate Hs).
  - unfold filteredMessages. apply filter_length_le.
  - intros Ep Es Et. unfold filteredMessages. rewrite Ep, Es, Et.
    apply filter_keeps_all. reflexivity.
Qed.

Lemma selectedMessage_found (s : State) (m : SocialMessage.t) :
  In m (messages s) ->
  selectedMessage (setSelectedMessageId (Some (SocialMessage.id m)) s) <> None.
Proof.
  intros Hin Hnone. unfold selectedMessage in Hnone.
  cbn [selectedMessageId messages setSelectedMessageId] in Hnone.
  pose proof (find_none _ _ Hnone m Hin) as H. cbn beta in H.
  now rewrite str_eqb_refl in H.
Qed.

Lemma select_first_effect_selects (s : State) :
  filteredMessages (select_first_effect s) <> [] ->
  selectedMessage (select_first_effect s) <> None.
Proof.
  unfold select_first_effect.
  destruct (selectedMessage s) as [sel|] eqn:Es; [now rewrite Es|].
  destruct (filteredMessages s) as [|m l] eqn:Ef.
  - now rewrite Ef.
  - intros _. apply selectedMessage_found.
    assert (Hin : In m (filteredMessages s)) by (rewrite Ef; now left).
    unfold filteredMessages in Hin. now apply filter_In in Hin.
Qed.

(** X12: the effect that picks a message settles in one pass: running it
    again changes nothing, so it cannot loop. It never replaces a selection
    that names a message of the page, and after every step of the page a
    message is selected whenever the inbox lists one. *)
Theorem select_first_effect_settles (s : State) :
  select_first_effect (select_first_effect s) = select_first_effect s /\
  (forall sel, selectedMessage s = Some sel -> select_first_effect s = s) /\
  (forall (a : action) (w : World),
      filteredMessages (state (step a w)) <> [] ->
      selectedMessage (state (step a w)) <> None).
Proof.
  split; [|split].
  - destruct (filteredMessages (select_first_effect s)) as [|m l] eqn:Ef.
    + unfold select_first_effect at 1. rewrite Ef.
      now destruct (selectedMessage (select_first_effect s)).
    + assert (Hne : filteredMessages (select_first_effect s) <> [])
        by (rewrite Ef; discriminate).
      apply select_first_effect_selects in Hne.
      unfold select_first_effect at 1.
      destruct (selectedMessage (select_first_effect s)); [reflexivity|].
      contradiction.
  - intros sel Hsel. unfold select_first_effect. now rewrite Hsel.
  - intros a w. unfold step. cbn [state]. apply select_first_effect_selects.
Qed.

End InboxMore.

Lemma filteredMessages_sound_witness :
  @Page.filteredMessages Samples.sample_engine Samples.fresh_state =
    Samples.sample_messages.
Proof.
  apply (proj2 (proj2 (@filteredMessages_sound Samples.sample_engine Samples.fresh_state)));
    reflexivity.
Defined.

Lemma select_first_effect_settles_witness :
  @Page.select_first_effect Samples.sample_engine Samples.fresh_state =
    Samples.fresh_state.
Proof.
  apply (proj1 (proj2 (@select_first_effect_settles Samples.sample_engine
                         Samples.fresh_state)) Samples.emma).
  reflexivity.
Defined.

(** *** The page and the relay together *)

Section WireMore.
Import Page.
Context {engine : Engine}.
Variable post : Route.RespondRequest.t -> Route.M jsval.

Lemma stringify_payload (sel : SocialMessage.t) (reply : jsstring)
  (c : AccountCredentials.t) :
  JSON.stringify (payload sel reply c) = JSON.stringify (Wire.sent_body sel reply c).
Proof.
  unfold Wire.sent_body, payload. now destruct (SocialMessage.platform sel).
Qed.

Lemma plain_sent_body (sel : SocialMessage.t) (reply : jsstring)
  (c : AccountCredentials.t) :
  JSON.plain (Wire.sent_body sel reply c) = true.
Proof.
  unfold Wire.sent_body, payload. now destruct (SocialMessage.platform sel).
Qed.

Lemma read_sent_body (sel : SocialMessage.t) (reply : jsstring)
  (c : AccountCredentials.t) :
  let b := Wire.sent_body sel reply c in
  read b (js "platform") = JStr (Platform_text (SocialMessage.platform sel)) /\
  read b (js "targetId") = JStr (SocialMessage.id sel) /\
  read b (js "message") = JStr reply /\
  read b (js "channel") = JStr (Channel_text (getChannelFromMessage sel)) /\
  read b (js "dryRun") = JBool true /\
  read b (js "replyToId") = JUndefined.
Proof.
  unfold Wire.sent_body, payload.
  destruct (SocialMessage.platform sel); repeat split; reflexivity.
Qed.

(** X13: what the page sends is what the relay reads. The body of the
    request parses back to the payload without its undefined property; the
    relay refuses it only when the reply or the message id is empty, and
    otherwise calls the helper with the channel of the selected message,
    always as a dry run and never with a [replyToId]: the relay's check of
    the channel cannot fail on a request of the page. *)
Theorem page_request_at_the_relay (sel : SocialMessage.t) (reply : jsstring)
  (c : AccountCredentials.t) :
  let b := Wire.sent_body sel reply c in
  JSON.parse (body (request_of sel reply c)) = Some b /\
  (is_empty (SocialMessage.id sel) || is_empty reply = true ->
   Route.POST post {| Route.json := Return b |} =
     ([], {| Route.status := 400;
             Route.body := Route.failure_body Route.required_message |})) /\
  (is_empty (SocialMessage.id sel) || is_empty reply = false ->
   let args := Route.request_args b (Wire.to_MetaChannel (getChannelFromMessage sel)) in
   Route.RespondRequest.dryRun args = JBool true /\
   Route.RespondRequest.targetId args = JStr (SocialMessage.id sel) /\
   Route.RespondRequest.message args = JStr reply /\
   Route.RespondRequest.replyToId args = JUndefined /\
   Route.respond post {| Route.json := Return b |} =
     Route.bind (Route.emit (Route.PostMetaResponseCalled args)) (fun _ =>
     Route.bind (post args) (fun r =>
     Route.ret {| Route.status := 200; Route.body := Route.success_body r |}))).
Proof.
  intros b.
  destruct (read_sent_body sel reply c) as (Hp & Ht & Hm & Hc & Hd & Hr).
  fold b in Hp, Ht, Hm, Hc, Hd, Hr.
  assert (Hb : nullish b = false).
  { unfold b, Wire.sent_body, payload. reflexivity. }
  pose proof (respond_defined post {| Route.json := Return b |} b eq_refl Hb) as Hresp.
  rewrite Hp, Ht, Hm, Hc in Hresp.
  assert (Hplat : ToBoolean (JStr (Platform_text (SocialMessage.platform sel))) = true)
    by now destruct (SocialMessage.platform sel).
  assert (Hchan : ToBoolean (JStr (Channel_text (getChannelFromMessage sel))) = true)
    by now destruct (getChannelFromMessage sel).
  assert (Has : Route.as_MetaChannel (JStr (Channel_text (getChannelFromMessage sel))) =
                Some (Wire.to_MetaChannel (getChannelFromMessage sel)))
    by now destruct (getChannelFromMessage sel).
  rewrite Hplat, Hchan, Has in Hresp. cbn [negb orb ToBoolean] in Hresp.
  rewrite !negb_involutive, orb_false_r in Hresp.
  split; [|split].
  - destruct (parse_stringify b (plain_sent_body sel reply c)) as (t & Hs & Hparse).
    unfold request_of, body, stringify_or_undefined.
    unfold b in Hs. rewrite <- stringify_payload in Hs. now rewrite Hs.
  - intros Hempty. unfold Route.POST. now rewrite Hresp, Hempty.
  - intros Hfull args. rewrite Hfull in Hresp.
    unfold args, Route.request_args. cbn [Route.RespondRequest.dryRun
      Route.RespondRequest.targetId Route.RespondRequest.message
      Route.RespondRequest.replyToId].
    repeat split; assumption.
Qed.

(** X14: a refusal of the relay is shown word for word. Whatever its
    status, an answer [{ ok: false, error }] makes the send fail with the
    relay's text, or with the page's own when that text is empty: the text
    is the feedback under the composer and the end of the log entry; the
    reply stays in the composer, no message changes and the button is freed. *)
Theorem relay_refusal_is_shown (sel : SocialMessage.t) (status : N) (msg : jsstring)
  (now : Z) (iso : jsstring) (s : State) :
  let f := Fulfilled {| Response.status := status;
                        Response.json := Return (Route.failure_body msg) |} in
  let text := if is_empty msg then rejected_default else msg in
  let s' := handleSendReply_settle sel f now iso s in
  dispatch_result f = Throw (ErrorObject text) /\
  composerFeedback s' = Some text /\
  activityLog s' = error_entry sel (ErrorObject text) now iso :: activityLog s /\
  ActivityEntry.summary (error_entry sel (ErrorObject text) now iso) =
    js "Failed to reply: " ++ text /\
  composerValue s' = composerValue s /\
  messages s' = messages s /\
  isSending s' = false.
Proof.
  intros f text s'.
  assert (Hd : dispatch_result f = Throw (ErrorObject text)).
  { unfold f, text, dispatch_result, Route.failure_body.
    cbn [Response.json rbind].
    destruct (negb (Response.ok _)); destruct msg; reflexivity. }
  split; [exact Hd|].
  unfold s', handleSendReply_settle. rewrite Hd.
  repeat split; reflexivity.
Qed.

End WireMore.

Lemma page_request_at_the_relay_witness :
  Route.POST Samples.quiet_helper
    {| Route.json := Return (Wire.sent_body Samples.emma [] Page.defaultCredentials) |} =
    ([], {| Route.status := 400;
            Route.body := Route.failure_body Route.required_message |}).
Proof.
  apply (proj1 (proj2 (@page_request_at_the_relay Samples.sample_engine
                         Samples.quiet_helper Samples.emma [] Page.defaultCredentials))).
  reflexivity.
Defined.

(** *** What the page shows *)

Section ViewMore.
Import Page View.

(** X15: the connection score is 0, 50 or 100: fifty for each platform
    with both its id and its token filled in. It is 100 exactly when the
    four of them are non-empty, and the webhook URL plays no part in it. *)
Theorem connectionScore_values (c : AccountCredentials.t) :
  let fb := negb (is_empty (AccountCredentials.facebookPageId c))
            && negb (is_empty (AccountCredentials.facebookToken c)) in
  let ig := negb (is_empty (AccountCredentials.instagramBusinessId c))
            && negb (is_empty (AccountCredentials.instagramToken c)) in
  connectionScore c = ((if fb then 50 else 0) + (if ig then 50 else 0))%Z /\
  (connectionScore c = 100%Z <-> fb && ig = true) /\
  (connectionScore c = 0%Z <-> fb || ig = false) /\
  (forall v,
      connectionScore (with_credential AccountCredentials.key_webhookUrl v c) =
        connectionScore c).
Proof.
  intros fb ig.
  assert (E : connectionScore c = ((if fb then 50 else 0) + (if ig then 50 else 0))%Z).
  { unfold connectionScore. fold fb ig. now destruct fb, ig. }
  split; [exact E|]. split; [|split].
  - rewrite E. destruct fb, ig; split; (reflexivity || discriminate).
  - rewrite E. destruct fb, ig; split; (reflexivity || discriminate).
  - intros v. reflexivity.
Qed.

(** X16: changing a credential sets that field and no other, the last
    change of a field wins, and changes of different fields can be made in
    either order. *)
Theorem handleCredentialChange_fields (k k' : AccountCredentials.key) (v v' : jsstring)
  (s : State) :
  credential k (credentials (handleCredentialChange k v s)) = v /\
  (k' <> k ->
   credential k' (credentials (handleCredentialChange k v s)) =
     credential k' (credentials s)) /\
  handleCredentialChange k v' (handleCredentialChange k v s) =
    handleCredentialChange k v' s /\
  (k' <> k ->
   handleCredentialChange k' v' (handleCredentialChange k v s) =
     handleCredentialChange k v (handleCredentialChange k' v' s)).
Proof.
  repeat split.
  - now destruct k.
  - intros Hk. destruct k, k'; (reflexivity || now contradiction Hk).
  - now destruct k.
  - intros Hk. destruct k, k'; (reflexivity || now contradiction Hk).
Qed.

Lemma first_word_prefix (a : jsstring) :
  ~ In 32%N (first_word a) /\
  exists rest,
    a = first_word a ++ rest /\
    match rest with [] => True | c :: _ => c = 32%N end.
Proof.
  induction a as [|c a [IHn (rest & IHa & IHr)]].
  - split; [intros []|]. now exists [].
  - cbn [first_word]. destruct (N.eqb c 32) eqn:E.
    + split; [intros []|]. exists (c :: a). split; [reflexivity|].
      now apply N.eqb_eq.
    + split.
      * intros [H|H]; [|now apply IHn].
        subst c. discriminate E.
      * exists rest. split; [|exact IHr]. cbn [app]. now rewrite <- IHa.
Qed.

(** X17: the quick replies. There are none without a selected message;
    with one there are three, "thanks", "support" and "partnership", and
    each greets the author by first name: the author up to the first space,
    which is the whole author when there is no space and the empty string
    when the author starts with one. *)
Theorem hydrateQuickReplies_greets_author (s : State) :
  (selectedMessage s = None -> hydrateQuickReplies s = []) /\
  (forall sel,
      selectedMessage s = Some sel ->
      let firstName := first_word (SocialMessage.author sel) in
      map QuickReply.id (hydrateQuickReplies s) =
        [js "thanks"; js "support"; js "partnership"] /\
      (forall q,
          In q (hydrateQuickReplies s) ->
          exists before rest,
            QuickReply.message q = before ++ firstName ++ rest /\
            before <> [] /\ last before 0%N = 32%N /\ rest <> []) /\
      ~ In 32%N firstName /\
      (exists rest,
          SocialMessage.author sel = firstName ++ rest /\
          match rest with [] => True | c :: _ => c = 32%N end)).
Proof.
  split.
  - intros Hs. unfold hydrateQuickReplies. now rewrite Hs.
  - intros sel Hs firstName. unfold hydrateQuickReplies. rewrite Hs. fold firstName.
    split; [reflexivity|]. split.
    + intros q [<-|[<-|[<-|[]]]]; cbn [QuickReply.message].
      * exists (js "Hey "). eexists. repeat split; try reflexivity; discriminate.
      * exists (js "Thanks for the heads up, "). eexists.
        repeat split; try reflexivity; discriminate.
      * exists (js "Love this idea, "). eexists.
        repeat split; try reflexivity; discriminate.
    + apply first_word_prefix.
Qed.

Context {rt : RelativeTime}.

Lemma first_unit_units (diff : option Z) :
  exists unit milliseconds,
    first_unit diff units = Some (unit, milliseconds) /\
    In (unit, milliseconds) units /\
    (is_minute unit = false -> exceeds diff milliseconds = true) /\
    (forall u ms, In (u, ms) units -> (milliseconds < ms)%Z -> exceeds diff ms = false).
Proof.
  destruct diff as [d|].
  2:{ exists minute, 60000%Z. repeat split; try reflexivity.
      - simpl. auto 10.
      - discriminate. }
  unfold units, first_unit, exceeds.
  repeat match goal with
         | |- context [Z.ltb ?a ?b] => destruct (Z.ltb_spec a b)
         end;
    cbn [orb is_minute];
    eexists; eexists; (split; [reflexivity|]);
    (split; [simpl; auto 10|]);
    (split; [intros Hmin; try discriminate Hmin; apply Z.ltb_lt; lia|]);
    intros u ms Hin Hlt; simpl in Hin;
    repeat match type of Hin with
           | _ \/ _ => destruct Hin as [Hin|Hin]
           | False => destruct Hin
           end; inversion Hin; subst u ms; apply Z.ltb_ge; lia.
Qed.

(** X18: a relative time is always what the formatter says, never the
    fallback "just now" of the last line. The unit is the largest of the six
    whose span the distance strictly exceeds, and the minute when there is
    none: a distance of exactly one hour is given in minutes, one under a
    minute too, and so is a date that does not parse, for which the
    formatter is handed [NaN]. *)
Theorem formatRelativeTime_unit (now : Z) (value : jsstring) :
  (Date_getTime value = None ->
   formatRelativeTime now value = format None minute) /\
  (forall d,
      Date_getTime value = Some d ->
      exists unit milliseconds,
        In (unit, milliseconds) units /\
        formatRelativeTime now value =
          format (Some (Math_round_quotient (d - now) milliseconds)) unit /\
        (unit <> minute -> (milliseconds < Z.abs (d - now))%Z) /\
        (forall u ms,
            In (u, ms) units -> (milliseconds < ms)%Z -> (Z.abs (d - now) <= ms)%Z) /\
        ((Z.abs (d - now) <= 1000 * 60 * 60)%Z -> unit = minute)).
Proof.
  split.
  - intros Hd. unfold formatRelativeTime. now rewrite Hd.
  - intros d Hd.
    destruct (first_unit_units (Some (d - now)%Z)) as (unit & ms & Hf & Hin & Hex & Hle).
    exists unit, ms. split; [exact Hin|]. split; [|split; [|split]].
    + unfold formatRelativeTime. rewrite Hd. cbn [option_map]. now rewrite Hf.
    + intros Hu. apply Z.ltb_lt. apply Hex. now destruct unit.
    + intros u m Hu Hlt. apply Z.ltb_ge. now apply (Hle u m).
    + intros Hsmall. destruct unit; try reflexivity; exfalso;
        assert (Hx : exceeds (Some (d - now)%Z) ms = true) by (now apply Hex);
        apply Z.ltb_lt in Hx; simpl in Hin;
        repeat match type of Hin with
               | _ \/ _ => destruct Hin as [Hin|Hin]
               | False => destruct Hin
               end; inversion Hin; subst ms; lia.
Qed.

End ViewMore.

Lemma handleCredentialChange_fields_witness :
  View.credential Page.AccountCredentials.key_facebookToken
    (Page.credentials
       (Page.handleCredentialChange Page.AccountCredentials.key_facebookPageId
          (js "1029384756") Samples.fresh_state)) = [].
Proof.
  rewrite (proj1 (proj2 (handleCredentialChange_fields
                           Page.AccountCredentials.key_facebookPageId
                           Page.AccountCredentials.key_facebookToken
                           (js "1029384756") [] Samples.fresh_state))).
  - reflexivity.
  - discriminate.
Defined.

Lemma hydrateQuickReplies_greets_author_witness :
  map View.QuickReply.id (View.hydrateQuickReplies Samples.fresh_state) =
    [js "thanks"; js "support"; js "partnership"].
Proof.
  apply (proj2 (hydrateQuickReplies_greets_author Samples.fresh_state) Samples.emma).
  reflexivity.
Defined.

Lemma formatRelativeTime_unit_witness :
  exists unit milliseconds,
    In (unit, milliseconds) View.units /\
    @View.formatRelativeTime MoreSamples.sample_relative_time 1730000000000
      (js "2024-10-26T03:33:20.000Z") =
      @View.format MoreSamples.sample_relative_time
        (Some (@View.Math_round_quotient MoreSamples.sample_relative_time
                 (1729913600000 - 1730000000000) milliseconds))
        unit.
Proof.
  destruct (proj2 (@formatRelativeTime_unit MoreSamples.sample_relative_time
                     1730000000000 (js "2024-10-26T03:33:20.000Z"))
              1729913600000%Z eq_refl)
    as (unit & milliseconds & Hin & Hf & _).
  exists unit, milliseconds. split; assumption.
Defined.

(** *** Sending a reply *)

Section SendMore.
Import Page.
Context {engine : Engine}.

(** X19: the page takes an answer for a success in one case only: the
    request was fulfilled, the status is between 200 and 299, the body is
    JSON, not [null], and its [ok] is truthy. Only then does a message of
    the inbox change; in every other case the messages are left as they
    were. *)
Theorem dispatch_succeeds_only_on_ok (f : fetched) (data : jsval) :
  (dispatch_result f = Return data <->
   exists response,
     f = Fulfilled response /\
     Response.json response = Return data /\
     Response.ok response = true /\
     nullish data = false /\
     ToBoolean (read data (js "ok")) = true) /\
  (forall sel now iso s,
      (forall d, dispatch_result f <> Return d) ->
      messages (handleSendReply_settle sel f now iso s) = messages s).
Proof.
  split.
  - split.
    + destruct f as [e|response]; cbn [dispatch_result]; [discriminate|].
      destruct (Response.json response) as [d|e] eqn:Ej; cbn [rbind]; [|discriminate].
      destruct (Response.ok response) eqn:Eok; cbn [negb rbind].
      * destruct (nullish d) eqn:En.
        { destruct d; try discriminate En; cbn [Get rbind]; discriminate. }
        rewrite (Get_defined d _ En). cbn [rbind].
        destruct (ToBoolean (read d (js "ok"))) eqn:Et; cbn [negb].
        -- intros [= <-]. exists response. repeat split; assumption.
        -- destruct (ToBoolean d) eqn:Ed; [rewrite (Get_defined d _ En)|];
             cbn [rbind]; rewrite ?Ed;
             match goal with
             | |- context [ToString ?v] => destruct (ToString v)
             end; cbn [rbind]; discriminate.
      * destruct (ToBoolean d) eqn:Ed.
        -- destruct (Get d (js "error")) as [r|e]; cbn [rbind]; [|discriminate].
           match goal with
           | |- context [ToString ?v] => destruct (ToString v)
           end; cbn [rbind]; discriminate.
        -- cbn [rbind]. rewrite Ed.
           match goal with
           | |- context [ToString ?v] => destruct (ToString v)
           end; cbn [rbind]; discriminate.
    + intros (response & -> & Ej & Eok & En & Et). cbn [dispatch_result].
      rewrite Ej, Eok. cbn [negb rbind]. rewrite (Get_defined data _ En).
      cbn [rbind]. now rewrite Et.
  - intros sel now iso s Hno. rewrite messages_settle.
    destruct (dispatch_result f) as [d|e]; [|reflexivity].
    now contradiction (Hno d).
Qed.

(** X20: a click on the send button. Without a selected message it does
    nothing. With one, whatever the network answers, the button is freed,
    there is a feedback under the composer and the log has one more entry,
    about the selected message; the rules, the credentials, the selection,
    the filters and the ids of the messages are never touched. *)
Theorem handleSendReply_frame (reply : jsstring) (network : FetchRequest -> fetched)
  (now : Z) (iso : jsstring) (s : State) :
  let s' := handleSendReply reply network now iso s in
  (selectedMessage s = None -> s' = s) /\
  (forall sel,
      selectedMessage s = Some sel ->
      isSending s' = false /\
      composerFeedback s' <> None /\
      exists entry,
        activityLog s' = entry :: activityLog s /\
        ActivityEntry.messageId entry = SocialMessage.id sel /\
        ActivityEntry.platform entry = SocialMessage.platform sel /\
        ActivityEntry.timestamp entry = iso) /\
  automations s' = automations s /\
  credentials s' = credentials s /\
  selectedMessageId s' = selectedMessageId s /\
  platformFilter s' = platformFilter s /\
  statusFilter s' = statusFilter s /\
  searchTerm s' = searchTerm s /\
  map SocialMessage.id (messages s') = map SocialMessage.id (messages s).
Proof.
  intros s'. unfold s'.
  destruct (selectedMessage s) as [sel|] eqn:Es.
  - rewrite (handleSendReply_selected s reply network now iso sel Es).
    unfold handleSendReply_settle.
    destruct (dispatch_result (network (request_of sel reply (credentials s))))
      as [data|e].
    + split; [discriminate|]. split.
      * intros sel' [= <-]. split; [reflexivity|]. split; [discriminate|].
        eexists. repeat split; reflexivity.
      * repeat split; try reflexivity.
        cbn [messages setIsSending setComposerFeedback setComposerValue
             setActivityLog setMessages].
        apply id_mark_responded.
    + split; [discriminate|]. split.
      * intros sel' [= <-]. split; [reflexivity|]. split; [discriminate|].
        eexists. repeat split; reflexivity.
      * repeat split; reflexivity.
  - unfold handleSendReply, handleSendReply_begin. rewrite Es.
    split; [reflexivity|]. split; [discriminate|]. repeat split; reflexivity.
Qed.

End SendMore.

Lemma dispatch_succeeds_only_on_ok_witness :
  Page.messages
    (@Page.handleSendReply_settle Samples.sample_engine Samples.emma
       (Page.Fulfilled {| Page.Response.status := 200;
                          Page.Response.json := Return JNull |})
       1730000000500 (js "2024-11-01T00:00:00.500Z") Samples.fresh_state) =
    Page.messages Samples.fresh_state.
Proof.
  apply (proj2 (@dispatch_succeeds_only_on_ok Samples.sample_engine
                  (Page.Fulfilled {| Page.Response.status := 200;
                                     Page.Response.json := Return JNull |})
                  JNull)).
  intros d H. vm_compute in H. discriminate H.
Defined.

Lemma handleSendReply_frame_witness :
  Page.isSending
    (@Page.handleSendReply Samples.sample_engine (js "On it!") Samples.refusing_network
       1730000000500 (js "2024-11-01T00:00:00.500Z") Samples.fresh_state) = false.
Proof.
  apply (proj1 (proj2 (@handleSendReply_frame Samples.sample_engine (js "On it!")
                         Samples.refusing_network 1730000000500
                         (js "2024-11-01T00:00:00.500Z") Samples.fresh_state))
           Samples.emma).
  reflexivity.
Defined.
